(** * bloom-player: book loading and page presentation

    A shallow embedding of the parts of [src/bloom-player-core.tsx] that
    decide how a book URL is resolved, how loading errors are reported, how
    the fetched markup is rewritten (language visibility, page size classes,
    resource URLs), how stylesheets are assembled, which slides are
    materialised, and how media durations are accumulated.

    JavaScript strings are modelled by [string]; its characters stand for
    code units, so the model covers the strings whose code units fit in
    eight bits.  Indices and numbers that the code compares or subtracts are
    in [Z]; durations are IEEE 754 binary64 values ([spec_float]). *)

From Stdlib Require Import String Ascii List ZArith Bool Lia.
From Stdlib Require Import Floats.SpecFloat.
From Stdlib Require Import DecimalString.
Import ListNotations.
Open Scope string_scope.
Open Scope Z_scope.

(* ================================================================== *)
(** * Part I: definitions *)
(* ================================================================== *)

(** ** Results of code that may throw *)

Inductive result (A : Type) : Type :=
| Ok (a : A)
| Throw (message : string).

Arguments Ok {A} a.
Arguments Throw {A} message.

(** ** JavaScript string operations *)

Module Js.

Definition len (s : string) : Z := Z.of_nat (String.length s).

(** [s.startsWith(p)] *)
Definition startsWith (s p : string) : bool := String.prefix p s.

(** The string that remains after dropping the first [n] code units. *)
Fixpoint drop (n : nat) (s : string) : string :=
  match n, s with
  | O, _ => s
  | S _, EmptyString => EmptyString
  | S n', String _ s' => drop n' s'
  end.

(** The first [n] code units. *)
Fixpoint take (n : nat) (s : string) : string :=
  match n, s with
  | O, _ => EmptyString
  | S _, EmptyString => EmptyString
  | S n', String c s' => String c (take n' s')
  end.

(** [s.endsWith(p)] *)
Definition endsWith (s p : string) : bool :=
  (String.length p <=? String.length s)%nat
  && String.eqb (drop (String.length s - String.length p) s) p.

(** The last code unit of a string, if any. *)
Fixpoint lastChar (s : string) : option ascii :=
  match s with
  | EmptyString => None
  | String c EmptyString => Some c
  | String _ s' => lastChar s'
  end.

(** [s.substring(a, b)]: both indices are clamped to [0, s.length] and
    swapped when [a > b]. *)
Definition clamp (s : string) (i : Z) : Z := Z.min (Z.max i 0) (len s).

Definition substring (s : string) (a b : Z) : string :=
  let a' := clamp s a in
  let b' := clamp s b in
  let from := Z.min a' b' in
  let to := Z.max a' b' in
  take (Z.to_nat (to - from)) (drop (Z.to_nat from) s).

(** [p] occurs in [s] at offset [n]. *)
Definition occursAt (p s : string) (n : nat) : bool :=
  String.prefix p (drop n s).

(** [s.indexOf(p)]: index of the first occurrence of [p], or -1. *)
Fixpoint indexOfFrom (i : Z) (s p : string) : Z :=
  if String.prefix p s then i
  else match s with
       | EmptyString => -1
       | String _ s' => indexOfFrom (i + 1) s' p
       end.

Definition indexOf (s p : string) : Z := indexOfFrom 0 s p.

(** [s.lastIndexOf(p)]: index of the last occurrence of [p], or -1. *)
Fixpoint lastIndexOfFrom (i : Z) (s p : string) : Z :=
  match s with
  | EmptyString => if String.prefix p s then i else -1
  | String _ s' =>
      let later := lastIndexOfFrom (i + 1) s' p in
      if 0 <=? later then later
      else if String.prefix p s then i else -1
  end.

Definition lastIndexOf (s p : string) : Z := lastIndexOfFrom 0 s p.

(** [p] occurs somewhere in [s]. *)
Fixpoint hasSub (p s : string) : bool :=
  String.prefix p s
  || match s with
     | EmptyString => false
     | String _ s' => hasSub p s'
     end.

(** [s.includes(p)], for strings. *)
Definition contains (s p : string) : bool := 0 <=? indexOf s p.

(** [s.replace(p, r)] with a string pattern: only the first occurrence
    is replaced. *)
Fixpoint replace (s p r : string) : string :=
  if String.prefix p s then r ++ drop (String.length p) s
  else match s with
       | EmptyString => EmptyString
       | String c s' => String c (replace s' p r)
       end.

(** White space in the sense of [trim] and of the regular-expression
    class [\s], among the eight-bit code units. *)
Definition isWhiteSpace (c : ascii) : bool :=
  let n := nat_of_ascii c in
  ((9 <=? n) && (n <=? 13) || (n =? 32) || (n =? 160))%nat.

Fixpoint allWhiteSpace (s : string) : bool :=
  match s with
  | EmptyString => true
  | String c s' => isWhiteSpace c && allWhiteSpace s'
  end.

Fixpoint trimStart (s : string) : string :=
  match s with
  | EmptyString => EmptyString
  | String c s' => if isWhiteSpace c then trimStart s' else s
  end.

Fixpoint trimEnd (s : string) : string :=
  match s with
  | EmptyString => EmptyString
  | String c s' =>
      match trimEnd s' with
      | EmptyString => if isWhiteSpace c then EmptyString
                       else String c EmptyString
      | t => String c t
      end
  end.

(** [s.trim()] *)
Definition trim (s : string) : string := trimEnd (trimStart s).

(** [a.includes(x)], for arrays of strings. *)
Definition includes (a : list string) (x : string) : bool :=
  existsb (String.eqb x) a.

End Js.

(** All code units of a string satisfy a predicate. *)
Fixpoint allChars (p : ascii -> bool) (s : string) : bool :=
  match s with
  | EmptyString => true
  | String c s' => p c && allChars p s'
  end.

(** ** Resolving the book URL *)

(** [preprocessUrl]: the [url] property, cleaned up.  The property may be
    undefined ([None]). *)
Definition preprocessUrl (url : option string) : result string :=
  match url with
  | None =>
      Throw "The url parameter was empty. It should point to the url of a book."
  | Some url =>
      if String.eqb "" (Js.trim url) then
        Throw "The url parameter was empty. It should point to the url of a book."
      else if String.eqb url "working" then Ok ""
      else
        let url :=
          if Js.endsWith url "/" then Js.substring url 0 (Js.len url - 1)
          else url in
        let url :=
          if Js.endsWith url "%2f" then Js.substring url 0 (Js.len url - 3)
          else url in
        Ok url
  end.

(** The part of [componentDidUpdate] that interprets a new source URL
    (the block that starts with [const slashIndex]). *)
Record BookUrls : Type := {
  urlOfBookHtmlFile : string;
  urlPrefix : string
}.

Definition slashIndex (sourceUrl : string) : Z := Js.lastIndexOf sourceUrl "/".

Definition encodedSlashIndex (sourceUrl : string) : Z :=
  Js.lastIndexOf sourceUrl "%2f".

Definition filename (sourceUrl : string) : string :=
  if slashIndex sourceUrl >? encodedSlashIndex sourceUrl then
    Js.substring sourceUrl (slashIndex sourceUrl + 1) (Js.len sourceUrl)
  else
    Js.substring sourceUrl (encodedSlashIndex sourceUrl + 3) (Js.len sourceUrl).

Definition haveFullPath (sourceUrl : string) : bool :=
  Js.endsWith (filename sourceUrl) ".htm".

Definition bookUrls (sourceUrl : string) : BookUrls :=
  {| urlOfBookHtmlFile :=
       if haveFullPath sourceUrl then sourceUrl
       else sourceUrl ++ "/" ++ filename sourceUrl ++ ".htm";
     urlPrefix :=
       if haveFullPath sourceUrl then
         Js.substring sourceUrl 0
           (Z.max (slashIndex sourceUrl) (encodedSlashIndex sourceUrl))
       else sourceUrl |}.


(** The resolution as the specification words it, with "/" as the only
    separator: a URL that ends in ".htm" is the markup file and the prefix
    is the URL up to its last slash; any other URL is a folder that holds
    a file named after its last path segment. *)
Definition spec_bookUrls (u : string) : BookUrls :=
  let lastSlash := Js.lastIndexOf u "/" in
  if Js.endsWith u ".htm" then
    {| urlOfBookHtmlFile := u;
       urlPrefix := Js.substring u 0 lastSlash |}
  else
    {| urlOfBookHtmlFile :=
         u ++ "/" ++ Js.substring u (lastSlash + 1) (Js.len u) ++ ".htm";
       urlPrefix := u |}.

(** ** Component state *)

(** [IState]. *)
Record IState : Type := {
  pages : list string;
  styleRules : string;
  importedBodyClasses : string;
  currentSwiperIndex : Z;
  isLoading : bool;
  loadFailed : bool;
  loadErrorHtml : string;
  ignorePhonyClick : bool;
  isFinishUpForNewBookComplete : bool
}.

(** The state a component starts with. *)
Definition initialState : IState :=
  {| pages := ["loading..."];
     styleRules := "";
     importedBodyClasses := "";
     currentSwiperIndex := 0;
     isLoading := true;
     loadFailed := false;
     loadErrorHtml := "";
     ignorePhonyClick := false;
     isFinishUpForNewBookComplete := false |}.

(** ** Loading errors *)




(** Decimal notation of a character code. *)
Definition decimal (n : nat) : string := NilZero.string_of_uint (Nat.to_uint n).

(** The characters that [htmlEncode] replaces: the class of the code
    units from U+00A0 to U+9999 (160 to 39321) and of "<", ">" and "&";
    among the eight-bit code units the [i] flag adds nothing. *)
Definition needsEncoding (c : ascii) : bool :=
  ((160 <=? N_of_ascii c) && (N_of_ascii c <=? 39321))%N
  || Ascii.eqb c "<" || Ascii.eqb c ">" || Ascii.eqb c "&".

Fixpoint encodeChars (s : string) : string :=
  match s with
  | EmptyString => EmptyString
  | String c s' =>
      (if needsEncoding c then "&#" ++ decimal (nat_of_ascii c) ++ ";"
       else String c EmptyString) ++ encodeChars s'
  end.

(** [htmlEncode] *)
Definition htmlEncode (str : string) : string :=
  encodeChars (Js.replace str "%23" "#").

(** The text that a browser shows for markup without tags, as the
    specification reads "HTML-encoded": a decimal character reference
    stands for its character, every other code unit for itself.  The
    state is what has been read of a reference. *)
Inductive Reference : Type :=
| NoReference
| Ampersand
| Digits (digits : string) (value : nat).







(** [httpget] percent-encodes every "#" of the URL before the request. *)
Fixpoint encodeHash (url : string) : string :=
  match url with
  | EmptyString => EmptyString
  | String c s' =>
      (if Ascii.eqb c "#" then "%23" else String c EmptyString)
      ++ encodeHash s'
  end.

(** ** Rendering *)

(** The properties that [render] reads.  [absorbsDragging] stands for
    [activityManager.getActivityAbsorbsDragging()]. *)
Record RenderProps : Type := {
  showContextPages : bool;
  outsideButtonPageClass : string;
  hideNextPrevButtons : bool;
  absorbsDragging : bool
}.

(** What a slide holds: the scoped style rules and the page markup, or
    the empty string. *)
Inductive SlideContent : Type :=
| PageContent (scopedStyle : string) (pageClass : string) (html : string)
| EmptyContent.

Record Slide : Type := {
  slideClass : string;
  slideContent : SlideContent
}.

Inductive Rendered : Type :=
| LoadingSpinner
| LoadFailedMessage (html : string)
| Player (bloomPlayerClass : string) (slides : list Slide)
         (prevDisabled nextDisabled : bool).

(** [getSlideClass] *)
Definition getSlideClass (props : RenderProps) (state : IState)
    (itemIndex : Z) : string :=
  if negb (showContextPages props) then ""
  else if (itemIndex =? currentSwiperIndex state)
          || (itemIndex =? currentSwiperIndex state + 2)
       then "contextPage"
       else "".

(** [array.map((x, index) => ...)] *)
Fixpoint mapi_from {A B : Type} (f : A -> Z -> B) (i : Z) (l : list A)
  : list B :=
  match l with
  | [] => []
  | x :: l' => f x i :: mapi_from f (i + 1) l'
  end.

Definition mapi {A B : Type} (f : A -> Z -> B) (l : list A) : list B :=
  mapi_from f 0 l.

Definition renderSlide (props : RenderProps) (state : IState)
    (slide : string) (index : Z) : Slide :=
  {| slideClass := "page-preview-slide " ++ getSlideClass props state index;
     slideContent :=
       if Z.abs (index - currentSwiperIndex state) <? 2 then
         PageContent (styleRules state)
           ("bloomPlayer-page " ++ importedBodyClasses state) slide
       else EmptyContent |}.

Definition bloomPlayerClass (props : RenderProps) : string :=
  if negb (String.eqb (outsideButtonPageClass props) "") then
    "bloomPlayer" ++ " " ++ outsideButtonPageClass props
    ++ (if absorbsDragging props
        then " showNavigationButtonsEvenOnTouchDevices" else "")
  else if absorbsDragging props then
    "bloomPlayer" ++ " showNavigationButtonsEvenOnTouchDevices"
  else if hideNextPrevButtons props then
    "bloomPlayer" ++ " hideNextPrevButtons"
  else "bloomPlayer".

(** The markup of the pages that a rendering shows. *)
Definition shownMarkup (r : Rendered) : list string :=
  match r with
  | Player _ slides _ _ =>
      flat_map (fun s => match slideContent s with
                         | PageContent _ _ html => [html]
                         | EmptyContent => []
                         end) slides
  | _ => []
  end.

(** [render] *)
Definition render (props : RenderProps) (state : IState) : Rendered :=
  if isLoading state then LoadingSpinner
  else if loadFailed state then LoadFailedMessage (loadErrorHtml state)
  else
    Player (bloomPlayerClass props)
      (mapi (renderSlide props state) (pages state))
      (currentSwiperIndex state =? 0)
      (currentSwiperIndex state >=? Z.of_nat (List.length (pages state)) - 1).

(** The state change of [setIndex]: [setState({ currentSwiperIndex: index })]. *)
Definition setIndex (index : Z) (state : IState) : IState :=
  {| pages := pages state;
     styleRules := styleRules state;
     importedBodyClasses := importedBodyClasses state;
     currentSwiperIndex := index;
     isLoading := isLoading state;
     loadFailed := loadFailed state;
     loadErrorHtml := loadErrorHtml state;
     ignorePhonyClick := ignorePhonyClick state;
     isFinishUpForNewBookComplete := isFinishUpForNewBookComplete state |}.

(** ** Regular expressions

    The backtracking matcher of the regular expressions that the code uses:
    literals, character classes, greedy and lazy repetition of a class, an
    optional class, word boundaries, alternatives and one capture group.
    A match attempt carries the code unit before the current position (for
    [\b]), the rest of the input and the text captured so far. *)

Module RegExp.

Inductive regex : Type :=
| Lit (s : string)
| Class (p : ascii -> bool)
| Star (p : ascii -> bool)
| LazyStar (p : ascii -> bool)
| Opt (p : ascii -> bool)
| WordBoundary
| Alt (r1 r2 : regex)
| Seq (r1 r2 : regex)
| Group (r : regex).

(** What a successful attempt returns: the input after the match and the
    capture. *)
Definition outcome : Type := (string * option string)%type.

Definition cont : Type := option ascii -> string -> option string -> option outcome.

(** [\w] *)
Definition isWordChar (c : ascii) : bool :=
  let n := nat_of_ascii c in
  ((48 <=? n) && (n <=? 57) || (65 <=? n) && (n <=? 90)
   || (97 <=? n) && (n <=? 122) || (n =? 95))%nat.

Definition isWord (c : option ascii) : bool :=
  match c with Some c => isWordChar c | None => false end.

Definition head (s : string) : option ascii :=
  match s with String c _ => Some c | EmptyString => None end.

(** [.] matches anything but a line terminator. *)
Definition dot (c : ascii) : bool :=
  negb ((nat_of_ascii c =? 10)%nat || (nat_of_ascii c =? 13)%nat).

(** [\S] *)
Definition nonSpace (c : ascii) : bool := negb (Js.isWhiteSpace c).

Definition doubleQuote : ascii := ascii_of_nat 34.

(** The class of the single and the double quote. *)
Definition quote (c : ascii) : bool :=
  Ascii.eqb c "'" || Ascii.eqb c doubleQuote.

(** The class of everything but a closing parenthesis and the quotes. *)
Definition notParenQuote (c : ascii) : bool :=
  negb (Ascii.eqb c ")" || quote c).

(** The literal [lit] at the start of [s]: the last code unit consumed
    and what follows. *)
Fixpoint literal (lit : string) (prev : option ascii) (s : string)
  : option (option ascii * string) :=
  match lit with
  | EmptyString => Some (prev, s)
  | String c lit' =>
      match s with
      | String d s' => if Ascii.eqb c d then literal lit' (Some d) s' else None
      | EmptyString => None
      end
  end.

(** Greedy repetition: as many code units as possible, giving one back at
    a time while the rest of the pattern fails. *)
Fixpoint greedy (p : ascii -> bool) (prev : option ascii) (s : string)
    (k : option ascii -> string -> option outcome) : option outcome :=
  match s with
  | String c s' =>
      if p c then
        match greedy p (Some c) s' k with
        | Some r => Some r
        | None => k prev s
        end
      else k prev s
  | EmptyString => k prev s
  end.

(** Lazy repetition: as few code units as possible. *)
Fixpoint lazy (p : ascii -> bool) (prev : option ascii) (s : string)
    (k : option ascii -> string -> option outcome) : option outcome :=
  match k prev s with
  | Some r => Some r
  | None =>
      match s with
      | String c s' => if p c then lazy p (Some c) s' k else None
      | EmptyString => None
      end
  end.

Fixpoint run (r : regex) (prev : option ascii) (s : string)
    (cap : option string) (k : cont) : option outcome :=
  match r with
  | Lit lit =>
      match literal lit prev s with
      | Some (prev', s') => k prev' s' cap
      | None => None
      end
  | Class p =>
      match s with
      | String c s' => if p c then k (Some c) s' cap else None
      | EmptyString => None
      end
  | Star p => greedy p prev s (fun prev' s' => k prev' s' cap)
  | LazyStar p => lazy p prev s (fun prev' s' => k prev' s' cap)
  | Opt p =>
      match s with
      | String c s' =>
          if p c then
            match k (Some c) s' cap with
            | Some r => Some r
            | None => k prev s cap
            end
          else k prev s cap
      | EmptyString => k prev s cap
      end
  | WordBoundary =>
      if xorb (isWord prev) (isWord (head s)) then k prev s cap else None
  | Alt r1 r2 =>
      match run r1 prev s cap k with
      | Some r => Some r
      | None => run r2 prev s cap k
      end
  | Seq r1 r2 =>
      run r1 prev s cap (fun prev' s' cap' => run r2 prev' s' cap' k)
  | Group r1 =>
      run r1 prev s cap
        (fun prev' s' _ =>
           k prev' s'
             (Some (Js.take (String.length s - String.length s') s)))
  end.

(** One attempt at the current position. *)
Definition matchHere (r : regex) (prev : option ascii) (s : string)
  : option outcome :=
  run r prev s None (fun _ s' cap => Some (s', cap)).

(** The result of [regexp.exec(s)] and [s.match(regexp)] without the [g]
    flag: the text before the leftmost match, the matched text, the
    capture, and the text after the match. *)
Record found : Type := {
  before : string;
  matched : string;
  capture : option string;
  after : string
}.

Fixpoint execFrom (r : regex) (prev : option ascii) (s : string)
  : option found :=
  match matchHere r prev s with
  | Some (rest, cap) =>
      Some {| before := "";
              matched := Js.take (String.length s - String.length rest) s;
              capture := cap;
              after := rest |}
  | None =>
      match s with
      | String c s' =>
          match execFrom r (Some c) s' with
          | Some m => Some {| before := String c (before m);
                              matched := matched m;
                              capture := capture m;
                              after := after m |}
          | None => None
          end
      | EmptyString => None
      end
  end.

Definition exec (r : regex) (s : string) : option found :=
  execFrom r None s.

(** The expansion of a replacement string for one match, for patterns
    with one capture group: [$$] is a dollar sign, [$&] the matched text,
    [$`] and [$'] the input before and after the match, [$1] and [$01]
    the capture; any other dollar sign stands for itself. *)
Fixpoint expand (template : string) (m : found) : string :=
  match template with
  | String "$" (String "$" t) => String "$" (expand t m)
  | String "$" (String "&" t) => matched m ++ expand t m
  | String "$" (String "`" t) => before m ++ expand t m
  | String "$" (String "'" t) => after m ++ expand t m
  | String "$" (String "1" t) =>
      match capture m with Some c => c | None => "" end ++ expand t m
  | String "$" (String "0" (String "1" t)) =>
      match capture m with Some c => c | None => "" end ++ expand t m
  | String c t => String c (expand t m)
  | EmptyString => EmptyString
  end.

(** [s.replace(regexp, replacement)] without the [g] flag. *)
Definition replaceFirst (r : regex) (replacement : found -> string)
    (s : string) : string :=
  match exec r s with
  | Some m => before m ++ replacement m ++ after m
  | None => s
  end.

(** [s.replace(regexp, replacement)] with the [g] flag.  After a match
    the search resumes behind it (one code unit further when the match
    was empty); [consumed] is the input before the current position and
    [fuel] bounds the number of steps. *)
Fixpoint replaceAllFrom (fuel : nat) (r : regex)
    (replacement : found -> string)
    (consumed : string) (prev : option ascii) (s : string) : string :=
  match fuel with
  | O => s
  | S fuel' =>
      match matchHere r prev s with
      | Some (rest, cap) =>
          let text := Js.take (String.length s - String.length rest) s in
          let m := {| before := consumed; matched := text;
                      capture := cap; after := rest |} in
          match text with
          | EmptyString =>
              replacement m ++
              match s with
              | String c s' =>
                  String c (replaceAllFrom fuel' r replacement
                              (consumed ++ String c "") (Some c) s')
              | EmptyString => EmptyString
              end
          | _ =>
              replacement m ++
              replaceAllFrom fuel' r replacement
                (consumed ++ text) (Js.lastChar text) rest
          end
      | None =>
          match s with
          | String c s' =>
              String c (replaceAllFrom fuel' r replacement
                          (consumed ++ String c "") (Some c) s')
          | EmptyString => EmptyString
          end
      end
  end.

Definition replaceAll (r : regex) (replacement : found -> string)
    (s : string) : string :=
  replaceAllFrom (S (String.length s)) r replacement "" None s.

End RegExp.

(** The regular expressions of the player. *)

(** [/\b\S*?(Portrait|Landscape)\b/] *)
Definition sizeClassPattern : RegExp.regex :=
  RegExp.Seq RegExp.WordBoundary
    (RegExp.Seq (RegExp.LazyStar RegExp.nonSpace)
       (RegExp.Seq
          (RegExp.Group (RegExp.Alt (RegExp.Lit "Portrait")
                                    (RegExp.Lit "Landscape")))
          RegExp.WordBoundary)).

(** The pattern of [fixRelativeUrls]: the text [background-image:url(], a
    quote, a captured greedy run of any characters, a quote and [)]. *)
Definition backgroundImagePattern : RegExp.regex :=
  RegExp.Seq (RegExp.Lit "background-image:url(")
    (RegExp.Seq (RegExp.Class RegExp.quote)
       (RegExp.Seq (RegExp.Group (RegExp.Star RegExp.dot))
          (RegExp.Seq (RegExp.Class RegExp.quote) (RegExp.Lit ")")))).

(** The pattern of [makeFontStylesheet]: the text [src:url(], an optional
    quote, the capture (a greedy run of any characters, a dot and a greedy
    run of characters that are neither [)] nor a quote), an optional quote
    and [)]. *)
Definition fontSrcPattern : RegExp.regex :=
  RegExp.Seq (RegExp.Lit "src:url(")
    (RegExp.Seq (RegExp.Opt RegExp.quote)
       (RegExp.Seq
          (RegExp.Group
             (RegExp.Seq (RegExp.Star RegExp.dot)
                (RegExp.Seq (RegExp.Lit ".")
                            (RegExp.Star RegExp.notParenQuote))))
          (RegExp.Seq (RegExp.Opt RegExp.quote) (RegExp.Lit ")")))).

(** ** The document

    An element has a lower-case tag name, its attributes in order, and its
    child nodes; every other node (text, comment) is a [Text]. *)

#[local] Set Warnings "-register-all".

Inductive Node : Type :=
| Element (tagName : string) (attributes : list (string * string))
          (childNodes : list Node)
| Text (data : string).

Module Dom.

Definition attrs : Type := list (string * string).

(** [element.getAttribute(name)] *)
Fixpoint getAttribute (name : string) (a : attrs) : option string :=
  match a with
  | [] => None
  | (n, v) :: a' => if String.eqb n name then Some v else getAttribute name a'
  end.

(** [element.hasAttribute(name)] *)
Definition hasAttribute (name : string) (a : attrs) : bool :=
  match getAttribute name a with Some _ => true | None => false end.

(** [element.setAttribute(name, value)]: the value of an attribute that
    exists is changed in place, a new attribute is appended. *)
Fixpoint setAttribute (name value : string) (a : attrs) : attrs :=
  match a with
  | [] => [(name, value)]
  | (n, v) :: a' =>
      if String.eqb n name then (n, value) :: a'
      else (n, v) :: setAttribute name value a'
  end.

(** [element.removeAttribute(name)]: no attribute of that name is left. *)
Definition removeAttribute (name : string) (a : attrs) : attrs :=
  filter (fun nv => negb (String.eqb (fst nv) name)) a.

(** The attributes whose names are not among [names]. *)
Definition otherAttributes (names : list string) (a : attrs) : attrs :=
  filter (fun nv => negb (existsb (String.eqb (fst nv)) names)) a.

(** [element.getAttribute("class") || ""] *)
Definition className (a : attrs) : string :=
  match getAttribute "class" a with Some v => v | None => "" end.

(** ASCII white space separates the tokens of a class attribute. *)
Definition isAsciiWhiteSpace (c : ascii) : bool :=
  let n := nat_of_ascii c in
  ((n =? 9) || (n =? 10) || (n =? 12) || (n =? 13) || (n =? 32))%nat.

(** The maximal runs of code units that are not white space. *)
Fixpoint splitOnWhiteSpace (s : string) : list string :=
  match s with
  | EmptyString => []
  | String c s' =>
      if isAsciiWhiteSpace c then splitOnWhiteSpace s'
      else
        match s' with
        | EmptyString => [String c EmptyString]
        | String c' _ =>
            if isAsciiWhiteSpace c' then
              String c EmptyString :: splitOnWhiteSpace s'
            else
              match splitOnWhiteSpace s' with
              | t :: ts => String c t :: ts
              | [] => [String c EmptyString]
              end
        end
  end.

Definition mem (t : string) (ts : list string) : bool :=
  existsb (String.eqb t) ts.

(** Only the first occurrence of a token counts. *)
Fixpoint orderedSet (seen ts : list string) : list string :=
  match ts with
  | [] => []
  | t :: ts' =>
      if mem t seen then orderedSet seen ts'
      else t :: orderedSet (t :: seen) ts'
  end.

(** The token set of [element.classList]. *)
Definition tokens (a : attrs) : list string :=
  orderedSet [] (splitOnWhiteSpace (className a)).

(** The tokens joined by single spaces. *)
Fixpoint serialize (ts : list string) : string :=
  match ts with
  | [] => ""
  | [t] => t
  | t :: ts' => t ++ " " ++ serialize ts'
  end.

(** The update steps of a token list: the attribute is written back,
    unless it is absent and there is no token. *)
Definition update (ts : list string) (a : attrs) : attrs :=
  match getAttribute "class" a, ts with
  | None, [] => a
  | _, _ => setAttribute "class" (serialize ts) a
  end.

(** [element.classList.contains(token)] *)
Definition contains (token : string) (a : attrs) : bool :=
  mem token (tokens a).

(** [element.classList.add(token)] and [element.classList.remove(token)]
    for a token that is not empty and holds no white space. *)
Definition addToken (token : string) (ts : list string) : list string :=
  if mem token ts then ts else ts ++ [token].

Definition removeToken (token : string) (ts : list string) : list string :=
  filter (fun t => negb (String.eqb t token)) ts.

Definition add (token : string) (a : attrs) : attrs :=
  update (addToken token (tokens a)) a.

Definition remove (token : string) (a : attrs) : attrs :=
  update (removeToken token (tokens a)) a.

(** A token that [add] and [remove] accept. *)
Fixpoint noWhiteSpace (s : string) : bool :=
  match s with
  | EmptyString => true
  | String c s' => negb (isAsciiWhiteSpace c) && noWhiteSpace s'
  end.

Definition validToken (token : string) : bool :=
  negb (String.eqb token "") && noWhiteSpace token.

Definition validTokens (ts : list string) : Prop :=
  Forall (fun t => validToken t = true) ts.

(** [add] and [remove] as the page calls them with a computed token:
    an empty token is a [SyntaxError], one with white space an
    [InvalidCharacterError]. *)
Definition checked (op : string -> attrs -> attrs) (token : string)
    (a : attrs) : result attrs :=
  if String.eqb token "" then Throw "SyntaxError"
  else if noWhiteSpace token then Ok (op token a)
  else Throw "InvalidCharacterError".

(** The elements strictly below a node, each rewritten by [f]: what a
    loop over the snapshot of the XPath query [.//*] does when the
    change to an element depends on that element only. *)
Fixpoint mapElements (f : string -> attrs -> attrs) (n : Node) : Node :=
  match n with
  | Element tag a children =>
      Element tag (f tag a) (map (mapElements f) children)
  | Text d => Text d
  end.

Definition mapDescendants (f : string -> attrs -> attrs) (n : Node)
  : Node :=
  match n with
  | Element tag a children => Element tag a (map (mapElements f) children)
  | Text d => Text d
  end.

Definition attributesOf (n : Node) : attrs :=
  match n with
  | Element _ a _ => a
  | Text _ => []
  end.

(** A node without the attributes [names], at every depth. *)
Definition without (names : list string) (n : Node) : Node :=
  mapElements (fun _ a => otherAttributes names a) n.

(** The elements strictly below a node, in document order. *)
Fixpoint elements (n : Node) : list Node :=
  match n with
  | Element tag a children => n :: flat_map elements children
  | Text _ => []
  end.

Definition descendants (n : Node) : list Node :=
  match n with
  | Element _ _ children => flat_map elements children
  | Text _ => []
  end.

End Dom.

(** ** Language visibility *)

(** [attr.split(/,| /)]: the pieces between commas and spaces. *)
Fixpoint splitCommaSpace (s : string) : list string :=
  match s with
  | EmptyString => [""]
  | String c s' =>
      if Ascii.eqb c "," || Ascii.eqb c " " then "" :: splitCommaSpace s'
      else
        match splitCommaSpace s' with
        | t :: ts => String c t :: ts
        | [] => [String c ""]
        end
  end.

(** Letters compared without regard to case. *)
Definition lowerCase (c : ascii) : ascii :=
  let n := nat_of_ascii c in
  if ((65 <=? n) && (n <=? 90))%nat then ascii_of_nat (n + 32) else c.

Fixpoint lowerCaseString (s : string) : string :=
  match s with
  | EmptyString => EmptyString
  | String c s' => String (lowerCase c) (lowerCaseString s')
  end.

(** [areStringsEqualInvariantCultureIgnoreCase]: a comparison of en-US
    collation with sensitivity "accent", which tells letters apart but not
    their case; modelled for the letters of ASCII. *)
Definition areStringsEqualInvariantCultureIgnoreCase (a b : string) : bool :=
  String.eqb (lowerCaseString a) (lowerCaseString b).

(** [isDivInL2] and [isDivInL3] *)
Definition isDivInL2 (divElement : Dom.attrs) : bool :=
  Dom.contains "bloom-contentNational1" divElement.

Definition isDivInL3 (divElement : Dom.attrs) : bool :=
  Dom.contains "bloom-contentNational2" divElement.

(** [shouldNormallyShowEditable]; [dataDefaultLanguages] may be null or
    undefined ([None]). *)
Definition shouldNormallyShowEditable (lang : string)
    (dataDefaultLanguages : option (list string)) (settingsLang1 : string)
    (divElement : Dom.attrs) : bool :=
  let matchesContent2 := Dom.contains "bloom-content2" divElement in
  let matchesContent3 := Dom.contains "bloom-content3" divElement in
  let auto :=
    match dataDefaultLanguages with
    | None => true
    | Some [] => true
    | Some (first :: _) =>
        String.eqb first ""
        || areStringsEqualInvariantCultureIgnoreCase first "auto"
    end in
  if auto then
    String.eqb lang settingsLang1 || matchesContent2 || matchesContent3
  else
    let langs := match dataDefaultLanguages with Some l => l | None => [] end in
    (String.eqb lang settingsLang1 && Js.includes langs "V")
    || (String.eqb lang settingsLang1 && Js.includes langs "L1")
    || (isDivInL2 divElement && Js.includes langs "N1")
    || (isDivInL2 divElement && Js.includes langs "L2")
    || (isDivInL3 divElement && Js.includes langs "N2")
    || (isDivInL3 divElement && Js.includes langs "L3")
    || Js.includes langs lang.

(** The body of the inner loop of [updateDivVisibilityByLangCode], for
    one child node of a translation group. *)
Definition updateEditableAttrs (dataDefaultLangs : list string)
    (langVernacular : string) (divElement : Dom.attrs) : Dom.attrs :=
  let divLang := Dom.getAttribute "lang" divElement in
  let shouldShow :=
    shouldNormallyShowEditable
      (match divLang with Some l => l | None => "" end)
      (Some dataDefaultLangs) langVernacular divElement in
  let divElement :=
    if shouldShow then
      Dom.remove "bloom-visibility-code-off"
        (Dom.add "bloom-visibility-code-on" divElement)
    else Dom.remove "bloom-visibility-code-on" divElement in
  match divLang with
  | Some l =>
      if String.eqb l langVernacular then Dom.add "bloom-content1" divElement
      else Dom.remove "bloom-content1" divElement
  | None => Dom.remove "bloom-content1" divElement
  end.

Definition updateEditable (dataDefaultLangs : list string)
    (langVernacular : string) (child : Node) : Node :=
  match child with
  | Element tag a children =>
      if Dom.contains "bloom-editable" a then
        Element tag (updateEditableAttrs dataDefaultLangs langVernacular a)
          children
      else child
  | Text _ => child
  end.

(** The divs that the XPath query [.//div[contains(@class,
    'bloom-translationGroup')]] selects. *)
Definition isTranslationGroup (tag : string) (a : Dom.attrs) : bool :=
  String.eqb tag "div"
  && match Dom.getAttribute "class" a with
     | Some c => Js.contains c "bloom-translationGroup"
     | None => false
     end.

(** The array that the outer loop computes from [data-default-languages]. *)
Definition dataDefaultLangsOf (groupElement : Dom.attrs) : list string :=
  match Dom.getAttribute "data-default-languages" groupElement with
  | Some attr => if String.eqb attr "" then [] else splitCommaSpace attr
  | None => []
  end.

(** The two loops, for a node below the root: the children of every
    translation group are updated, at every depth. *)
Fixpoint updateGroups (langVernacular : string) (n : Node) : Node :=
  match n with
  | Element tag a children =>
      let children := map (updateGroups langVernacular) children in
      Element tag a
        (if isTranslationGroup tag a then
           map (updateEditable (dataDefaultLangsOf a) langVernacular) children
         else children)
  | Text d => Text d
  end.

(** [updateDivVisibilityByLangCode]: the document element after the call.
    The query selects the groups below the document element only. *)
Definition updateDivVisibilityByLangCode (activeLanguageCode : string)
    (htmlElement : option Node) : option Node :=
  match htmlElement with
  | None => None
  | Some root =>
      if String.eqb activeLanguageCode "" then Some root
      else
        match root with
        | Element tag a children =>
            Some (Element tag a (map (updateGroups activeLanguageCode) children))
        | Text d => Some (Text d)
        end
  end.

(** The editable children of the translation groups at and below a
    node, each with the default languages of its group. *)
Definition editableChildren (dataDefaultLangs : list string)
    (children : list Node) : list (list string * Dom.attrs) :=
  flat_map (fun child =>
              match child with
              | Element _ a _ =>
                  if Dom.contains "bloom-editable" a
                  then [(dataDefaultLangs, a)] else []
              | Text _ => []
              end) children.

Fixpoint editablesOf (n : Node) : list (list string * Dom.attrs) :=
  match n with
  | Element tag a children =>
      ((if isTranslationGroup tag a
        then editableChildren (dataDefaultLangsOf a) children else [])
       ++ flat_map editablesOf children)%list
  | Text _ => []
  end.

(** The editables that [updateDivVisibilityByLangCode] visits: those of
    the groups below the document element. *)
Definition editables (htmlElement : Node) : list (list string * Dom.attrs) :=
  match htmlElement with
  | Element _ _ children => flat_map editablesOf children
  | Text _ => []
  end.

(** The visibility decision as the specification words it: the automatic
    rule applies when no default language is given or the value is
    ["auto"]. *)
Definition spec_shouldShow (lang : string) (D : list string) (c : string)
    (divElement : Dom.attrs) : bool :=
  if match D with [] => true | [v] => String.eqb v "auto" | _ => false end then
    String.eqb lang c
    || Dom.contains "bloom-content2" divElement
    || Dom.contains "bloom-content3" divElement
  else
    (String.eqb lang c && (Js.includes D "V" || Js.includes D "L1"))
    || (Dom.contains "bloom-contentNational1" divElement
        && (Js.includes D "N1" || Js.includes D "L2"))
    || (Dom.contains "bloom-contentNational2" divElement
        && (Js.includes D "N2" || Js.includes D "L3"))
    || Js.includes D lang.

(** The token set that [updateEditableAttrs] leaves, given whether the
    editable is shown and whether its language is the active one. *)
Definition visibilityTokens (shouldShow primary : bool) (ts : list string)
  : list string :=
  let ts :=
    if shouldShow then
      Dom.removeToken "bloom-visibility-code-off"
        (Dom.addToken "bloom-visibility-code-on" ts)
    else Dom.removeToken "bloom-visibility-code-on" ts in
  if primary then Dom.addToken "bloom-content1" ts
  else Dom.removeToken "bloom-content1" ts.

(** Whether [updateEditableAttrs] shows an editable, and whether it marks
    it as primary content. *)
Definition shownFor (D : list string) (c : string) (a : Dom.attrs) : bool :=
  shouldNormallyShowEditable
    (match Dom.getAttribute "lang" a with Some l => l | None => "" end)
    (Some D) c a.

Definition primaryFor (c : string) (a : Dom.attrs) : bool :=
  match Dom.getAttribute "lang" a with
  | Some l => String.eqb l c
  | None => false
  end.


(** ** Page size classes *)

(** [getPageSizeClass] *)
Definition getPageSizeClass (page : Dom.attrs) : string :=
  let classAttr := Dom.className page in
  match RegExp.exec sizeClassPattern classAttr with
  | Some matches => RegExp.matched matches
  | None => ""
  end.

(** The class that [setPageSizeClass] wants the page to have. *)
Definition desiredClass (landscape useOriginalPageSize : bool)
    (originalPageClass : string) : string :=
  if useOriginalPageSize then
    if landscape then Js.replace originalPageClass "Portrait" "Landscape"
    else Js.replace originalPageClass "Landscape" "Portrait"
  else
    if landscape then "Device16x9Landscape" else "Device16x9Portrait".

(** [setPageSizeClass] (the static method): the page afterwards and the
    value returned, or the exception of [classList]. *)
Definition setPageSizeClass (page : Dom.attrs)
    (bookCanRotate showLandscape useOriginalPageSize : bool)
    (originalPageClass : string) : result (Dom.attrs * bool) :=
  let sizeClass := getPageSizeClass page in
  if String.eqb sizeClass "" then Ok (page, false)
  else
    let landscape :=
      if bookCanRotate then showLandscape
      else Js.endsWith sizeClass "Landscape" in
    let desired := desiredClass landscape useOriginalPageSize originalPageClass in
    if String.eqb sizeClass desired then Ok (page, landscape)
    else
      match Dom.checked Dom.remove sizeClass page with
      | Throw e => Throw e
      | Ok page =>
          match Dom.checked Dom.add desired page with
          | Throw e => Throw e
          | Ok page => Ok (page, landscape)
          end
      end.

(** The class that the specification describes for the original page
    size: the original class with its orientation suffix set to the
    orientation wanted. *)
Definition spec_swapSuffix (landscape : bool) (originalPageClass : string)
  : string :=
  let wanted := if landscape then "Landscape" else "Portrait" in
  if Js.endsWith originalPageClass "Portrait" then
    Js.substring originalPageClass 0 (Js.len originalPageClass - 8) ++ wanted
  else if Js.endsWith originalPageClass "Landscape" then
    Js.substring originalPageClass 0 (Js.len originalPageClass - 9) ++ wanted
  else originalPageClass.

(** A word no proper end part of which is also a start part of it. *)
Definition noBorder (w : string) : bool :=
  forallb (fun k => negb (String.prefix (Js.drop k w) w))
    (seq 1 (String.length w - 1)).

(** ** Resource URLs *)

(** [fullUrl]; a null argument is concatenated as the text "null". *)
Definition fullUrl (urlPrefix : string) (url : option string) : string :=
  urlPrefix ++ "/" ++ match url with Some u => u | None => "null" end.

(** The body of the first loop of [fixRelativeUrls], for an element that
    the query [.//*[@src]] selects. *)
Definition fixSrc (urlPrefix : string) (tag : string) (item : Dom.attrs)
  : Dom.attrs :=
  match Dom.getAttribute "src" item with
  | Some srcName =>
      Dom.setAttribute "src" (fullUrl urlPrefix (Some srcName)) item
  | None => item
  end.

(** The body of the second loop, for an element that the query
    [.//*[@style]] selects. *)
Definition fixBackground (urlPrefix : string) (tag : string)
    (item : Dom.attrs) : Dom.attrs :=
  match Dom.getAttribute "style" item with
  | Some style =>
      match RegExp.exec backgroundImagePattern style with
      | Some m =>
          let newUrl := fullUrl urlPrefix (RegExp.capture m) in
          let newStyle :=
            RegExp.replaceFirst backgroundImagePattern (fun _ => "") style in
          Dom.add "swiper-lazy"
            (Dom.setAttribute "data-background" newUrl
               (Dom.setAttribute "style" newStyle item))
      | None => item
      end
  | None => item
  end.

(** [fixRelativeUrls]: both loops run over the elements below the page. *)
Definition fixRelativeUrls (urlPrefix : string) (page : Node) : Node :=
  Dom.mapDescendants (fixBackground urlPrefix)
    (Dom.mapDescendants (fixSrc urlPrefix) page).

(** [makeNonEditable] *)
Definition makeNonEditable (body : Node) : Node :=
  Dom.mapDescendants (fun _ a => Dom.removeAttribute "contenteditable" a) body.

(** ** Stylesheets *)

(** A response: its data and the URL of the request. *)
Record Response : Type := {
  data : string;
  responseUrl : string
}.

(** [httpget]: the network answers a (hash-encoded) URL with data or not at
    all; [fetch] is that answer. *)
Definition httpget (fetch : string -> option string) (url : string)
  : option Response :=
  let fixedUrl := encodeHash url in
  match fetch fixedUrl with
  | Some d => Some {| data := d; responseUrl := fixedUrl |}
  | None => None
  end.

(** The text inside a node. *)
Fixpoint textContent (n : Node) : string :=
  match n with
  | Text d => d
  | Element _ _ children =>
      fold_right (fun c acc => textContent c ++ acc) "" children
  end.

(** The elements that the queries of [assembleStyleSheets] select. *)
Definition isStyleLink (n : Node) : bool :=
  match n with
  | Element tag a _ =>
      String.eqb tag "link" && Dom.hasAttribute "href" a
      && match Dom.getAttribute "type" a with
         | Some t => String.eqb t "text/css"
         | None => false
         end
  | Text _ => false
  end.

Definition isEmbeddedStyle (n : Node) : bool :=
  match n with
  | Element tag a _ =>
      String.eqb tag "style"
      && match Dom.getAttribute "type" a with
         | Some t => String.eqb t "text/css"
         | None => false
         end
  | Text _ => false
  end.

(** [makeFontStylesheet]: the text of the style element [fontCssStyleSheet]
    of the main document afterwards ([None] while there is no such
    element). *)
Definition makeFontStylesheet (fetch : string -> option string)
    (href : string) (fontCssStyleSheet : option string) : option string :=
  match httpget fetch href with
  | Some result =>
      let prefix :=
        Js.substring href 0 (Js.len href - Js.len "/fonts.css") in
      Some (RegExp.replaceAll fontSrcPattern
              (RegExp.expand ("src:url('" ++ prefix ++ "/$1')"))
              (data result))
  | None => fontCssStyleSheet
  end.

(** Font stylesheets in the words of the specification: text with font
    references [src:url(name)], the name between quotes or not, and the
    same text with every reference made absolute against a folder.  A
    reference comes with the text before it and with the end of its
    line. *)
Module FontSheet.

Record Reference : Type := {
  textBefore : string;
  openQuote : option ascii;
  base : string;
  extension : string;
  closeQuote : option ascii;
  lineEnd : string
}.

Definition quoteText (q : option ascii) : string :=
  match q with Some c => String c "" | None => "" end.

(** The name of the font file: a base, a dot and an extension. *)
Definition fileName (r : Reference) : string :=
  base r ++ "." ++ extension r.

Definition referenceText (r : Reference) : string :=
  textBefore r ++ "src:url(" ++ quoteText (openQuote r) ++ fileName r
  ++ quoteText (closeQuote r) ++ ")" ++ lineEnd r.

Definition absoluteText (folder : string) (r : Reference) : string :=
  textBefore r ++ "src:url('" ++ folder ++ "/" ++ fileName r ++ "')"
  ++ lineEnd r.

(** A stylesheet: its references, each with its surroundings, and the
    text after the last line with a reference. *)
Fixpoint text (references : list Reference) (rest : string) : string :=
  match references with
  | [] => rest
  | r :: references' => referenceText r ++ text references' rest
  end.

Fixpoint absolute (folder : string) (references : list Reference)
    (rest : string) : string :=
  match references with
  | [] => rest
  | r :: references' =>
      absoluteText folder r ++ absolute folder references' rest
  end.

Definition isQuote (q : option ascii) : bool :=
  match q with Some c => RegExp.quote c | None => true end.

(** The references that the words cover: no [src:url(] in the text around
    the reference, a base without quotes and line ends, an extension
    without dot, parenthesis, quote and line end, and no dot on the rest
    of the line. *)
Definition wellFormed (r : Reference) : bool :=
  negb (Js.hasSub "src:url(" (textBefore r))
  && isQuote (openQuote r) && isQuote (closeQuote r)
  && allChars (fun c => RegExp.dot c && negb (RegExp.quote c)) (base r)
  && allChars (fun c => RegExp.dot c && RegExp.notParenQuote c
                        && negb (Ascii.eqb c "."))
       (extension r)
  && allChars (fun c => RegExp.dot c && negb (Ascii.eqb c ".")) (lineEnd r)
  && negb (Js.hasSub "src:url(" (lineEnd r)).

(** The text is at an end, or at the end of a line. *)
Definition atLineEnd (s : string) : bool :=
  match s with
  | EmptyString => true
  | String c _ => negb (RegExp.dot c)
  end.

Fixpoint wellFormedSheet (references : list Reference) (rest : string)
  : bool :=
  match references with
  | [] => negb (Js.hasSub "src:url(" rest)
  | r :: references' =>
      wellFormed r && atLineEnd (text references' rest)
      && wellFormedSheet references' rest
  end.

End FontSheet.

(** The first loop of [assembleStyleSheets]: the promises, in order, and
    the font stylesheet. *)
Fixpoint requestLinks (urlPrefix : string) (fetch : string -> option string)
    (links : list Node) (promises : list (option Response))
    (fontCssStyleSheet : option string)
  : list (option Response) * option string :=
  match links with
  | [] => (promises, fontCssStyleSheet)
  | link :: links' =>
      let href := Dom.getAttribute "href" (Dom.attributesOf link) in
      let fullHref := fullUrl urlPrefix href in
      if Js.endsWith fullHref "/fonts.css" then
        requestLinks urlPrefix fetch links' promises
          (makeFontStylesheet fetch fullHref fontCssStyleSheet)
      else
        requestLinks urlPrefix fetch links'
          (promises ++ [httpget fetch fullHref])%list fontCssStyleSheet
  end.

(** What [results.forEach] adds for one result. *)
Definition addResult (acc : string * list string) (result : option Response)
  : string * list string :=
  match result with
  | Some r =>
      if String.eqb (data r) "" then acc
      else
        (fst acc ++ data r,
         if Js.endsWith (responseUrl r) "/settingsCollectionStyles.css"
         then (snd acc ++ [data r])%list else snd acc)
  | None => acc
  end.

(** What [assembleStyleSheets] leaves behind. *)
Record Assembled : Type := {
  assembledState : IState;
  fontStyleSheet : option string;
  language2And3From : list string;
  pageStylesAreNowInstalled : bool
}.

(** [assembleStyleSheets].  [quizCss] is what
    [legacyQuestionHandler.getPromiseForAnyQuizCss()] returns: no promise,
    or a promise with its outcome. *)
Definition assembleStyleSheets (urlPrefix : string)
    (fetch : string -> option string)
    (quizCss : option (option Response))
    (fontCssStyleSheet : option string)
    (doc : Node) (state : IState) : Assembled :=
  let linkElts := filter isStyleLink (Dom.descendants doc) in
  let (promises, font) :=
    requestLinks urlPrefix fetch linkElts [] fontCssStyleSheet in
  let promises :=
    match quizCss with
    | Some p => (promises ++ [p])%list
    | None => promises
    end in
  let styleElts := filter isEmbeddedStyle (Dom.descendants doc) in
  let combinedStyle :=
    fold_left (fun acc styleElt => acc ++ textContent styleElt) styleElts "" in
  let (combinedStyle, language) :=
    fold_left addResult promises (combinedStyle, []) in
  {| assembledState :=
       {| pages := pages state;
          styleRules := combinedStyle;
          importedBodyClasses := importedBodyClasses state;
          currentSwiperIndex := currentSwiperIndex state;
          isLoading := false;
          loadFailed := loadFailed state;
          loadErrorHtml := loadErrorHtml state;
          ignorePhonyClick := ignorePhonyClick state;
          isFinishUpForNewBookComplete := isFinishUpForNewBookComplete state |};
     fontStyleSheet := font;
     language2And3From := language;
     pageStylesAreNowInstalled := true |}.

(** The parts of the combined stylesheet, as the specification lists
    them. *)
Definition joinAll (l : list string) : string :=
  fold_right (fun s acc => s ++ acc) "" l.

Definition styleLinkUrls (urlPrefix : string) (doc : Node) : list string :=
  map (fun link =>
         fullUrl urlPrefix (Dom.getAttribute "href" (Dom.attributesOf link)))
      (filter isStyleLink (Dom.descendants doc)).

Definition isFontsCss (fullHref : string) : bool :=
  Js.endsWith fullHref "/fonts.css".

Definition embeddedStyles (doc : Node) : string :=
  joinAll (map textContent (filter isEmbeddedStyle (Dom.descendants doc))).

Definition fetchedOrEmpty (fetch : string -> option string) (url : string)
  : string :=
  match fetch (encodeHash url) with Some d => d | None => "" end.

Definition linkedStyles (urlPrefix : string)
    (fetch : string -> option string) (doc : Node) : string :=
  joinAll (map (fetchedOrEmpty fetch)
             (filter (fun h => negb (isFontsCss h))
                (styleLinkUrls urlPrefix doc))).

Definition quizStyles (quizCss : option (option Response)) : string :=
  match quizCss with
  | Some (Some r) => data r
  | _ => ""
  end.

(** The data of a settled request; nothing for one that failed. *)
Definition dataOf (r : option Response) : string :=
  match r with Some r => data r | None => "" end.


(** ** Analytics *)

(** JavaScript numbers: IEEE 754 double precision. *)
Module Number.

Definition number : Type := spec_float.

Definition add (x y : number) : number := SFadd 53 1024 x y.

(** [x < y] *)
Definition lt (x y : number) : bool := SFltb x y.

(** [x >= y] *)
Definition ge (x y : number) : bool := SFleb y x.

(** [Number.isNaN] *)
Definition isNaN (x : number) : bool :=
  match x with S754_nan => true | _ => false end.

(** The double closest to 0.001, 0x1.0624dd2f1a9fcp-10. *)
Definition thousandth : number := S754_finite false 4611686018427388 (-62).

Definition zero : number := S754_zero false.

End Number.

(** The fields of [BookInteraction] that the two functions touch. *)
Record BookInteraction : Type := {
  totalAudioDuration : Number.number;
  totalVideoDuration : Number.number;
  reportedAudioOnCurrentPage : bool;
  reportedVideoOnCurrentPage : bool
}.

(** The calls that leave the player. *)
Inductive Report : Type :=
| AudioPageShown (index : Z)
| VideoPageShown (index : Z)
| BookProgressReport.

(** The current-page player, with the page it shows. *)
Record PagePlayer : Type := {
  bookInteraction : BookInteraction;
  currentPage : option Dom.attrs;
  currentPageIndex : Z;
  reports : list Report
}.

(** [isXmatterPage] *)
Definition isXmatterPage (player : PagePlayer) : bool :=
  match currentPage player with
  | None => true
  | Some page =>
      match Dom.getAttribute "class" page with
      | None => true
      | Some classAttr =>
          if String.eqb classAttr ""
             || (Js.indexOf classAttr "bloom-page" <? 0) then true
          else if (Js.indexOf classAttr "bloom-backMatter" >=? 0)
                  || (Js.indexOf classAttr "bloom-frontMatter" >=? 0) then true
          else Dom.hasAttribute "data-xmatter-page" page
      end
  end.

Definition report (r : Report) (player : PagePlayer) : PagePlayer :=
  {| bookInteraction := bookInteraction player;
     currentPage := currentPage player;
     currentPageIndex := currentPageIndex player;
     reports := (reports player ++ [r])%list |}.

Definition withInteraction (b : BookInteraction) (player : PagePlayer)
  : PagePlayer :=
  {| bookInteraction := b;
     currentPage := currentPage player;
     currentPageIndex := currentPageIndex player;
     reports := reports player |}.

(** [storeAudioAnalytics] *)
Definition storeAudioAnalytics (duration : Number.number)
    (player : PagePlayer) : PagePlayer :=
  if Number.lt duration Number.thousandth || Number.isNaN duration then player
  else
    let b := bookInteraction player in
    let player :=
      withInteraction
        {| totalAudioDuration := Number.add (totalAudioDuration b) duration;
           totalVideoDuration := totalVideoDuration b;
           reportedAudioOnCurrentPage := reportedAudioOnCurrentPage b;
           reportedVideoOnCurrentPage := reportedVideoOnCurrentPage b |}
        player in
    if isXmatterPage player then player
    else
      let b := bookInteraction player in
      let player :=
        if negb (reportedAudioOnCurrentPage b) then
          report (AudioPageShown (currentPageIndex player))
            (withInteraction
               {| totalAudioDuration := totalAudioDuration b;
                  totalVideoDuration := totalVideoDuration b;
                  reportedAudioOnCurrentPage := true;
                  reportedVideoOnCurrentPage := reportedVideoOnCurrentPage b |}
               player)
        else player in
      report BookProgressReport player.

(** [storeVideoAnalytics] *)
Definition storeVideoAnalytics (duration : Number.number)
    (player : PagePlayer) : PagePlayer :=
  if Number.lt duration Number.thousandth then player
  else
    let b := bookInteraction player in
    let player :=
      withInteraction
        {| totalAudioDuration := totalAudioDuration b;
           totalVideoDuration := Number.add (totalVideoDuration b) duration;
           reportedAudioOnCurrentPage := reportedAudioOnCurrentPage b;
           reportedVideoOnCurrentPage := reportedVideoOnCurrentPage b |}
        player in
    let b := bookInteraction player in
    let player :=
      if negb (reportedVideoOnCurrentPage b) && negb (isXmatterPage player) then
        report (VideoPageShown (currentPageIndex player))
          (withInteraction
             {| totalAudioDuration := totalAudioDuration b;
                totalVideoDuration := totalVideoDuration b;
                reportedAudioOnCurrentPage := reportedAudioOnCurrentPage b;
                reportedVideoOnCurrentPage := true |}
             player)
      else player in
    report BookProgressReport player.

(** ** The controls around the player (bloom-player-controls) *)

Module Controls.

(** The state of [BloomPlayerControls] that pausing touches: the state
    variable [paused] and the module variable [canExternallyResume]. *)
Record State : Type := {
  paused : bool;
  canExternallyResume : bool
}.

(** What the component starts with: [useState(false)] and
    [let canExternallyResume = false]. *)
Definition initial : State :=
  {| paused := false; canExternallyResume := false |}.

(** [setPaused(value)], with the effect that depends on [paused]: when
    the state changes, the effect runs after the rendering and resets
    [canExternallyResume] if the player is not paused. *)
Definition setPaused (value : bool) (s : State) : State :=
  if Bool.eqb value (paused s) then s
  else {| paused := value;
          canExternallyResume :=
            if negb value then false else canExternallyResume s |}.

(** The message of an external controller; a field is [true] when the
    property of [data] is truthy. *)
Record Message : Type := {
  pause : bool;
  resume : bool;
  play : bool
}.

(** The callback given to [setExternalControlCallback]. *)
Definition externalControl (data : Message) (s : State) : State :=
  if pause data then
    setPaused true {| paused := paused s;
                      canExternallyResume := negb (paused s) |}
  else if resume data && canExternallyResume s then setPaused false s
  else if play data then setPaused false s
  else s.

(** The play/pause button of the control bar:
    [props.pausedChanged(!props.paused)]. *)
Definition playPauseClicked (s : State) : State :=
  setPaused (negb (paused s)) s.

(** What can happen to the controls. *)
Inductive Event : Type :=
| External (data : Message)
| PlayPauseButton.

Definition handle (s : State) (e : Event) : State :=
  match e with
  | External data => externalControl data s
  | PlayPauseButton => playPauseClicked s
  end.

(** [updateLanguagesDataWhenOpeningNewBook]: the language code given to
    [setActiveLanguageCode], from the [initialLanguageCode] property and
    the codes of the languages of the book. *)
Definition updateLanguagesDataWhenOpeningNewBook
    (initialLanguageCode : option string) (bookLanguages : list string)
  : string :=
  let first :=
    match bookLanguages with
    | code :: _ => code
    | [] => ""
    end in
  match initialLanguageCode with
  | Some code =>
      if negb (String.eqb code "") && Js.includes bookLanguages code
      then code else first
  | None => first
  end.

End Controls.

(** The reports that say that a page with audio, or with video, was
    shown. *)
Definition isAudioPageShown (r : Report) : bool :=
  match r with AudioPageShown _ => true | _ => false end.

Definition isVideoPageShown (r : Report) : bool :=
  match r with VideoPageShown _ => true | _ => false end.

(** ** The control bar (controlBar.tsx) *)

Module ControlBar.

(** [IExtraButton] *)
Record IExtraButton : Type := {
  id : string;
  iconUrl : string;
  description : option string
}.

(** [IControlBarProps]; a language stands for its [LangData], of which
    the bar reads the number only; of the optional callbacks
    [pausedChanged] and [backClicked] the bar tests the presence. *)
Record Props : Type := {
  visible : bool;
  paused : bool;
  pausedChanged : bool;
  showPlayPause : bool;
  canShowFullScreen : bool;
  backClicked : bool;
  canGoBack : bool;
  bookLanguages : list string;
  extraButtons : option (list IExtraButton)
}.

(** What the bar reads from the window and the document. *)
Record Browser : Type := {
  isTopWindow : bool;
  fullscreenEnabled : bool;
  inFullscreen : bool
}.

Inductive Icon : Type :=
| ArrowBack | MoreHoriz | Language | PlayCircleOutline | PauseCircleOutline
| Fullscreen | FullscreenExit
| Img (src : string).

(** What a click on a button does; a click whose callback is missing
    does nothing ([None]). *)
Inductive Action : Type :=
| BackClicked
| OpenLanguageMenu
| PausedChanged (b : bool)
| SendMessageToHost (messageType : string)
| ToggleFullScreen.

Record IconButton : Type := {
  className : option string;
  title : option string;
  content : option Icon;
  onClick : option Action
}.

Inductive Item : Type :=
| Button (b : IconButton)
| Filler
| LanguageMenu (languages : list string).

Definition controlButtonClass (props : Props) : string :=
  "button"
  ++ (if (List.length (bookLanguages props) <? 2)%nat then " disabled" else "").

(** The class of the bar. *)
Definition barClassName (props : Props) : string :=
  "control-bar " ++ (if visible props then ", visible" else "").

(** The children of the toolbar, in order. *)
Definition toolbar (props : Props) (browser : Browser)
    (languageMenuOpen : bool) : list Item :=
  ((if canGoBack props then
      [Button {| className := None; title := None;
                 content := Some (if isTopWindow browser
                                  then ArrowBack else MoreHoriz);
                 onClick := if backClicked props then Some BackClicked
                            else None |}]
    else [])
   ++ [Filler]
   ++ (if (1 <? List.length (bookLanguages props))%nat then
         [Button {| className := Some (controlButtonClass props);
                    title := None; content := Some Language;
                    onClick := Some OpenLanguageMenu |}]
       else [])
   ++ (if languageMenuOpen then [LanguageMenu (bookLanguages props)] else [])
   ++ [Button {| className := None; title := None;
                 content :=
                   if showPlayPause props then
                     Some (if paused props then PlayCircleOutline
                           else PauseCircleOutline)
                   else None;
                 onClick :=
                   if pausedChanged props
                   then Some (PausedChanged (negb (paused props)))
                   else None |}]
   ++ match extraButtons props with
      | Some ebs =>
          map (fun eb =>
                 Button {| className := None; title := description eb;
                           content := Some (Img (iconUrl eb));
                           onClick := Some (SendMessageToHost (id eb)) |})
              ebs
      | None => []
      end
   ++ (if fullscreenEnabled browser && canShowFullScreen props then
         [Button {| className := None; title := None;
                    content := Some (if inFullscreen browser
                                     then FullscreenExit else Fullscreen);
                    onClick := Some ToggleFullScreen |}]
       else []))%list.

End ControlBar.

(** The orientation that [scalePageToWindow] reads off the page:
    [page.getAttribute("class")!.indexOf("Landscape") >= 0]; there is no
    index to take when the page has no class attribute. *)
Definition scalePageToWindow_landscape (page : Dom.attrs) : result bool :=
  match Dom.getAttribute "class" page with
  | Some classAttr => Ok (Js.indexOf classAttr "Landscape" >=? 0)
  | None => Throw "TypeError"
  end.

(* ================================================================== *)
(** * Part II: properties *)
(* ================================================================== *)

(** ** Strings *)

Lemma append_nil_r (s : string) : s ++ "" = s.
Proof. induction s as [|c s IH]; simpl; [reflexivity | now rewrite IH]. Qed.

Lemma append_assoc (a b c : string) : (a ++ b) ++ c = a ++ (b ++ c).
Proof. induction a as [|x a IH]; simpl; [reflexivity | now rewrite IH]. Qed.

Lemma length_append (a b : string) :
  String.length (a ++ b) = (String.length a + String.length b)%nat.
Proof. induction a as [|x a IH]; simpl; [reflexivity | now rewrite IH]. Qed.

Lemma drop_nil (n : nat) : Js.drop n "" = "".
Proof. now destruct n. Qed.

Lemma drop_append (a b : string) : Js.drop (String.length a) (a ++ b) = b.
Proof. induction a as [|x a IH]; simpl; [reflexivity | exact IH]. Qed.

Lemma drop_append_ge (a b : string) (n : nat) :
  (String.length a <= n)%nat ->
  Js.drop n (a ++ b) = Js.drop (n - String.length a) b.
Proof.
  revert n; induction a as [|x a IH]; simpl; intros n Hn.
  - now rewrite Nat.sub_0_r.
  - destruct n as [|n]; [lia|]. simpl. apply IH. lia.
Qed.

Lemma drop_all (s : string) (n : nat) :
  (String.length s <= n)%nat -> Js.drop n s = "".
Proof.
  revert n; induction s as [|x s IH]; intros n Hn.
  - apply drop_nil.
  - destruct n as [|n]; simpl in *; [lia|]. apply IH. lia.
Qed.

Lemma take_append (a b : string) : Js.take (String.length a) (a ++ b) = a.
Proof. induction a as [|x a IH]; simpl; [reflexivity | now rewrite IH]. Qed.

Lemma take_all (s : string) (n : nat) :
  (String.length s <= n)%nat -> Js.take n s = s.
Proof.
  revert n; induction s as [|x s IH]; intros n Hn.
  - now destruct n.
  - destruct n as [|n]; simpl in *; [lia|]. rewrite IH; [reflexivity | lia].
Qed.

Lemma take_drop (s : string) (n : nat) : Js.take n s ++ Js.drop n s = s.
Proof.
  revert n; induction s as [|x s IH]; intros n.
  - now destruct n.
  - destruct n as [|n]; simpl; [reflexivity | now rewrite IH].
Qed.

Lemma drop_drop (s : string) (n m : nat) :
  Js.drop n (Js.drop m s) = Js.drop (m + n) s.
Proof.
  revert s; induction m as [|m IH]; intros s; simpl; [reflexivity|].
  destruct s as [|x s]; [apply drop_nil | apply IH].
Qed.

Lemma length_drop (s : string) (n : nat) :
  String.length (Js.drop n s) = (String.length s - n)%nat.
Proof.
  revert n; induction s as [|x s IH]; intros n.
  - now rewrite drop_nil.
  - destruct n as [|n]; simpl; [reflexivity | apply IH].
Qed.

Lemma prefix_append (p s : string) : String.prefix p (p ++ s) = true.
Proof.
  induction p as [|x p IH]; simpl.
  - now destruct s.
  - destruct (ascii_dec x x) as [_|N]; [exact IH | now elim N].
Qed.

Lemma prefix_inv (p s : string) :
  String.prefix p s = true -> s = p ++ Js.drop (String.length p) s.
Proof.
  revert s; induction p as [|x p IH]; intros s H; [reflexivity|].
  destruct s as [|y s]; simpl in H; [discriminate|].
  destruct (ascii_dec x y) as [->|]; [|discriminate].
  simpl. f_equal. now apply IH.
Qed.

Lemma prefix_length (p s : string) :
  String.prefix p s = true -> (String.length p <= String.length s)%nat.
Proof.
  intros H. rewrite (prefix_inv _ _ H), length_append. lia.
Qed.

(** [s.endsWith(p)] holds exactly when [s] is some string followed by [p]. *)
Lemma endsWith_append (t p : string) : Js.endsWith (t ++ p) p = true.
Proof.
  unfold Js.endsWith. rewrite length_append.
  replace (String.length t + String.length p - String.length p)%nat
    with (String.length t) by lia.
  rewrite drop_append, String.eqb_refl, andb_true_r.
  apply Nat.leb_le. lia.
Qed.

Lemma endsWith_inv (s p : string) :
  Js.endsWith s p = true ->
  s = Js.take (String.length s - String.length p) s ++ p.
Proof.
  unfold Js.endsWith. intros H. apply andb_prop in H as [_ H].
  apply String.eqb_eq in H.
  pattern p at 2. rewrite <- H. symmetry. apply take_drop.
Qed.

Lemma endsWith_iff (s p : string) :
  Js.endsWith s p = true <-> exists t, s = t ++ p.
Proof.
  split.
  - intros H. eexists. now apply endsWith_inv.
  - intros [t ->]. apply endsWith_append.
Qed.

Lemma lastChar_append (a b : string) :
  b <> "" -> Js.lastChar (a ++ b) = Js.lastChar b.
Proof.
  intros Hb. induction a as [|x a IH]; [reflexivity|].
  simpl. rewrite <- IH.
  destruct (a ++ b) eqn:E; [|reflexivity].
  destruct a; simpl in E; [now subst | discriminate].
Qed.

Lemma endsWith_lastChar (s p : string) :
  Js.endsWith s p = true -> p <> "" -> Js.lastChar s = Js.lastChar p.
Proof.
  intros H Hp. apply endsWith_iff in H as [t ->]. now apply lastChar_append.
Qed.

Lemma lastChar_not_endsWith (s p : string) :
  p <> "" -> Js.lastChar s <> Js.lastChar p -> Js.endsWith s p = false.
Proof.
  intros Hp Hne. destruct (Js.endsWith s p) eqn:E; [|reflexivity].
  elim Hne. now apply endsWith_lastChar.
Qed.

(** [substring] on the shapes the code uses. *)
Lemma len_nonneg (s : string) : 0 <= Js.len s.
Proof. unfold Js.len. lia. Qed.

Lemma len_append (a b : string) : Js.len (a ++ b) = Js.len a + Js.len b.
Proof. unfold Js.len. rewrite length_append. lia. Qed.

Lemma substring_ordered (s : string) (a b : Z) :
  0 <= a <= b -> b <= Js.len s ->
  Js.substring s a b = Js.take (Z.to_nat (b - a)) (Js.drop (Z.to_nat a) s).
Proof.
  intros Hab Hb. unfold Js.substring, Js.clamp.
  replace (Z.min (Z.max a 0) (Js.len s)) with a by lia.
  replace (Z.min (Z.max b 0) (Js.len s)) with b by lia.
  replace (Z.min a b) with a by lia.
  replace (Z.max a b) with b by lia.
  reflexivity.
Qed.

Lemma substring_prefix (a b : string) :
  Js.substring (a ++ b) 0 (Js.len a) = a.
Proof.
  pose proof (len_nonneg a). pose proof (len_nonneg b).
  rewrite substring_ordered by (rewrite ?len_append; lia).
  rewrite Z.sub_0_r. unfold Js.len. rewrite Nat2Z.id.
  apply take_append.
Qed.

Lemma substring_suffix (a b : string) :
  Js.substring (a ++ b) (Js.len a) (Js.len (a ++ b)) = b.
Proof.
  pose proof (len_nonneg a). pose proof (len_nonneg b).
  rewrite substring_ordered by (rewrite ?len_append; lia).
  unfold Js.len at 3. rewrite Nat2Z.id, drop_append.
  apply take_all. rewrite len_append. unfold Js.len. lia.
Qed.

(** Whatever the start index, [s.substring(a, s.length)] is an end part
    of [s]. *)
Lemma substring_to_end (s : string) (a : Z) :
  exists t, s = t ++ Js.substring s a (Js.len s).
Proof.
  pose proof (len_nonneg s).
  assert (Js.substring s a (Js.len s)
          = Js.substring s (Z.min (Z.max a 0) (Js.len s)) (Js.len s)) as ->.
  { unfold Js.substring, Js.clamp. f_equal; f_equal; lia. }
  set (a' := Z.min (Z.max a 0) (Js.len s)).
  assert (0 <= a' <= Js.len s) as Ha by (unfold a'; lia).
  rewrite substring_ordered by lia.
  exists (Js.take (Z.to_nat a') s).
  rewrite (take_all (Js.drop (Z.to_nat a') s)).
  - symmetry. apply take_drop.
  - rewrite length_drop. unfold Js.len in *. lia.
Qed.

(** ** Searching in strings *)

Lemma indexOfFrom_eq (i : Z) (s p : string) :
  Js.indexOfFrom i s p =
  if String.prefix p s then i
  else match s with
       | EmptyString => -1
       | String _ s' => Js.indexOfFrom (i + 1) s' p
       end.
Proof. destruct s; reflexivity. Qed.

Lemma indexOfFrom_range (i : Z) (s p : string) :
  0 <= i -> Js.indexOfFrom i s p = -1 \/ i <= Js.indexOfFrom i s p.
Proof.
  revert i; induction s as [|c s IH]; intros i Hi; rewrite indexOfFrom_eq.
  - destruct (String.prefix p ""); [right; lia | now left].
  - destruct (String.prefix p (String c s)); [right; lia|].
    destruct (IH (i + 1)) as [E|E]; [lia | now left | right; lia].
Qed.

Lemma indexOfFrom_none (i : Z) (s p : string) :
  0 <= i -> Js.indexOfFrom i s p = -1 ->
  forall n, (n <= String.length s)%nat -> Js.occursAt p s n = false.
Proof.
  unfold Js.occursAt.
  revert i; induction s as [|c s IH]; intros i Hi H n Hn;
    rewrite indexOfFrom_eq in H.
  - simpl in Hn. replace n with 0%nat by lia. cbn [Js.drop].
    destruct (String.prefix p ""); [lia | reflexivity].
  - destruct (String.prefix p (String c s)) eqn:E; [lia|].
    destruct n as [|n]; [exact E|]. cbn [Js.drop].
    apply (IH (i + 1)); [lia | exact H | simpl in Hn; lia].
Qed.

Lemma contains_false_occursAt (s p : string) (n : nat) :
  Js.contains s p = false -> p <> "" -> Js.occursAt p s n = false.
Proof.
  unfold Js.contains, Js.indexOf. intros H Hp.
  apply Z.leb_gt in H.
  destruct (indexOfFrom_range 0 s p (Z.le_refl 0)) as [E|E]; [|lia].
  destruct (Nat.le_gt_cases n (String.length s)) as [Hn|Hn].
  - now apply (indexOfFrom_none 0 s p).
  - unfold Js.occursAt. rewrite drop_all by lia.
    destruct p; [now elim Hp | reflexivity].
Qed.

(** [lastIndexOf] returns the offset of an occurrence after which there is
    no other one, or -1 when there is no occurrence at all. *)
Lemma lastIndexOfFrom_spec (i : Z) (s p : string) :
  0 <= i ->
  (Js.lastIndexOfFrom i s p = -1 /\
   forall n, (n <= String.length s)%nat -> Js.occursAt p s n = false)
  \/
  (exists n, (n <= String.length s)%nat /\
     Js.lastIndexOfFrom i s p = i + Z.of_nat n /\
     Js.occursAt p s n = true /\
     forall m, (n < m <= String.length s)%nat -> Js.occursAt p s m = false).
Proof.
  unfold Js.occursAt.
  revert i; induction s as [|c s IH]; intros i Hi.
  - cbn [Js.lastIndexOfFrom Js.drop]. destruct (String.prefix p "") eqn:E.
    + right. exists 0%nat. repeat split; [lia | lia | exact E |].
      intros m Hm. simpl in Hm. lia.
    + left. split; [reflexivity|]. intros n Hn. simpl in Hn.
      replace n with 0%nat by lia. exact E.
  - cbn [Js.lastIndexOfFrom]. cbv zeta.
    destruct (IH (i + 1)) as [[E none]|(n & Hn & E & occ & last)]; [lia| |].
    + rewrite E. change (0 <=? -1) with false. cbv iota.
      destruct (String.prefix p (String c s)) eqn:P.
      * right. exists 0%nat. repeat split; [simpl; lia | lia | exact P |].
        intros [|m] Hm; [lia|]. cbn [Js.drop]. apply none. simpl in Hm. lia.
      * left. split; [reflexivity|]. intros [|n] Hn; [exact P|].
        cbn [Js.drop]. apply none. simpl in Hn. lia.
    + rewrite E. replace (0 <=? i + 1 + Z.of_nat n) with true
        by (symmetry; apply Z.leb_le; lia).
      cbv iota. right. exists (S n). repeat split; [simpl; lia | lia | exact occ |].
      intros [|m] Hm; [lia|]. cbn [Js.drop]. apply last. simpl in Hm. lia.
Qed.

(** When the last occurrence is known, [lastIndexOf] finds it. *)
Lemma lastIndexOf_last (s p : string) (n : nat) :
  (n <= String.length s)%nat ->
  Js.occursAt p s n = true ->
  (forall m, (n < m <= String.length s)%nat -> Js.occursAt p s m = false) ->
  Js.lastIndexOf s p = Z.of_nat n.
Proof.
  intros Hn occ last. unfold Js.lastIndexOf.
  destruct (lastIndexOfFrom_spec 0 s p (Z.le_refl 0))
    as [[_ none]|(k & Hk & E & occk & lastk)].
  - rewrite none in occ by assumption. discriminate.
  - rewrite E. simpl. f_equal.
    destruct (Nat.lt_trichotomy k n) as [L|[L|L]]; [|assumption|].
    + rewrite lastk in occ by lia. discriminate.
    + rewrite last in occk by lia. discriminate.
Qed.

(** Every occurrence is at or before the one [lastIndexOf] reports. *)
Lemma lastIndexOf_bound (s p : string) (b : nat) :
  (forall m, (b <= m <= String.length s)%nat -> Js.occursAt p s m = false) ->
  Js.lastIndexOf s p < Z.of_nat b.
Proof.
  intros none. unfold Js.lastIndexOf.
  destruct (lastIndexOfFrom_spec 0 s p (Z.le_refl 0))
    as [[E _]|(k & Hk & E & occk & _)]; rewrite E; [lia|].
  destruct (Nat.lt_ge_cases k b) as [L|L]; [lia|].
  rewrite none in occk by lia. discriminate.
Qed.

(** ** [trim] *)

Lemma trimStart_empty (s : string) :
  Js.trimStart s = "" <-> Js.allWhiteSpace s = true.
Proof.
  induction s as [|c s IH]; simpl; [tauto|].
  destruct (Js.isWhiteSpace c); simpl; [exact IH|].
  split; discriminate.
Qed.

Lemma trimEnd_empty (s : string) :
  Js.trimEnd s = "" <-> Js.allWhiteSpace s = true.
Proof.
  induction s as [|c s IH]; simpl; [tauto|].
  destruct (Js.trimEnd s) eqn:E.
  - destruct (Js.isWhiteSpace c); simpl.
    + split; intros _; [now apply IH | reflexivity].
    + split; discriminate.
  - split; [discriminate|]. intros H. apply andb_prop in H as [_ H].
    apply IH in H. discriminate.
Qed.

Lemma allWhiteSpace_trimStart (s : string) :
  Js.allWhiteSpace (Js.trimStart s) = Js.allWhiteSpace s.
Proof.
  induction s as [|c s IH]; simpl; [reflexivity|].
  destruct (Js.isWhiteSpace c) eqn:E; simpl; [exact IH | now rewrite E].
Qed.

Lemma trim_empty (s : string) :
  Js.trim s = "" <-> Js.allWhiteSpace s = true.
Proof.
  unfold Js.trim. rewrite trimEnd_empty, allWhiteSpace_trimStart. tauto.
Qed.

Lemma allWhiteSpace_lastChar (s : string) (c : ascii) :
  Js.lastChar s = Some c -> Js.isWhiteSpace c = false ->
  Js.allWhiteSpace s = false.
Proof.
  induction s as [|x s IH]; [discriminate|].
  intros H W. cbn [Js.allWhiteSpace].
  destruct s as [|y s].
  - injection H as ->. now rewrite W.
  - rewrite IH by assumption. apply andb_false_r.
Qed.

(** A URL whose last code unit is not white space is not "empty". *)
Lemma trim_lastChar (s : string) (c : ascii) :
  Js.lastChar s = Some c -> Js.isWhiteSpace c = false ->
  String.eqb "" (Js.trim s) = false.
Proof.
  intros H W. apply String.eqb_neq. intros E. symmetry in E.
  apply trim_empty in E. rewrite (allWhiteSpace_lastChar s c H W) in E.
  discriminate.
Qed.

(** ** Resolving the book URL *)

Lemma strip_suffix (s p : string) :
  Js.endsWith s p = true ->
  exists t, s = t ++ p /\ Js.substring s 0 (Js.len s - Js.len p) = t.
Proof.
  intros H. apply endsWith_iff in H as [t ->]. exists t. split; [reflexivity|].
  rewrite len_append. replace (Js.len t + Js.len p - Js.len p) with (Js.len t) by lia.
  apply substring_prefix.
Qed.

Lemma filename_suffix (u : string) : exists t, u = t ++ filename u.
Proof.
  unfold filename. destruct (slashIndex u >? encodedSlashIndex u);
    apply substring_to_end.
Qed.

(** A source URL whose last code unit is not [m] is taken for a folder. *)
Lemma haveFullPath_lastChar (u : string) (c : ascii) :
  Js.lastChar u = Some c -> c <> "m"%char -> haveFullPath u = false.
Proof.
  intros L Hc. unfold haveFullPath.
  destruct (filename_suffix u) as [t E].
  destruct (filename u) as [|x f] eqn:F; [reflexivity|].
  apply lastChar_not_endsWith; [discriminate|].
  rewrite E, lastChar_append in L by discriminate.
  rewrite L. simpl. congruence.
Qed.

Lemma bookUrls_folder (u : string) :
  haveFullPath u = false ->
  bookUrls u = {| urlOfBookHtmlFile := u ++ "/" ++ filename u ++ ".htm";
                  urlPrefix := u |}.
Proof. intros H. unfold bookUrls. now rewrite H. Qed.

Lemma preprocessUrl_strips (url r : string) :
  preprocessUrl (Some url) = Ok r -> url <> "working" ->
  exists a b, (a = "" \/ a = "/") /\ (b = "" \/ b = "%2f") /\
              url = r ++ b ++ a.
Proof.
  unfold preprocessUrl. intros H W.
  destruct (String.eqb "" (Js.trim url)); [discriminate|].
  destruct (String.eqb_spec url "working"); [contradiction|].
  destruct (Js.endsWith url "/") eqn:E1.
  - destruct (strip_suffix url "/" E1) as (t & -> & St).
    change (Js.len "/") with 1 in St. rewrite St in H.
    exists "/". destruct (Js.endsWith t "%2f") eqn:E2.
    + destruct (strip_suffix t "%2f" E2) as (t' & -> & St').
      change (Js.len "%2f") with 3 in St'. rewrite St' in H.
      injection H as <-. exists "%2f". rewrite !append_assoc. auto.
    + injection H as <-. exists "". auto.
  - exists "". destruct (Js.endsWith url "%2f") eqn:E2.
    + destruct (strip_suffix url "%2f" E2) as (t' & -> & St').
      change (Js.len "%2f") with 3 in St'. rewrite St' in H.
      injection H as <-. exists "%2f". auto.
    + injection H as <-. exists "". rewrite append_nil_r. auto.
Qed.

(** C10. [preprocessUrl] strips at most one trailing "/" and then at most
    one trailing lower-case "%2f"; a URL that ends in "%2F" is returned
    unchanged and one that ends in "//" keeps one trailing "/"; in both
    cases the result is taken for a folder, so it is the resource prefix
    and the start of the markup URL as it stands. *)
Theorem preprocessUrl_single_pass (url : string) :
  (forall r, preprocessUrl (Some url) = Ok r -> url <> "working" ->
     exists a b, (a = "" \/ a = "/") /\ (b = "" \/ b = "%2f") /\
                 url = r ++ b ++ a)
  /\ (Js.endsWith url "%2F" = true ->
      preprocessUrl (Some url) = Ok url /\
      bookUrls url = {| urlOfBookHtmlFile := url ++ "/" ++ filename url ++ ".htm";
                        urlPrefix := url |})
  /\ (Js.endsWith url "//" = true ->
      exists r, preprocessUrl (Some url) = Ok r /\ url = r ++ "/" /\
        Js.endsWith r "/" = true /\
        bookUrls r = {| urlOfBookHtmlFile := r ++ "/" ++ filename r ++ ".htm";
                        urlPrefix := r |}).
Proof.
  split; [intros r; apply preprocessUrl_strips|]. split.
  - intros E.
    assert (Js.lastChar url = Some "F"%char) as L
      by (rewrite (endsWith_lastChar _ _ E); [reflexivity | discriminate]).
    split.
    + unfold preprocessUrl.
      rewrite (trim_lastChar url _ L) by reflexivity.
      destruct (String.eqb_spec url "working") as [->|_]; [discriminate|].
      rewrite (lastChar_not_endsWith url "/"), (lastChar_not_endsWith url "%2f");
        [reflexivity | discriminate | | discriminate |]; rewrite L; discriminate.
    + apply bookUrls_folder, (haveFullPath_lastChar url _ L). discriminate.
  - intros E. apply endsWith_iff in E as [t ->].
    exists (t ++ "/").
    assert (Js.lastChar (t ++ "/") = Some "/"%char) as L
      by (rewrite lastChar_append; [reflexivity | discriminate]).
    repeat split.
    + unfold preprocessUrl.
      rewrite (trim_lastChar (t ++ "//") "/"%char); [|rewrite lastChar_append; [reflexivity | discriminate] | reflexivity].
      destruct (String.eqb_spec (t ++ "//") "working") as [W|_].
      { apply (f_equal Js.lastChar) in W. rewrite lastChar_append in W; discriminate. }
      replace (t ++ "//") with ((t ++ "/") ++ "/") by now rewrite append_assoc.
      rewrite endsWith_append.
      rewrite len_append. change (Js.len "/") with 1.
      replace (Js.len (t ++ "/") + 1 - 1) with (Js.len (t ++ "/")) by lia.
      rewrite substring_prefix.
      rewrite (lastChar_not_endsWith (t ++ "/") "%2f"); [reflexivity | discriminate |].
      rewrite L. discriminate.
    + now rewrite append_assoc.
    + apply endsWith_append.
    + apply bookUrls_folder, (haveFullPath_lastChar _ _ L). discriminate.
Qed.

Lemma preprocessUrl_single_pass_witness :
  (preprocessUrl (Some "https://host/Book%2F") = Ok "https://host/Book%2F" /\
   bookUrls "https://host/Book%2F"
   = {| urlOfBookHtmlFile := "https://host/Book%2F/Book%2F.htm";
        urlPrefix := "https://host/Book%2F" |})
  /\ (exists r, preprocessUrl (Some "https://host/Book//") = Ok r /\
        "https://host/Book//" = r ++ "/" /\ Js.endsWith r "/" = true /\
        bookUrls r = {| urlOfBookHtmlFile := r ++ "/" ++ filename r ++ ".htm";
                        urlPrefix := r |}).
Proof.
  destruct (preprocessUrl_single_pass "https://host/Book%2F") as (_ & A & _).
  destruct (preprocessUrl_single_pass "https://host/Book//") as (_ & _ & B).
  split; [exact (A eq_refl) | exact (B eq_refl)].
Defined.

Lemma append_single_inj (a b : string) (x y : ascii) :
  a ++ String x "" = b ++ String y "" -> a = b /\ x = y.
Proof.
  revert b; induction a as [|c a IH]; intros [|d b] H; simpl in H.
  - injection H as ->. auto.
  - injection H as -> H. destruct b; discriminate.
  - injection H as -> H. destruct a; discriminate.
  - injection H as -> H. destruct (IH b H) as [-> ->]. auto.
Qed.

Lemma lastChar_inv (s : string) (c : ascii) :
  Js.lastChar s = Some c -> exists t, s = t ++ String c "".
Proof.
  induction s as [|x s IH]; [discriminate|]. intros H.
  destruct s as [|y s].
  - injection H as ->. now exists "".
  - destruct (IH H) as [t E]. exists (String x t). simpl. now rewrite <- E.
Qed.

Lemma endsWith_append_long (a f p : string) :
  (String.length p <= String.length f)%nat ->
  Js.endsWith (a ++ f) p = Js.endsWith f p.
Proof.
  intros L. unfold Js.endsWith. rewrite length_append.
  rewrite drop_append_ge by lia.
  replace (String.length a + String.length f - String.length p - String.length a)%nat
    with (String.length f - String.length p)%nat by lia.
  assert ((String.length p <=? String.length a + String.length f)%nat = true)
    as -> by (apply Nat.leb_le; lia).
  assert ((String.length p <=? String.length f)%nat = true)
    as -> by (apply Nat.leb_le; lia).
  reflexivity.
Qed.

(** After a separator, only the file name decides whether the URL ends in
    ".htm". *)
Lemma endsWith_htm_after (a f : string) (c : ascii) :
  Js.lastChar a = Some c ->
  c <> "."%char -> c <> "h"%char -> c <> "t"%char -> c <> "m"%char ->
  Js.endsWith (a ++ f) ".htm" = Js.endsWith f ".htm".
Proof.
  intros L N1 N2 N3 N4.
  destruct (Nat.le_gt_cases 4 (String.length f)) as [Hf|Hf].
  - now apply endsWith_append_long.
  - replace (Js.endsWith f ".htm") with false
      by (unfold Js.endsWith; simpl (String.length ".htm");
          now rewrite (proj2 (Nat.leb_gt _ _) Hf)).
    destruct (Js.endsWith (a ++ f) ".htm") eqn:E; [exfalso|reflexivity].
    apply endsWith_iff in E as [t E].
    destruct (lastChar_inv a c L) as [a' ->].
    destruct f as [|x [|y [|z [|w f]]]]; [| | | |simpl in Hf; lia].
    + rewrite append_nil_r in E.
      change (t ++ ".htm") with (t ++ ".ht" ++ "m") in E.
      rewrite <- append_assoc in E.
      apply append_single_inj in E as [_ ->]. now apply N4.
    + change (t ++ ".htm") with (t ++ ".ht" ++ "m") in E.
      rewrite <- append_assoc in E.
      change (String x "") with ("" ++ String x "") in E.
      rewrite append_nil_r in E || idtac.
      apply append_single_inj in E as [E _].
      change (t ++ ".ht") with (t ++ ".h" ++ "t") in E.
      rewrite <- append_assoc in E.
      apply append_single_inj in E as [_ ->]. now apply N3.
    + change (String x (String y "")) with (String x "" ++ String y "") in E.
      rewrite <- append_assoc in E.
      change (t ++ ".htm") with (t ++ ".ht" ++ "m") in E.
      rewrite <- (append_assoc t) in E.
      apply append_single_inj in E as [E _].
      change (t ++ ".ht") with (t ++ ".h" ++ "t") in E.
      rewrite <- (append_assoc t) in E.
      apply append_single_inj in E as [E _].
      change (t ++ ".h") with (t ++ "." ++ "h") in E.
      rewrite <- (append_assoc t) in E.
      apply append_single_inj in E as [_ ->]. now apply N2.
    + change (String x (String y (String z "")))
        with ((String x "" ++ String y "") ++ String z "") in E.
      rewrite <- !append_assoc in E.
      change (t ++ ".htm") with (t ++ ".ht" ++ "m") in E.
      rewrite <- (append_assoc t) in E.
      apply append_single_inj in E as [E _].
      change (t ++ ".ht") with (t ++ ".h" ++ "t") in E.
      rewrite <- (append_assoc t) in E.
      apply append_single_inj in E as [E _].
      change (t ++ ".h") with (t ++ "." ++ "h") in E.
      rewrite <- (append_assoc t) in E.
      apply append_single_inj in E as [E _].
      apply append_single_inj in E as [_ ->]. now apply N1.
Qed.

Lemma occursAt_after (a b p : string) (m : nat) :
  (String.length a <= m)%nat ->
  Js.occursAt p (a ++ b) m = Js.occursAt p b (m - String.length a).
Proof.
  intros H. unfold Js.occursAt. now rewrite drop_append_ge.
Qed.

Lemma occursAt_here (a b p : string) :
  Js.occursAt p (a ++ p ++ b) (String.length a) = true.
Proof.
  unfold Js.occursAt. rewrite drop_append. apply prefix_append.
Qed.

(** The separator that [bookUrls] uses is the later of the last "/" and the
    last "%2f"; [f] is what follows it. *)
Lemma separator_slash (pre f : string) :
  Js.contains f "/" = false -> Js.contains f "%2f" = false ->
  let u := pre ++ "/" ++ f in
  slashIndex u = Js.len pre /\ encodedSlashIndex u < Js.len pre.
Proof.
  intros F1 F2 u. split.
  - apply lastIndexOf_last.
    + unfold u. rewrite length_append. lia.
    + apply occursAt_here.
    + intros m Hm. unfold u. rewrite occursAt_after by lia.
      destruct (m - String.length pre)%nat as [|k] eqn:K; [lia|].
      change (Js.occursAt "/" ("/" ++ f) (S k)) with (Js.occursAt "/" f k).
      now apply contains_false_occursAt.
  - apply lastIndexOf_bound. intros m Hm.
    unfold u. rewrite occursAt_after by lia.
    destruct (m - String.length pre)%nat as [|k]; [reflexivity|].
    change (Js.occursAt "%2f" ("/" ++ f) (S k)) with (Js.occursAt "%2f" f k).
    now apply contains_false_occursAt.
Qed.

Lemma separator_encoded (pre f : string) :
  Js.contains f "/" = false -> Js.contains f "%2f" = false ->
  let u := pre ++ "%2f" ++ f in
  encodedSlashIndex u = Js.len pre /\ slashIndex u < Js.len pre.
Proof.
  intros F1 F2 u. split.
  - apply lastIndexOf_last.
    + unfold u. rewrite length_append. lia.
    + apply occursAt_here.
    + intros m Hm. unfold u. rewrite occursAt_after by lia.
      destruct (m - String.length pre)%nat as [|[|[|k]]] eqn:K;
        [lia | reflexivity | reflexivity |].
      change (Js.occursAt "%2f" ("%2f" ++ f) (S (S (S k))))
        with (Js.occursAt "%2f" f k).
      now apply contains_false_occursAt.
  - apply lastIndexOf_bound. intros m Hm.
    unfold u. rewrite occursAt_after by lia.
    destruct (m - String.length pre)%nat as [|[|[|k]]];
      [reflexivity | reflexivity | reflexivity |].
    change (Js.occursAt "/" ("%2f" ++ f) (S (S (S k))))
      with (Js.occursAt "/" f k).
    now apply contains_false_occursAt.
Qed.

Lemma bookUrls_after_separator (pre sep f : string) :
  sep = "/" \/ sep = "%2f" ->
  Js.contains f "/" = false -> Js.contains f "%2f" = false ->
  let u := pre ++ sep ++ f in
  filename u = f /\
  haveFullPath u = Js.endsWith u ".htm" /\
  Js.substring u 0 (Z.max (slashIndex u) (encodedSlashIndex u)) = pre.
Proof.
  intros Hsep F1 F2 u.
  pose proof (len_nonneg pre) as Lp.
  assert (filename u = f) as Ff.
  { unfold filename. destruct Hsep as [-> | ->].
    - destruct (separator_slash pre f F1 F2) as [S E]. fold u in S, E.
      rewrite (proj2 (Z.gtb_gt _ _)) by lia. rewrite S.
      unfold u. rewrite <- append_assoc.
      replace (Js.len pre + 1) with (Js.len (pre ++ "/"))
        by (rewrite len_append; reflexivity).
      apply substring_suffix.
    - destruct (separator_encoded pre f F1 F2) as [E S]. fold u in S, E.
      replace (slashIndex u >? encodedSlashIndex u) with false
        by (symmetry; rewrite Z.gtb_ltb; apply Z.ltb_ge; lia).
      rewrite E. unfold u. rewrite <- append_assoc.
      replace (Js.len pre + 3) with (Js.len (pre ++ "%2f"))
        by (rewrite len_append; reflexivity).
      apply substring_suffix. }
  split; [exact Ff|]. split.
  - unfold haveFullPath. rewrite Ff. unfold u. rewrite <- append_assoc.
    symmetry. destruct Hsep as [-> | ->].
    + apply (endsWith_htm_after (pre ++ "/") f "/"%char);
        [rewrite lastChar_append; [reflexivity|]| | | |]; discriminate.
    + apply (endsWith_htm_after (pre ++ "%2f") f "f"%char);
        [rewrite lastChar_append; [reflexivity|]| | | |]; discriminate.
  - destruct Hsep as [-> | ->].
    + destruct (separator_slash pre f F1 F2) as [S E]. fold u in S, E.
      rewrite Z.max_l by lia. rewrite S. apply substring_prefix.
    + destruct (separator_encoded pre f F1 F2) as [E S]. fold u in S, E.
      rewrite Z.max_r by lia. rewrite E. apply substring_prefix.
Qed.

(** C2, as amended.  Let the normalised source URL be [pre ++ sep ++ f],
    where [sep] is "/" or "%2f" and neither occurs in [f].  If the URL ends
    in ".htm", the markup URL is the URL itself and the prefix is [pre];
    otherwise the markup URL is the URL, "/", [f] and ".htm", and the
    prefix is the URL itself.  "https://host/Book" is normalised to itself
    and resolves to "https://host/Book/Book.htm" with prefix
    "https://host/Book". *)
Theorem bookUrls_resolved :
  (forall pre sep f : string,
     sep = "/" \/ sep = "%2f" ->
     Js.contains f "/" = false -> Js.contains f "%2f" = false ->
     let u := pre ++ sep ++ f in
     bookUrls u =
       if Js.endsWith u ".htm" then
         {| urlOfBookHtmlFile := u; urlPrefix := pre |}
       else
         {| urlOfBookHtmlFile := u ++ "/" ++ f ++ ".htm"; urlPrefix := u |})
  /\ preprocessUrl (Some "https://host/Book") = Ok "https://host/Book"
  /\ bookUrls "https://host/Book"
     = {| urlOfBookHtmlFile := "https://host/Book/Book.htm";
          urlPrefix := "https://host/Book" |}.
Proof.
  split; [|split; reflexivity].
  intros pre sep f Hsep F1 F2 u.
  destruct (bookUrls_after_separator pre sep f Hsep F1 F2) as (Ff & Hh & Hp).
  fold u in Ff, Hh, Hp. unfold bookUrls. rewrite Hh, Ff, Hp. 
  destruct (Js.endsWith u ".htm"); reflexivity.
Qed.

Lemma bookUrls_resolved_witness :
  bookUrls "https://host/lib%2fBook.htm"
  = {| urlOfBookHtmlFile := "https://host/lib%2fBook.htm";
       urlPrefix := "https://host/lib" |}.
Proof.
  exact (proj1 bookUrls_resolved "https://host/lib" "%2f" "Book.htm"
           (or_intror eq_refl) eq_refl eq_refl).
Defined.

(** C2, as stated, fails where the last separator is an encoded slash: the
    prefix stops at the "%2f", not at the last "/". *)
Lemma bookUrls_encoded_slash_counterexample :
  bookUrls "https://host/lib%2fBook.htm"
  = {| urlOfBookHtmlFile := "https://host/lib%2fBook.htm";
       urlPrefix := "https://host/lib" |}
  /\ spec_bookUrls "https://host/lib%2fBook.htm"
     = {| urlOfBookHtmlFile := "https://host/lib%2fBook.htm";
          urlPrefix := "https://host" |}
  /\ bookUrls "https://host/lib%2fBook.htm"
     <> spec_bookUrls "https://host/lib%2fBook.htm".
Proof.
  split; [vm_compute; reflexivity|].
  split; [vm_compute; reflexivity|].
  vm_compute. discriminate.
Qed.

(** A source URL with no separator at all is outside the amended claim:
    the file name is then taken from the third code unit on. *)
Example bookUrls_without_separator :
  bookUrls "a.htm" = {| urlOfBookHtmlFile := "a.htm/htm.htm";
                        urlPrefix := "a.htm" |}
  /\ bookUrls "Book" = {| urlOfBookHtmlFile := "Book/ok.htm";
                          urlPrefix := "Book" |}.
Proof. split; reflexivity. Qed.

(** ** Loading errors *)

Lemma prefix_append_l (p a b : string) :
  String.prefix p a = true -> String.prefix p (a ++ b) = true.
Proof.
  intros H. rewrite (prefix_inv p a H), append_assoc. apply prefix_append.
Qed.

Lemma indexOfFrom_append (i : Z) (a b p : string) :
  0 <= i -> 0 <= Js.indexOfFrom i a p -> 0 <= Js.indexOfFrom i (a ++ b) p.
Proof.
  revert i; induction a as [|c a IH]; intros i Hi H;
    rewrite indexOfFrom_eq in H; rewrite indexOfFrom_eq.
  - destruct (String.prefix p "") eqn:E; [|lia].
    now rewrite (prefix_append_l p "" b E).
  - destruct (String.prefix p (String c a)) eqn:E.
    + now rewrite (prefix_append_l p (String c a) b E).
    + destruct (String.prefix p (String c a ++ b)); [exact Hi|].
      apply IH; [lia | exact H].
Qed.

Lemma contains_append (a b p : string) :
  Js.contains a p = true -> Js.contains (a ++ b) p = true.
Proof.
  unfold Js.contains, Js.indexOf. intros H.
  apply Z.leb_le. apply indexOfFrom_append; [lia|]. now apply Z.leb_le.
Qed.

(** ** Rendering *)

Lemma mapi_from_length {A B : Type} (f : A -> Z -> B) (i : Z) (l : list A) :
  List.length (mapi_from f i l) = List.length l.
Proof.
  revert i; induction l as [|x l IH]; intros i; simpl; [reflexivity|].
  now rewrite IH.
Qed.

Lemma mapi_from_nth {A B : Type} (f : A -> Z -> B) (i : Z) (l : list A)
    (n : nat) (x : A) :
  nth_error l n = Some x ->
  nth_error (mapi_from f i l) n = Some (f x (i + Z.of_nat n)).
Proof.
  revert i n; induction l as [|y l IH]; intros i [|n] H; simpl in *;
    try discriminate.
  - injection H as ->. now rewrite Z.add_0_r.
  - rewrite (IH (i + 1) n H). do 2 f_equal. lia.
Qed.

(** When the book is shown, slide [i] holds the stored markup of page [i]
    exactly when [i] is less than 2 away from the current index. *)
Lemma render_ready (props : RenderProps) (state : IState) :
  isLoading state = false -> loadFailed state = false ->
  exists cls slides p n,
    render props state = Player cls slides p n
    /\ List.length slides = List.length (pages state)
    /\ forall i markup, nth_error (pages state) i = Some markup ->
         exists s, nth_error slides i = Some s
           /\ slideContent s =
              if Z.abs (Z.of_nat i - currentSwiperIndex state) <? 2 then
                PageContent (styleRules state)
                  ("bloomPlayer-page " ++ importedBodyClasses state) markup
              else EmptyContent.
Proof.
  intros L F. unfold render. rewrite L, F.
  do 4 eexists. split; [reflexivity|]. split; [apply mapi_from_length|].
  intros i markup H. eexists. split.
  - unfold mapi. apply mapi_from_nth. exact H.
  - reflexivity.
Qed.

(** C7. While the component is loading or has failed, no page markup is
    rendered: the result is the spinner or the error message.  Otherwise
    slide [i] holds the stored markup of page [i] if and only if
    [|i - currentSwiperIndex| < 2] and is empty for every other [i]; and
    this is so again after [setIndex] has changed the current index. *)
Theorem render_window (props : RenderProps) (state : IState) :
  (isLoading state = true \/ loadFailed state = true ->
   shownMarkup (render props state) = []
   /\ (render props state = LoadingSpinner
       \/ render props state = LoadFailedMessage (loadErrorHtml state)))
  /\ (isLoading state = false -> loadFailed state = false ->
      (exists cls slides p n,
         render props state = Player cls slides p n
         /\ List.length slides = List.length (pages state)
         /\ forall i markup, nth_error (pages state) i = Some markup ->
              exists s, nth_error slides i = Some s
                /\ (Z.abs (Z.of_nat i - currentSwiperIndex state) < 2 ->
                    slideContent s =
                      PageContent (styleRules state)
                        ("bloomPlayer-page " ++ importedBodyClasses state) markup)
                /\ (~ Z.abs (Z.of_nat i - currentSwiperIndex state) < 2 ->
                    slideContent s = EmptyContent))
      /\ forall index,
         exists cls slides p n,
           render props (setIndex index state) = Player cls slides p n
           /\ List.length slides = List.length (pages state)
           /\ forall i markup, nth_error (pages state) i = Some markup ->
                exists s, nth_error slides i = Some s
                  /\ (Z.abs (Z.of_nat i - index) < 2 ->
                      slideContent s =
                        PageContent (styleRules state)
                          ("bloomPlayer-page " ++ importedBodyClasses state) markup)
                  /\ (~ Z.abs (Z.of_nat i - index) < 2 ->
                      slideContent s = EmptyContent)).
Proof.
  split.
  - intros H. unfold render.
    destruct (isLoading state); [split; [reflexivity | now left]|].
    destruct H as [H|H]; [discriminate|]. rewrite H.
    split; [reflexivity | now right].
  - intros L F.
    assert (forall st, isLoading st = false -> loadFailed st = false ->
      exists cls slides p n,
         render props st = Player cls slides p n
         /\ List.length slides = List.length (pages st)
         /\ forall i markup, nth_error (pages st) i = Some markup ->
              exists s, nth_error slides i = Some s
                /\ (Z.abs (Z.of_nat i - currentSwiperIndex st) < 2 ->
                    slideContent s =
                      PageContent (styleRules st)
                        ("bloomPlayer-page " ++ importedBodyClasses st) markup)
                /\ (~ Z.abs (Z.of_nat i - currentSwiperIndex st) < 2 ->
                    slideContent s = EmptyContent)) as W.
    { intros st L' F'.
      destruct (render_ready props st L' F') as (cls & slides & p & n & R & Len & N).
      exists cls, slides, p, n. split; [exact R|]. split; [exact Len|].
      intros i markup Hi. destruct (N i markup Hi) as (s & Hs & C).
      exists s. split; [exact Hs|]. rewrite C.
      destruct (Z.ltb_spec (Z.abs (Z.of_nat i - currentSwiperIndex st)) 2);
        split; intros; [reflexivity | lia | lia | reflexivity]. }
    split; [now apply W|].
    intros index. exact (W (setIndex index state) L F).
Qed.

Lemma render_window_witness :
  exists cls slides p n,
    render {| showContextPages := false; outsideButtonPageClass := "";
              hideNextPrevButtons := false; absorbsDragging := false |}
      (setIndex 2
         {| pages := ["p0"; "p1"; "p2"; "p3"; "p4"]; styleRules := "";
            importedBodyClasses := ""; currentSwiperIndex := 0;
            isLoading := false; loadFailed := false; loadErrorHtml := "";
            ignorePhonyClick := false;
            isFinishUpForNewBookComplete := true |})
    = Player cls slides p n
    /\ List.length slides = 5%nat.
Proof.
  destruct (render_window
    {| showContextPages := false; outsideButtonPageClass := "";
       hideNextPrevButtons := false; absorbsDragging := false |}
    {| pages := ["p0"; "p1"; "p2"; "p3"; "p4"]; styleRules := "";
       importedBodyClasses := ""; currentSwiperIndex := 0;
       isLoading := false; loadFailed := false; loadErrorHtml := "";
       ignorePhonyClick := false;
       isFinishUpForNewBookComplete := true |}) as [_ H].
  destruct (H eq_refl eq_refl) as [_ W].
  destruct (W 2) as (cls & slides & p & n & R & Len & _).
  exists cls, slides, p, n. split; [exact R | exact Len].
Defined.

(** ** Attributes and class lists *)

Lemma getAttribute_setAttribute_same (name value : string) (a : Dom.attrs) :
  Dom.getAttribute name (Dom.setAttribute name value a) = Some value.
Proof.
  induction a as [|[n v] a IH]; simpl.
  - now rewrite String.eqb_refl.
  - destruct (String.eqb n name) eqn:E; simpl; now rewrite E.
Qed.

Lemma getAttribute_setAttribute_other (name other value : string)
    (a : Dom.attrs) :
  other <> name ->
  Dom.getAttribute other (Dom.setAttribute name value a)
  = Dom.getAttribute other a.
Proof.
  intros N. induction a as [|[n v] a IH]; simpl.
  - destruct (String.eqb_spec name other); [now subst | reflexivity].
  - destruct (String.eqb_spec n name) as [->|E]; simpl.
    + destruct (String.eqb_spec name other); [now subst | reflexivity].
    + now rewrite IH.
Qed.

Lemma setAttribute_setAttribute (name v w : string) (a : Dom.attrs) :
  Dom.setAttribute name w (Dom.setAttribute name v a)
  = Dom.setAttribute name w a.
Proof.
  induction a as [|[n x] a IH]; simpl.
  - now rewrite String.eqb_refl.
  - destruct (String.eqb n name) eqn:E; simpl; rewrite E; [reflexivity|].
    now rewrite IH.
Qed.

Lemma mem_In (t : string) (ts : list string) :
  Dom.mem t ts = true <-> In t ts.
Proof.
  unfold Dom.mem. rewrite existsb_exists. split.
  - intros (x & Hx & E). apply String.eqb_eq in E. now subst.
  - intros H. exists t. split; [exact H | apply String.eqb_refl].
Qed.

Lemma mem_false (t : string) (ts : list string) :
  Dom.mem t ts = false <-> ~ In t ts.
Proof.
  rewrite <- mem_In. destruct (Dom.mem t ts); split; congruence.
Qed.

Lemma validToken_cons (c : ascii) (t : string) :
  Dom.validToken (String c t) = true <->
  Dom.isAsciiWhiteSpace c = false /\ Dom.noWhiteSpace t = true.
Proof.
  unfold Dom.validToken. cbn [Dom.noWhiteSpace].
  change (String.eqb (String c t) "") with false. cbn [negb andb].
  destruct (Dom.isAsciiWhiteSpace c); cbn [negb andb]; split.
  - discriminate.
  - intros [H _]. discriminate.
  - intros H. now split.
  - now intros [_ H].
Qed.

Lemma split_cons_ws (c : ascii) (s : string) :
  Dom.isAsciiWhiteSpace c = true ->
  Dom.splitOnWhiteSpace (String c s) = Dom.splitOnWhiteSpace s.
Proof. intros H. simpl. now rewrite H. Qed.

Lemma split_cons_cons (c d : ascii) (s : string) :
  Dom.isAsciiWhiteSpace c = false -> Dom.isAsciiWhiteSpace d = false ->
  Dom.splitOnWhiteSpace (String c (String d s))
  = match Dom.splitOnWhiteSpace (String d s) with
    | t :: ts => String c t :: ts
    | [] => [String c ""]
    end.
Proof.
  intros Hc Hd.
  change (Dom.splitOnWhiteSpace (String c (String d s)))
    with (if Dom.isAsciiWhiteSpace c then Dom.splitOnWhiteSpace (String d s)
          else if Dom.isAsciiWhiteSpace d then
                 String c "" :: Dom.splitOnWhiteSpace (String d s)
               else match Dom.splitOnWhiteSpace (String d s) with
                    | t :: ts => String c t :: ts
                    | [] => [String c ""]
                    end).
  now rewrite Hc, Hd.
Qed.

Lemma split_cons_space (c d : ascii) (s : string) :
  Dom.isAsciiWhiteSpace c = false -> Dom.isAsciiWhiteSpace d = true ->
  Dom.splitOnWhiteSpace (String c (String d s))
  = String c "" :: Dom.splitOnWhiteSpace s.
Proof.
  intros Hc Hd.
  change (Dom.splitOnWhiteSpace (String c (String d s)))
    with (if Dom.isAsciiWhiteSpace c then Dom.splitOnWhiteSpace (String d s)
          else if Dom.isAsciiWhiteSpace d then
                 String c "" :: Dom.splitOnWhiteSpace (String d s)
               else match Dom.splitOnWhiteSpace (String d s) with
                    | t :: ts => String c t :: ts
                    | [] => [String c ""]
                    end).
  rewrite Hc, Hd. now rewrite split_cons_ws.
Qed.

(** A token followed by the end of the input or by white space is the
    first token of the input. *)
Lemma split_token_end (t : string) :
  Dom.validToken t = true -> Dom.splitOnWhiteSpace t = [t].
Proof.
  destruct t as [|c t]; [discriminate|]. revert c.
  induction t as [|d t IH]; intros c H; apply validToken_cons in H as [Hc Ht].
  - simpl. now rewrite Hc.
  - cbn [Dom.noWhiteSpace] in Ht. apply andb_prop in Ht as [Hd Ht].
    apply negb_true_iff in Hd. rewrite split_cons_cons by assumption.
    rewrite IH; [reflexivity|]. apply validToken_cons. now split.
Qed.

Lemma split_token_space (t s : string) (w : ascii) :
  Dom.validToken t = true -> Dom.isAsciiWhiteSpace w = true ->
  Dom.splitOnWhiteSpace (t ++ String w s) = t :: Dom.splitOnWhiteSpace s.
Proof.
  intros Ht Hw. destruct t as [|c t]; [discriminate|]. revert c Ht.
  induction t as [|d t IH]; intros c H; apply validToken_cons in H as [Hc Ht].
  - change (String c "" ++ String w s) with (String c (String w s)).
    now apply split_cons_space.
  - cbn [Dom.noWhiteSpace] in Ht. apply andb_prop in Ht as [Hd Ht].
    apply negb_true_iff in Hd.
    change (String c (String d t) ++ String w s)
      with (String c (String d (t ++ String w s))).
    rewrite split_cons_cons by assumption.
    change (String d (t ++ String w s)) with (String d t ++ String w s).
    rewrite IH; [reflexivity|]. apply validToken_cons. now split.
Qed.

Lemma split_serialize (ts : list string) :
  Dom.validTokens ts -> Dom.splitOnWhiteSpace (Dom.serialize ts) = ts.
Proof.
  induction 1 as [|t ts Ht Hts IH]; [reflexivity|].
  destruct ts as [|u ts].
  - simpl. now apply split_token_end.
  - change (Dom.serialize (t :: u :: ts))
      with (t ++ String " " (Dom.serialize (u :: ts))).
    rewrite split_token_space by (assumption || reflexivity).
    now rewrite IH.
Qed.

Lemma split_valid (s : string) : Dom.validTokens (Dom.splitOnWhiteSpace s).
Proof.
  unfold Dom.validTokens.
  induction s as [|c s IH]; [constructor|].
  destruct (Dom.isAsciiWhiteSpace c) eqn:Hc;
    [now rewrite split_cons_ws|].
  assert (Dom.validToken (String c "") = true) as V1
    by (apply validToken_cons; now split).
  destruct s as [|d s]; [simpl; rewrite Hc; now constructor|].
  destruct (Dom.isAsciiWhiteSpace d) eqn:Hd.
  { rewrite split_cons_space by assumption. constructor; [exact V1|].
    now rewrite split_cons_ws in IH. }
  rewrite split_cons_cons by assumption.
  destruct (Dom.splitOnWhiteSpace (String d s)) as [|t ts];
    [now constructor|].
  inversion IH as [|? ? Vt Vts]; subst. constructor; [|exact Vts].
  apply validToken_cons. split; [exact Hc|].
  unfold Dom.validToken in Vt. apply andb_prop in Vt. tauto.
Qed.

(** The ordered set of a list: no token twice, and the same tokens. *)
Lemma orderedSet_In (seen ts : list string) (t : string) :
  In t (Dom.orderedSet seen ts) <-> In t ts /\ ~ In t seen.
Proof.
  revert seen; induction ts as [|u ts IH]; intros seen; simpl; [tauto|].
  destruct (Dom.mem u seen) eqn:M.
  - apply mem_In in M. rewrite IH. split; [tauto|].
    intros [[<-|H] N]; [contradiction | tauto].
  - apply mem_false in M. simpl. rewrite IH. simpl.
    destruct (string_dec u t) as [<-|N]; [tauto|]. tauto.
Qed.

Lemma orderedSet_NoDup (seen ts : list string) :
  NoDup (Dom.orderedSet seen ts).
Proof.
  revert seen; induction ts as [|u ts IH]; intros seen; simpl; [constructor|].
  destruct (Dom.mem u seen); [apply IH|].
  constructor; [|apply IH].
  rewrite orderedSet_In. simpl. tauto.
Qed.

Lemma orderedSet_id (seen ts : list string) :
  NoDup ts -> (forall t, In t ts -> ~ In t seen) ->
  Dom.orderedSet seen ts = ts.
Proof.
  intros N; revert seen; induction N as [|u ts Hu N IH]; intros seen D;
    simpl; [reflexivity|].
  assert (Dom.mem u seen = false) as -> by (apply mem_false, D; now left).
  f_equal. apply IH. intros t Ht [<-|H]; [contradiction|].
  apply (D t); [now right | exact H].
Qed.

Lemma orderedSet_valid (seen ts : list string) :
  Dom.validTokens ts -> Dom.validTokens (Dom.orderedSet seen ts).
Proof.
  unfold Dom.validTokens. rewrite !Forall_forall. intros H t Ht.
  apply orderedSet_In in Ht. now apply H.
Qed.

Lemma tokens_valid (a : Dom.attrs) : Dom.validTokens (Dom.tokens a).
Proof. apply orderedSet_valid, split_valid. Qed.

Lemma tokens_NoDup (a : Dom.attrs) : NoDup (Dom.tokens a).
Proof. apply orderedSet_NoDup. Qed.

(** Writing a token list back and reading it again gives the list. *)
Lemma tokens_update (ts : list string) (a : Dom.attrs) :
  Dom.validTokens ts -> NoDup ts -> Dom.tokens (Dom.update ts a) = ts.
Proof.
  intros V N. unfold Dom.update.
  assert (Dom.tokens (Dom.setAttribute "class" (Dom.serialize ts) a) = ts) as S.
  { unfold Dom.tokens, Dom.className.
    rewrite getAttribute_setAttribute_same, split_serialize by assumption.
    apply orderedSet_id; [assumption | intros t _ []]. }
  destruct (Dom.getAttribute "class" a) eqn:G; [exact S|].
  destruct ts; [|exact S].
  unfold Dom.tokens, Dom.className. now rewrite G.
Qed.

Lemma getAttribute_update (name : string) (ts : list string) (a : Dom.attrs) :
  name <> "class" ->
  Dom.getAttribute name (Dom.update ts a) = Dom.getAttribute name a.
Proof.
  intros N. unfold Dom.update.
  destruct (Dom.getAttribute "class" a); [|destruct ts];
    try reflexivity; now apply getAttribute_setAttribute_other.
Qed.

Lemma mem_addToken (t u : string) (ts : list string) :
  Dom.mem t (Dom.addToken u ts) = String.eqb t u || Dom.mem t ts.
Proof.
  unfold Dom.addToken. destruct (Dom.mem u ts) eqn:M.
  - destruct (String.eqb_spec t u) as [->|]; [now rewrite M | reflexivity].
  - unfold Dom.mem. rewrite existsb_app. simpl.
    now rewrite orb_false_r, orb_comm.
Qed.

Lemma mem_removeToken (t u : string) (ts : list string) :
  Dom.mem t (Dom.removeToken u ts) = negb (String.eqb t u) && Dom.mem t ts.
Proof.
  unfold Dom.removeToken, Dom.mem.
  induction ts as [|x ts IH]; simpl; [now rewrite andb_false_r|].
  destruct (String.eqb_spec x u) as [->|N]; simpl.
  - rewrite IH. destruct (String.eqb_spec t u); simpl; reflexivity.
  - rewrite IH. destruct (String.eqb_spec t x) as [->|]; simpl.
    + destruct (String.eqb_spec x u); [contradiction | reflexivity].
    + reflexivity.
Qed.

Lemma addToken_valid (u : string) (ts : list string) :
  Dom.validToken u = true -> Dom.validTokens ts ->
  Dom.validTokens (Dom.addToken u ts).
Proof.
  intros Hu Hts. unfold Dom.addToken. destruct (Dom.mem u ts); [exact Hts|].
  apply Forall_app. split; [exact Hts | now constructor].
Qed.

Lemma addToken_NoDup (u : string) (ts : list string) :
  NoDup ts -> NoDup (Dom.addToken u ts).
Proof.
  intros N. unfold Dom.addToken. destruct (Dom.mem u ts) eqn:M; [exact N|].
  apply mem_false in M.
  induction N as [|x ts Hx N IH]; simpl; [constructor; [intros []|constructor]|].
  constructor.
  - rewrite in_app_iff. simpl. intros [H|[H|[]]]; [contradiction|].
    subst. apply M. now left.
  - apply IH. intros H. apply M. now right.
Qed.

Lemma removeToken_valid (u : string) (ts : list string) :
  Dom.validTokens ts -> Dom.validTokens (Dom.removeToken u ts).
Proof.
  unfold Dom.validTokens, Dom.removeToken. rewrite !Forall_forall.
  intros H t Ht. apply filter_In in Ht. now apply H.
Qed.

Lemma removeToken_NoDup (u : string) (ts : list string) :
  NoDup ts -> NoDup (Dom.removeToken u ts).
Proof. apply NoDup_filter. Qed.

Lemma addToken_present (u : string) (ts : list string) :
  Dom.mem u ts = true -> Dom.addToken u ts = ts.
Proof. intros M. unfold Dom.addToken. now rewrite M. Qed.

Lemma removeToken_absent (u : string) (ts : list string) :
  Dom.mem u ts = false -> Dom.removeToken u ts = ts.
Proof.
  unfold Dom.removeToken, Dom.mem.
  induction ts as [|x ts IH]; simpl; [reflexivity|]. intros M.
  apply orb_false_iff in M as [E M]. rewrite String.eqb_sym, E. simpl.
  now rewrite IH.
Qed.

Lemma tokens_add (u : string) (a : Dom.attrs) :
  Dom.validToken u = true ->
  Dom.tokens (Dom.add u a) = Dom.addToken u (Dom.tokens a).
Proof.
  intros Hu. apply tokens_update.
  - apply addToken_valid; [exact Hu | apply tokens_valid].
  - apply addToken_NoDup, tokens_NoDup.
Qed.

Lemma tokens_remove (u : string) (a : Dom.attrs) :
  Dom.tokens (Dom.remove u a) = Dom.removeToken u (Dom.tokens a).
Proof.
  apply tokens_update.
  - apply removeToken_valid, tokens_valid.
  - apply removeToken_NoDup, tokens_NoDup.
Qed.

(** What [classList.contains] answers after [add] and [remove]. *)
Lemma contains_add (t u : string) (a : Dom.attrs) :
  Dom.validToken u = true ->
  Dom.contains t (Dom.add u a) = String.eqb t u || Dom.contains t a.
Proof.
  intros Hu. unfold Dom.contains. now rewrite tokens_add, mem_addToken.
Qed.

Lemma contains_remove (t u : string) (a : Dom.attrs) :
  Dom.contains t (Dom.remove u a)
  = negb (String.eqb t u) && Dom.contains t a.
Proof.
  unfold Dom.contains. now rewrite tokens_remove, mem_removeToken.
Qed.

Lemma getAttribute_add (name u : string) (a : Dom.attrs) :
  name <> "class" ->
  Dom.getAttribute name (Dom.add u a) = Dom.getAttribute name a.
Proof. apply getAttribute_update. Qed.

Lemma getAttribute_remove (name u : string) (a : Dom.attrs) :
  name <> "class" ->
  Dom.getAttribute name (Dom.remove u a) = Dom.getAttribute name a.
Proof. apply getAttribute_update. Qed.

(** Two updates in a row: the second one decides, when the element has a
    class attribute to begin with. *)
Lemma update_update (ts1 ts2 : list string) (a : Dom.attrs) :
  Dom.getAttribute "class" a <> None ->
  Dom.update ts2 (Dom.update ts1 a) = Dom.update ts2 a.
Proof.
  intros H. unfold Dom.update.
  destruct (Dom.getAttribute "class" a) eqn:G; [|contradiction].
  rewrite getAttribute_setAttribute_same. apply setAttribute_setAttribute.
Qed.

Lemma update_has_class (ts : list string) (a : Dom.attrs) :
  Dom.getAttribute "class" a <> None ->
  Dom.getAttribute "class" (Dom.update ts a) <> None.
Proof.
  intros H. unfold Dom.update.
  destruct (Dom.getAttribute "class" a) eqn:G; [|contradiction].
  now rewrite getAttribute_setAttribute_same.
Qed.

Lemma contains_has_class (t : string) (a : Dom.attrs) :
  Dom.contains t a = true -> Dom.getAttribute "class" a <> None.
Proof.
  unfold Dom.contains, Dom.tokens, Dom.className.
  destruct (Dom.getAttribute "class" a); [discriminate | discriminate].
Qed.

(** ** Language visibility *)

Ltac class_list :=
  repeat (rewrite ?contains_add, ?contains_remove,
            ?getAttribute_add, ?getAttribute_remove
            by (reflexivity || discriminate));
  cbn [String.eqb Ascii.eqb Bool.eqb negb andb orb].

Lemma updateEditableAttrs_visible (D : list string) (c : string)
    (el : Dom.attrs) :
  Dom.contains "bloom-visibility-code-on" (updateEditableAttrs D c el)
  = shouldNormallyShowEditable
      (match Dom.getAttribute "lang" el with Some l => l | None => "" end)
      (Some D) c el.
Proof.
  unfold updateEditableAttrs.
  destruct (shouldNormallyShowEditable _ (Some D) c el);
    destruct (Dom.getAttribute "lang" el) as [l|];
    try destruct (String.eqb l c); class_list; reflexivity.
Qed.

Lemma updateEditableAttrs_primary (D : list string) (c : string)
    (el : Dom.attrs) :
  Dom.contains "bloom-content1" (updateEditableAttrs D c el)
  = match Dom.getAttribute "lang" el with
    | Some l => String.eqb l c
    | None => false
    end.
Proof.
  unfold updateEditableAttrs.
  destruct (Dom.getAttribute "lang" el) as [l|];
    try destruct (String.eqb l c); class_list; reflexivity.
Qed.

(** C1, as amended.  The automatic rule applies when the token list is
    absent or empty, or when its first token is empty or is "auto" in any
    letter case: then an editable is shown iff its language is the active
    one or it is tagged bloom-content2 or bloom-content3.  Otherwise it is
    shown iff (a) its language is the active one and the list includes "V"
    or "L1", or (b) it is tagged bloom-contentNational1 and the list
    includes "N1" or "L2", or (c) it is tagged bloom-contentNational2 and
    the list includes "N2" or "L3", or (d) its language is in the list.
    After the update an editable carries bloom-visibility-code-on iff it is
    shown and bloom-content1 iff its language is the active one; with the
    children "en" and "fr", the list "V" and the active language "fr", the
    "fr" child gets both classes and the "en" child neither. *)
Theorem shouldNormallyShowEditable_decision :
  (forall (lang c : string) (el : Dom.attrs),
     shouldNormallyShowEditable lang None c el
     = (String.eqb lang c || Dom.contains "bloom-content2" el
        || Dom.contains "bloom-content3" el))
  /\ (forall (lang c : string) (D : list string) (el : Dom.attrs),
     shouldNormallyShowEditable lang (Some D) c el
     = if match D with
          | [] => true
          | first :: _ =>
              String.eqb first ""
              || String.eqb (lowerCaseString first) "auto"
          end
       then String.eqb lang c || Dom.contains "bloom-content2" el
            || Dom.contains "bloom-content3" el
       else (String.eqb lang c && (Js.includes D "V" || Js.includes D "L1"))
            || (Dom.contains "bloom-contentNational1" el
                && (Js.includes D "N1" || Js.includes D "L2"))
            || (Dom.contains "bloom-contentNational2" el
                && (Js.includes D "N2" || Js.includes D "L3"))
            || Js.includes D lang)
  /\ (forall (D : list string) (c : string) (el : Dom.attrs),
     Dom.contains "bloom-visibility-code-on" (updateEditableAttrs D c el)
     = shouldNormallyShowEditable
         (match Dom.getAttribute "lang" el with Some l => l | None => "" end)
         (Some D) c el
     /\ Dom.contains "bloom-content1" (updateEditableAttrs D c el)
        = match Dom.getAttribute "lang" el with
          | Some l => String.eqb l c
          | None => false
          end)
  /\ updateDivVisibilityByLangCode "fr"
       (Some (Element "html" []
          [Element "div"
             [("class", "bloom-translationGroup");
              ("data-default-languages", "V")]
             [Element "div" [("class", "bloom-editable"); ("lang", "en")] [];
              Element "div" [("class", "bloom-editable"); ("lang", "fr")] []]]))
     = Some (Element "html" []
          [Element "div"
             [("class", "bloom-translationGroup");
              ("data-default-languages", "V")]
             [Element "div" [("class", "bloom-editable"); ("lang", "en")] [];
              Element "div"
                [("class",
                  "bloom-editable bloom-visibility-code-on bloom-content1");
                 ("lang", "fr")] []]]).
Proof.
  split; [reflexivity|]. split; [|split].
  - intros lang c D el. unfold shouldNormallyShowEditable.
    unfold areStringsEqualInvariantCultureIgnoreCase, isDivInL2, isDivInL3.
    change (lowerCaseString "auto") with "auto".
    destruct D as [|first D']; [reflexivity|].
    destruct (String.eqb first "" || String.eqb (lowerCaseString first) "auto");
      [reflexivity|].
    destruct (String.eqb lang c), (Dom.contains "bloom-contentNational1" el),
      (Dom.contains "bloom-contentNational2" el),
      (Js.includes (first :: D') "V"), (Js.includes (first :: D') "L1"),
      (Js.includes (first :: D') "N1"), (Js.includes (first :: D') "L2"),
      (Js.includes (first :: D') "N2"), (Js.includes (first :: D') "L3");
      reflexivity.
  - intros D c el. split;
      [apply updateEditableAttrs_visible | apply updateEditableAttrs_primary].
  - vm_compute. reflexivity.
Qed.

(** C1, as stated, fails when "auto" is only the first of several tokens:
    the code applies the automatic rule and hides a national-language
    editable that rule (b) of the claim would show. *)
Lemma shouldNormallyShowEditable_auto_counterexample :
  shouldNormallyShowEditable "en" (Some ["auto"; "N1"]) "fr"
    [("class", "bloom-editable bloom-contentNational1"); ("lang", "en")]
  = false
  /\ spec_shouldShow "en" ["auto"; "N1"] "fr"
       [("class", "bloom-editable bloom-contentNational1"); ("lang", "en")]
     = true.
Proof. split; vm_compute; reflexivity. Qed.

(** The automatic rule also applies to "AUTO" and to a list that starts
    with an empty token, as in the attribute value ",N1". *)
Example shouldNormallyShowEditable_auto_variants :
  shouldNormallyShowEditable "fr" (Some ["AUTO"]) "fr"
    [("class", "bloom-editable")] = true
  /\ spec_shouldShow "fr" ["AUTO"] "fr" [("class", "bloom-editable")] = false
  /\ shouldNormallyShowEditable "en" (Some (splitCommaSpace ",N1")) "fr"
       [("class", "bloom-editable bloom-contentNational1")] = false.
Proof. repeat split; vm_compute; reflexivity. Qed.

(** ** Substrings and tokens *)

Lemma hasSub_eq (p s : string) :
  Js.hasSub p s
  = String.prefix p s
    || match s with EmptyString => false | String _ s' => Js.hasSub p s' end.
Proof. destruct s; reflexivity. Qed.

Lemma indexOfFrom_hasSub (i : Z) (s p : string) :
  0 <= i -> (0 <=? Js.indexOfFrom i s p) = Js.hasSub p s.
Proof.
  revert i; induction s as [|c s IH]; intros i Hi;
    rewrite indexOfFrom_eq, hasSub_eq.
  - destruct (String.prefix p ""); [now apply Z.leb_le | reflexivity].
  - destruct (String.prefix p (String c s)); [now apply Z.leb_le|].
    apply IH. lia.
Qed.

Lemma contains_hasSub (s p : string) : Js.contains s p = Js.hasSub p s.
Proof. apply indexOfFrom_hasSub. lia. Qed.

Lemma prefix_cons (p : string) (c d : ascii) (s : string) :
  String.prefix (String c p) (String d s)
  = Ascii.eqb c d && String.prefix p s.
Proof.
  simpl. destruct (ascii_dec c d) as [->|N].
  - now rewrite Ascii.eqb_refl.
  - apply Ascii.eqb_neq in N. now rewrite N.
Qed.

Lemma prefix_nil_r (p : string) :
  String.prefix p "" = String.eqb p "".
Proof. now destruct p. Qed.

(** A pattern without white space cannot reach beyond a white-space code
    unit. *)
Lemma prefix_ws_cut (p t s : string) (w : ascii) :
  Dom.validToken p = true -> Dom.isAsciiWhiteSpace w = true ->
  String.prefix p (t ++ String w s) = String.prefix p t.
Proof.
  intros Hp Hw. destruct p as [|c p]; [discriminate|].
  revert c p Hp; induction t as [|d t IH]; intros c p Hp;
    apply validToken_cons in Hp as [Hc Hp].
  - cbn [append]. rewrite prefix_cons, prefix_nil_r.
    destruct (Ascii.eqb_spec c w) as [->|]; [congruence | reflexivity].
  - change (String d t ++ String w s) with (String d (t ++ String w s)).
    rewrite !prefix_cons. destruct (Ascii.eqb c d); [|reflexivity].
    cbn [andb]. destruct p as [|c' p]; [now destruct t|].
    apply IH. unfold Dom.validToken. exact Hp.
Qed.

Lemma split_first_token (c : ascii) (s : string) :
  Dom.isAsciiWhiteSpace c = false ->
  exists t ts rest,
    Dom.splitOnWhiteSpace (String c s) = String c t :: ts
    /\ s = t ++ rest
    /\ (rest = "" \/ exists w r, rest = String w r
                                 /\ Dom.isAsciiWhiteSpace w = true).
Proof.
  revert c; induction s as [|d s IH]; intros c Hc.
  - exists "", [], "". simpl. rewrite Hc. auto.
  - destruct (Dom.isAsciiWhiteSpace d) eqn:Hd.
    + exists "", (Dom.splitOnWhiteSpace s), (String d s).
      rewrite split_cons_space by assumption.
      repeat split. right. now exists d, s.
    + destruct (IH d Hd) as (t & ts & rest & E & S & R).
      exists (String d t), ts, rest.
      rewrite split_cons_cons, E by assumption.
      repeat split; [simpl; now f_equal | exact R].
Qed.

(** A pattern without white space occurs in a string exactly when it
    occurs in one of its tokens. *)
Lemma hasSub_split (p s : string) :
  Dom.validToken p = true ->
  Js.hasSub p s = existsb (Js.hasSub p) (Dom.splitOnWhiteSpace s).
Proof.
  intros Hp.
  assert (String.prefix p "" = false) as P0 by (now destruct p).
  induction s as [|c s IH]; [rewrite hasSub_eq, P0; reflexivity|].
  rewrite hasSub_eq.
  destruct (Dom.isAsciiWhiteSpace c) eqn:Hc.
  - rewrite split_cons_ws by assumption. rewrite <- IH.
    replace (String.prefix p (String c s)) with false; [reflexivity|].
    symmetry. change (String c s) with ("" ++ String c s).
    now rewrite prefix_ws_cut.
  - destruct (split_first_token c s Hc) as (t & ts & rest & E & S & R).
    rewrite E. cbn [existsb]. rewrite (hasSub_eq p (String c t)).
    assert (String.prefix p (String c s) = String.prefix p (String c t)) as ->.
    { destruct R as [->|(w & r & -> & Hw)].
      - rewrite append_nil_r in S. now subst.
      - subst s. change (String c (t ++ String w r))
          with (String c t ++ String w r).
        now apply prefix_ws_cut. }
    rewrite <- orb_assoc. f_equal.
    destruct s as [|d s'].
    + destruct t; [|discriminate]. simpl in E. rewrite Hc in E.
      injection E as <-. rewrite hasSub_eq, P0. reflexivity.
    + destruct (Dom.isAsciiWhiteSpace d) eqn:Hd.
      * rewrite split_cons_space in E by assumption.
        injection E as <- <-.
        rewrite IH, split_cons_ws by assumption.
        rewrite (hasSub_eq p ""), P0. reflexivity.
      * rewrite split_cons_cons in E by assumption.
        destruct (Dom.splitOnWhiteSpace (String d s')) as [|t' ts'] eqn:E'.
        { destruct (split_first_token d s' Hd) as (? & ? & ? & E2 & _).
          rewrite E2 in E'. discriminate. }
        injection E as <- <-. rewrite IH. reflexivity.
Qed.

Lemma existsb_ext_In {A : Type} (f : A -> bool) (l1 l2 : list A) :
  (forall x, In x l1 <-> In x l2) -> existsb f l1 = existsb f l2.
Proof.
  intros H. apply eq_iff_eq_true. rewrite !existsb_exists.
  split; intros (x & Hx & Fx); exists x; split; try assumption; now apply H.
Qed.

Lemma existsb_orderedSet (f : string -> bool) (ts : list string) :
  existsb f (Dom.orderedSet [] ts) = existsb f ts.
Proof.
  apply existsb_ext_In. intros x. rewrite orderedSet_In. simpl. tauto.
Qed.

Lemma existsb_addToken (f : string -> bool) (u : string) (ts : list string) :
  f u = false -> existsb f (Dom.addToken u ts) = existsb f ts.
Proof.
  intros Hu. unfold Dom.addToken. destruct (Dom.mem u ts); [reflexivity|].
  rewrite existsb_app. simpl. now rewrite Hu, !orb_false_r.
Qed.

Lemma existsb_removeToken (f : string -> bool) (u : string)
    (ts : list string) :
  f u = false -> existsb f (Dom.removeToken u ts) = existsb f ts.
Proof.
  intros Hu. unfold Dom.removeToken.
  induction ts as [|x ts IH]; [reflexivity|]. simpl.
  destruct (String.eqb_spec x u) as [->|N]; simpl.
  - now rewrite Hu, IH.
  - now rewrite IH.
Qed.

(** Whether a class attribute contains a pattern without white space,
    read off its token set; and the same for a serialised token list. *)
Lemma contains_className (p : string) (a : Dom.attrs) :
  Dom.validToken p = true ->
  Js.contains (Dom.className a) p = existsb (Js.hasSub p) (Dom.tokens a).
Proof.
  intros Hp. unfold Dom.tokens.
  now rewrite contains_hasSub, hasSub_split, existsb_orderedSet.
Qed.

Lemma contains_serialize (p : string) (ts : list string) :
  Dom.validToken p = true -> Dom.validTokens ts ->
  Js.contains (Dom.serialize ts) p = existsb (Js.hasSub p) ts.
Proof.
  intros Hp Hts.
  now rewrite contains_hasSub, hasSub_split, split_serialize.
Qed.

(** ** Applying the visibility rules twice *)

Lemma Node_induction (P : Node -> Prop) :
  (forall d, P (Text d)) ->
  (forall tag a children, Forall P children -> P (Element tag a children)) ->
  forall n, P n.
Proof.
  intros HT HE. fix IH 1. intros [tag a children|d]; [|apply HT].
  apply HE. induction children as [|x children IHc]; constructor;
    [apply IH | exact IHc].
Qed.

Lemma add_update (u : string) (ts : list string) (a : Dom.attrs) :
  Dom.validTokens ts -> NoDup ts -> Dom.getAttribute "class" a <> None ->
  Dom.add u (Dom.update ts a) = Dom.update (Dom.addToken u ts) a.
Proof.
  intros V N H. unfold Dom.add.
  rewrite tokens_update by assumption. now apply update_update.
Qed.

Lemma remove_update (u : string) (ts : list string) (a : Dom.attrs) :
  Dom.validTokens ts -> NoDup ts -> Dom.getAttribute "class" a <> None ->
  Dom.remove u (Dom.update ts a) = Dom.update (Dom.removeToken u ts) a.
Proof.
  intros V N H. unfold Dom.remove.
  rewrite tokens_update by assumption. now apply update_update.
Qed.

(** The update of an editable as one rewrite of its token set. *)
Lemma updateEditableAttrs_update (D : list string) (c : string)
    (a : Dom.attrs) :
  Dom.getAttribute "class" a <> None ->
  updateEditableAttrs D c a
  = Dom.update (visibilityTokens (shownFor D c a) (primaryFor c a)
                  (Dom.tokens a)) a.
Proof.
  intros H. unfold updateEditableAttrs, visibilityTokens, shownFor, primaryFor.
  pose proof (tokens_valid a) as V. pose proof (tokens_NoDup a) as N.
  assert (Dom.validToken "bloom-visibility-code-on" = true) as Von
    by reflexivity.
  destruct (shouldNormallyShowEditable _ (Some D) c a).
  - change (Dom.add "bloom-visibility-code-on" a)
      with (Dom.update (Dom.addToken "bloom-visibility-code-on" (Dom.tokens a)) a).
    rewrite remove_update;
      [|now apply addToken_valid | now apply addToken_NoDup | exact H].
    assert (Dom.validTokens
              (Dom.removeToken "bloom-visibility-code-off"
                 (Dom.addToken "bloom-visibility-code-on" (Dom.tokens a))))
      as V' by (apply removeToken_valid; now apply addToken_valid).
    assert (NoDup
              (Dom.removeToken "bloom-visibility-code-off"
                 (Dom.addToken "bloom-visibility-code-on" (Dom.tokens a))))
      as N' by (apply removeToken_NoDup; now apply addToken_NoDup).
    destruct (Dom.getAttribute "lang" a) as [l|];
      [destruct (String.eqb l c)|];
      (rewrite add_update by assumption) || (rewrite remove_update by assumption);
      reflexivity.
  - change (Dom.remove "bloom-visibility-code-on" a)
      with (Dom.update (Dom.removeToken "bloom-visibility-code-on" (Dom.tokens a)) a).
    assert (Dom.validTokens
              (Dom.removeToken "bloom-visibility-code-on" (Dom.tokens a)))
      as V' by now apply removeToken_valid.
    assert (NoDup (Dom.removeToken "bloom-visibility-code-on" (Dom.tokens a)))
      as N' by now apply removeToken_NoDup.
    destruct (Dom.getAttribute "lang" a) as [l|];
      [destruct (String.eqb l c)|];
      (rewrite add_update by assumption) || (rewrite remove_update by assumption);
      reflexivity.
Qed.

Lemma visibilityTokens_valid (s p : bool) (ts : list string) :
  Dom.validTokens ts -> Dom.validTokens (visibilityTokens s p ts).
Proof.
  intros V. unfold visibilityTokens.
  destruct s, p;
    repeat (apply addToken_valid || apply removeToken_valid);
    reflexivity || assumption.
Qed.

Lemma visibilityTokens_NoDup (s p : bool) (ts : list string) :
  NoDup ts -> NoDup (visibilityTokens s p ts).
Proof.
  intros V. unfold visibilityTokens.
  destruct s, p;
    repeat (apply addToken_NoDup || apply removeToken_NoDup); assumption.
Qed.

Lemma mem_visibilityTokens (t : string) (s p : bool) (ts : list string) :
  Dom.mem t (visibilityTokens s p ts)
  = if String.eqb t "bloom-content1" then p
    else if String.eqb t "bloom-visibility-code-on" then s
    else if String.eqb t "bloom-visibility-code-off" then
           negb s && Dom.mem t ts
    else Dom.mem t ts.
Proof.
  unfold visibilityTokens.
  destruct s, p;
    repeat (rewrite mem_addToken || rewrite mem_removeToken);
    destruct (String.eqb t "bloom-content1") eqn:E1;
    destruct (String.eqb t "bloom-visibility-code-on") eqn:E2;
    destruct (String.eqb t "bloom-visibility-code-off") eqn:E3;
    cbn [negb andb orb]; try reflexivity;
    apply String.eqb_eq in E2; apply String.eqb_eq in E3; congruence.
Qed.

Lemma visibilityTokens_idem (s p : bool) (ts : list string) :
  visibilityTokens s p (visibilityTokens s p ts) = visibilityTokens s p ts.
Proof.
  set (T := visibilityTokens s p ts).
  assert (forall t, Dom.mem t T = _) as M
    by (intros t; apply (mem_visibilityTokens t s p ts)).
  unfold visibilityTokens at 1.
  destruct s, p.
  - rewrite (addToken_present _ T) by (rewrite M; reflexivity).
    rewrite (removeToken_absent _ T) by (rewrite M; reflexivity).
    apply addToken_present. rewrite M. reflexivity.
  - rewrite (addToken_present _ T) by (rewrite M; reflexivity).
    rewrite (removeToken_absent _ T) by (rewrite M; reflexivity).
    apply removeToken_absent. rewrite M. reflexivity.
  - rewrite (removeToken_absent _ T) by (rewrite M; reflexivity).
    apply addToken_present. rewrite M. reflexivity.
  - rewrite (removeToken_absent _ T) by (rewrite M; reflexivity).
    apply removeToken_absent. rewrite M. reflexivity.
Qed.

Lemma existsb_visibilityTokens (f : string -> bool) (s p : bool)
    (ts : list string) :
  f "bloom-visibility-code-on" = false ->
  f "bloom-visibility-code-off" = false ->
  f "bloom-content1" = false ->
  existsb f (visibilityTokens s p ts) = existsb f ts.
Proof.
  intros H1 H2 H3. unfold visibilityTokens.
  destruct s, p;
    repeat ((rewrite existsb_addToken by assumption)
            || (rewrite existsb_removeToken by assumption));
    reflexivity.
Qed.

Lemma tokens_updateEditableAttrs (D : list string) (c : string)
    (a : Dom.attrs) :
  Dom.getAttribute "class" a <> None ->
  Dom.tokens (updateEditableAttrs D c a)
  = visibilityTokens (shownFor D c a) (primaryFor c a) (Dom.tokens a).
Proof.
  intros H. rewrite updateEditableAttrs_update by assumption.
  apply tokens_update.
  - apply visibilityTokens_valid, tokens_valid.
  - apply visibilityTokens_NoDup, tokens_NoDup.
Qed.

Lemma getAttribute_updateEditableAttrs (name : string) (D : list string)
    (c : string) (a : Dom.attrs) :
  name <> "class" ->
  Dom.getAttribute name (updateEditableAttrs D c a) = Dom.getAttribute name a.
Proof.
  intros N. unfold updateEditableAttrs.
  destruct (shouldNormallyShowEditable _ (Some D) c a);
    destruct (Dom.getAttribute "lang" a) as [l|];
    try destruct (String.eqb l c);
    repeat ((rewrite getAttribute_add by assumption)
            || (rewrite getAttribute_remove by assumption));
    reflexivity.
Qed.

Lemma contains_updateEditableAttrs (t : string) (D : list string)
    (c : string) (a : Dom.attrs) :
  Dom.getAttribute "class" a <> None ->
  Dom.contains t (updateEditableAttrs D c a)
  = if String.eqb t "bloom-content1" then primaryFor c a
    else if String.eqb t "bloom-visibility-code-on" then shownFor D c a
    else if String.eqb t "bloom-visibility-code-off" then
           negb (shownFor D c a) && Dom.contains t a
    else Dom.contains t a.
Proof.
  intros H. unfold Dom.contains.
  rewrite tokens_updateEditableAttrs by assumption.
  apply mem_visibilityTokens.
Qed.

Lemma shownFor_updateEditableAttrs (D D' : list string) (c : string)
    (a : Dom.attrs) :
  Dom.getAttribute "class" a <> None ->
  shownFor D' c (updateEditableAttrs D c a) = shownFor D' c a.
Proof.
  intros H. unfold shownFor, shouldNormallyShowEditable, isDivInL2, isDivInL3.
  rewrite getAttribute_updateEditableAttrs by discriminate.
  rewrite !contains_updateEditableAttrs by assumption.
  reflexivity.
Qed.

Lemma primaryFor_updateEditableAttrs (D : list string) (c : string)
    (a : Dom.attrs) :
  primaryFor c (updateEditableAttrs D c a) = primaryFor c a.
Proof.
  unfold primaryFor. now rewrite getAttribute_updateEditableAttrs by discriminate.
Qed.

Lemma updateEditableAttrs_has_class (D : list string) (c : string)
    (a : Dom.attrs) :
  Dom.getAttribute "class" a <> None ->
  Dom.getAttribute "class" (updateEditableAttrs D c a) <> None.
Proof.
  intros H. rewrite updateEditableAttrs_update by assumption.
  now apply update_has_class.
Qed.

(** Updating an editable a second time, for the same group and the same
    language, changes nothing. *)
Lemma updateEditableAttrs_idem (D : list string) (c : string)
    (a : Dom.attrs) :
  Dom.getAttribute "class" a <> None ->
  updateEditableAttrs D c (updateEditableAttrs D c a)
  = updateEditableAttrs D c a.
Proof.
  intros H.
  rewrite (updateEditableAttrs_update D c (updateEditableAttrs D c a))
    by now apply updateEditableAttrs_has_class.
  rewrite shownFor_updateEditableAttrs, primaryFor_updateEditableAttrs,
    tokens_updateEditableAttrs by assumption.
  rewrite visibilityTokens_idem.
  rewrite (updateEditableAttrs_update D c a) at 1 by assumption.
  rewrite update_update by assumption.
  now rewrite <- updateEditableAttrs_update.
Qed.

Lemma className_has_class (a : Dom.attrs) (v : string) :
  Dom.getAttribute "class" a = Some v -> Dom.className a = v.
Proof. intros H. unfold Dom.className. now rewrite H. Qed.

(** The update of an editable does not make it a translation group, nor
    stop it from being one, and leaves its default languages alone. *)
Lemma isTranslationGroup_updateEditableAttrs (tag : string)
    (D : list string) (c : string) (a : Dom.attrs) :
  Dom.getAttribute "class" a <> None ->
  isTranslationGroup tag (updateEditableAttrs D c a)
  = isTranslationGroup tag a.
Proof.
  intros H. unfold isTranslationGroup. f_equal.
  pose proof (updateEditableAttrs_has_class D c a H) as H'.
  destruct (Dom.getAttribute "class" a) as [v|] eqn:G; [|contradiction].
  destruct (Dom.getAttribute "class" (updateEditableAttrs D c a)) as [v'|] eqn:G';
    [|contradiction].
  rewrite <- (className_has_class _ _ G), <- (className_has_class _ _ G').
  rewrite !contains_className by reflexivity.
  rewrite tokens_updateEditableAttrs by (rewrite G; discriminate).
  apply existsb_visibilityTokens; reflexivity.
Qed.

Lemma dataDefaultLangsOf_updateEditableAttrs (D : list string) (c : string)
    (a : Dom.attrs) :
  dataDefaultLangsOf (updateEditableAttrs D c a) = dataDefaultLangsOf a.
Proof.
  unfold dataDefaultLangsOf.
  now rewrite getAttribute_updateEditableAttrs by discriminate.
Qed.

Lemma updateEditable_idem (D : list string) (c : string) (n : Node) :
  updateEditable D c (updateEditable D c n) = updateEditable D c n.
Proof.
  destruct n as [tag a children|d]; [|reflexivity]. simpl.
  destruct (Dom.contains "bloom-editable" a) eqn:E; simpl; [|now rewrite E].
  pose proof (contains_has_class _ _ E) as H.
  rewrite contains_updateEditableAttrs by assumption. cbn [String.eqb Ascii.eqb Bool.eqb].
  rewrite E. now rewrite updateEditableAttrs_idem.
Qed.

(** Updating an editable and treating it as a group of its own commute. *)
Lemma updateGroups_updateEditable (D : list string) (c : string) (n : Node) :
  updateGroups c (updateEditable D c n) = updateEditable D c (updateGroups c n).
Proof.
  destruct n as [tag a children|d]; [|reflexivity].
  cbn [updateGroups]. unfold updateEditable.
  destruct (Dom.contains "bloom-editable" a) eqn:E; [|reflexivity].
  pose proof (contains_has_class _ _ E) as H.
  cbn [updateGroups].
  now rewrite isTranslationGroup_updateEditableAttrs,
    dataDefaultLangsOf_updateEditableAttrs by assumption.
Qed.

Lemma updateGroups_idem (c : string) (n : Node) :
  updateGroups c (updateGroups c n) = updateGroups c n.
Proof.
  induction n as [d|tag a children IH] using Node_induction; [reflexivity|].
  assert (map (updateGroups c) (map (updateGroups c) children)
          = map (updateGroups c) children) as Hch.
  { rewrite map_map. apply map_ext_Forall. exact IH. }
  cbn [updateGroups].
  destruct (isTranslationGroup tag a); [|now rewrite Hch].
  f_equal.
  set (D := dataDefaultLangsOf a).
  rewrite (map_map (updateEditable D c) (updateGroups c)).
  rewrite (map_ext _ _ (updateGroups_updateEditable D c)).
  rewrite <- (map_map (updateGroups c) (updateEditable D c)).
  rewrite Hch, map_map.
  apply map_ext. intros x. apply updateEditable_idem.
Qed.

(** C8. Applying [updateDivVisibilityByLangCode] twice in succession, for
    the same active language, leaves the document exactly as applying it
    once: every editable keeps the bloom-visibility-code-on,
    bloom-visibility-code-off and bloom-content1 classes of the first
    pass. *)
Theorem updateDivVisibilityByLangCode_idempotent
    (activeLanguageCode : string) (htmlElement : option Node) :
  match updateDivVisibilityByLangCode activeLanguageCode htmlElement with
  | Some once =>
      updateDivVisibilityByLangCode activeLanguageCode (Some once) = Some once
  | None => htmlElement = None
  end.
Proof.
  destruct htmlElement as [root|]; [|reflexivity].
  unfold updateDivVisibilityByLangCode.
  destruct (String.eqb activeLanguageCode ""); [reflexivity|].
  destruct root as [tag a children|d]; [|reflexivity].
  do 2 f_equal. rewrite map_map. apply map_ext. intros x.
  apply updateGroups_idem.
Qed.

(** ** Page size classes *)

Lemma replace_eq (s p r : string) :
  Js.replace s p r
  = if String.prefix p s then r ++ Js.drop (String.length p) s
    else match s with
         | EmptyString => EmptyString
         | String c s' => String c (Js.replace s' p r)
         end.
Proof. destruct s; reflexivity. Qed.

(** Without an occurrence of the pattern, [replace] returns the string. *)
Lemma replace_absent (s p r : string) :
  Js.hasSub p s = false -> Js.replace s p r = s.
Proof.
  induction s as [|c s IH]; intros H; rewrite replace_eq;
    rewrite hasSub_eq in H; apply orb_false_iff in H as [H1 H2]; rewrite H1.
  - reflexivity.
  - now rewrite IH.
Qed.

Lemma prefix_append_long (p b q : string) :
  (String.length p <= String.length b)%nat ->
  String.prefix p (b ++ q) = String.prefix p b.
Proof.
  revert b; induction p as [|c p IH]; intros b H.
  - destruct b; simpl; now destruct q.
  - destruct b as [|d b]; [simpl in H; lia|].
    change (String d b ++ q) with (String d (b ++ q)).
    rewrite !prefix_cons. rewrite IH; [reflexivity | simpl in H; lia].
Qed.

Lemma append_inv_head (a b c : string) : a ++ b = a ++ c -> b = c.
Proof.
  induction a as [|x a IH]; simpl; [auto|]. intros H. injection H. exact IH.
Qed.

Lemma prefix_true_iff (p s : string) :
  String.prefix p s = true <-> exists t, s = p ++ t.
Proof.
  split; [intros H; eexists; now apply prefix_inv|].
  intros [t ->]. apply prefix_append.
Qed.

Lemma take_append_le (n : nat) (a c : string) :
  (n <= String.length a)%nat -> Js.take n (a ++ c) = Js.take n a.
Proof.
  revert a; induction n as [|n IH]; intros a H; [reflexivity|].
  destruct a as [|x a]; [simpl in H; lia|]. simpl.
  rewrite IH; [reflexivity | simpl in H; lia].
Qed.

(** A word without border does not start inside a shorter string that it
    follows. *)
Lemma noBorder_overlap (w b : string) :
  noBorder w = true ->
  (0 < String.length b < String.length w)%nat ->
  String.prefix w (b ++ w) = false.
Proof.
  intros NB L. destruct (String.prefix w (b ++ w)) eqn:P; [exfalso|reflexivity].
  apply prefix_true_iff in P as [t E].
  unfold noBorder in NB. rewrite forallb_forall in NB.
  specialize (NB (String.length b)).
  assert (In (String.length b) (seq 1 (String.length w - 1))) as I
    by (apply in_seq; lia).
  apply NB, negb_true_iff in I.
  assert (w = b ++ Js.drop (String.length b) w) as W.
  { apply (f_equal (Js.take (String.length b))) in E.
    rewrite take_append, take_append_le in E by lia.
    rewrite E at 1. symmetry. apply take_drop. }
  assert (b ++ w = b ++ (Js.drop (String.length b) w ++ t)) as E'
    by (rewrite <- append_assoc, <- W; exact E).
  apply append_inv_head in E'.
  assert (String.prefix (Js.drop (String.length b) w) w = true) as T
    by (apply prefix_true_iff; now exists t).
  congruence.
Qed.

(** When a word without border ends a string and does not occur before,
    [replace] swaps that ending. *)
Lemma replace_suffix (base w r : string) :
  noBorder w = true -> w <> "" ->
  Js.hasSub w base = false ->
  Js.replace (base ++ w) w r = base ++ r.
Proof.
  intros NB Hw. induction base as [|c base IH]; intros H.
  - cbn [append]. rewrite replace_eq.
    assert (String.prefix w w = true) as -> 
      by (apply prefix_true_iff; exists ""; now rewrite append_nil_r).
    rewrite drop_all by lia. apply append_nil_r.
  - rewrite hasSub_eq in H. apply orb_false_iff in H as [H1 H2].
    change (String c base ++ w) with (String c (base ++ w)).
    rewrite replace_eq.
    assert (String.prefix w (String c (base ++ w)) = false) as ->.
    { change (String c (base ++ w)) with (String c base ++ w).
      destruct (Nat.le_gt_cases (String.length w) (String.length (String c base))).
      - now rewrite prefix_append_long.
      - apply noBorder_overlap; [exact NB | simpl in *; lia]. }
    now rewrite IH.
Qed.

Lemma noWhiteSpace_append (a b : string) :
  Dom.noWhiteSpace (a ++ b) = Dom.noWhiteSpace a && Dom.noWhiteSpace b.
Proof.
  induction a as [|c a IH]; simpl; [reflexivity|].
  now rewrite IH, andb_assoc.
Qed.

Lemma noWhiteSpace_drop (n : nat) (s : string) :
  Dom.noWhiteSpace s = true -> Dom.noWhiteSpace (Js.drop n s) = true.
Proof.
  revert s; induction n as [|n IH]; intros s H; [exact H|].
  destruct s as [|c s]; [reflexivity|]. simpl in *.
  apply andb_prop in H as [_ H]. now apply IH.
Qed.

(** [replace] keeps a class name a class name. *)
Lemma validToken_replace (s p r : string) :
  Dom.validToken s = true -> Dom.validToken r = true ->
  Dom.validToken (Js.replace s p r) = true.
Proof.
  unfold Dom.validToken. intros Hs Hr.
  apply andb_prop in Hs as [Hs1 Hs2]. apply andb_prop in Hr as [Hr1 Hr2].
  apply andb_true_intro. split.
  - rewrite replace_eq. destruct (String.prefix p s).
    + destruct r; [discriminate | reflexivity].
    + destruct s; [discriminate | reflexivity].
  - clear Hs1. induction s as [|c s IH]; rewrite replace_eq.
    + destruct (String.prefix p ""); [|reflexivity].
      rewrite noWhiteSpace_append, Hr2. now rewrite noWhiteSpace_drop.
    + destruct (String.prefix p (String c s)).
      * rewrite noWhiteSpace_append, Hr2. now rewrite noWhiteSpace_drop.
      * simpl in *. apply andb_prop in Hs2 as [-> Hs2]. now apply IH.
Qed.

(** ** The regular-expression matcher *)

Lemma literal_inv (lit : string) (prev : option ascii) (s : string)
    (prev' : option ascii) (s' : string) :
  RegExp.literal lit prev s = Some (prev', s') -> s = lit ++ s'.
Proof.
  revert prev s; induction lit as [|c lit IH]; intros prev s H; simpl in H.
  - now injection H as _ ->.
  - destruct s as [|d s]; [discriminate|].
    destruct (Ascii.eqb_spec c d) as [->|]; [|discriminate].
    simpl. f_equal. now apply (IH (Some d)).
Qed.

Lemma literal_append (lit : string) (prev : option ascii) (s : string) :
  exists prev', RegExp.literal lit prev (lit ++ s) = Some (prev', s).
Proof.
  revert prev; induction lit as [|c lit IH]; intros prev; simpl.
  - now exists prev.
  - rewrite Ascii.eqb_refl. apply IH.
Qed.

(** A lazy repetition that succeeds has consumed code units of the class
    and then satisfied the rest of the pattern. *)
Lemma lazy_inv (p : ascii -> bool) (prev : option ascii) (s : string)
    (k : option ascii -> string -> option RegExp.outcome)
    (r : RegExp.outcome) :
  RegExp.lazy p prev s k = Some r ->
  exists pre s' prev',
    s = pre ++ s' /\ allChars p pre = true /\ k prev' s' = Some r.
Proof.
  revert prev; induction s as [|c s IH]; intros prev H; simpl in H.
  - destruct (k prev "") eqn:K; [|discriminate].
    injection H as <-. now exists "", "", prev.
  - destruct (k prev (String c s)) eqn:K.
    + injection H as <-. now exists "", (String c s), prev.
    + destruct (p c) eqn:Pc; [|discriminate].
      destruct (IH _ H) as (pre & s' & prev' & -> & A & K').
      exists (String c pre), s', prev'. simpl. now rewrite Pc.
Qed.

(** What one attempt of the size-class pattern matches: code units that
    are not white space, then one of the two words. *)
Lemma sizeClassPattern_matchHere (prev : option ascii) (s rest : string)
    (cap : option string) :
  RegExp.matchHere sizeClassPattern prev s = Some (rest, cap) ->
  exists pre word,
    s = pre ++ word ++ rest
    /\ allChars RegExp.nonSpace pre = true
    /\ (word = "Portrait" \/ word = "Landscape").
Proof.
  unfold RegExp.matchHere, sizeClassPattern. cbn [RegExp.run].
  destruct (xorb _ _); [|discriminate]. intros H.
  apply lazy_inv in H as (pre & s' & prev' & -> & A & K).
  exists pre.
  destruct (RegExp.literal "Portrait" prev' s') as [[p1 s1]|] eqn:L1.
  - destruct (xorb (RegExp.isWord p1) (RegExp.isWord (RegExp.head s1))).
    + injection K as <- _. exists "Portrait".
      rewrite (literal_inv _ _ _ _ _ L1); auto.
    + destruct (RegExp.literal "Landscape" prev' s') as [[p2 s2]|] eqn:L2;
        [|discriminate].
      destruct (xorb (RegExp.isWord p2) (RegExp.isWord (RegExp.head s2)));
        [|discriminate].
      injection K as <- _. exists "Landscape".
      rewrite (literal_inv _ _ _ _ _ L2); auto.
  - destruct (RegExp.literal "Landscape" prev' s') as [[p2 s2]|] eqn:L2;
      [|discriminate].
    destruct (xorb (RegExp.isWord p2) (RegExp.isWord (RegExp.head s2)));
      [|discriminate].
    injection K as <- _. exists "Landscape".
    rewrite (literal_inv _ _ _ _ _ L2); auto.
Qed.

(** The match that [exec] reports is a match of one attempt, at the
    position where the text before it ends. *)
Lemma execFrom_inv (r : RegExp.regex) (prev : option ascii) (s : string)
    (m : RegExp.found) :
  RegExp.execFrom r prev s = Some m ->
  exists prev' s0,
    s = RegExp.before m ++ s0
    /\ RegExp.matchHere r prev' s0 = Some (RegExp.after m, RegExp.capture m)
    /\ RegExp.matched m
       = Js.take (String.length s0 - String.length (RegExp.after m)) s0.
Proof.
  revert prev m; induction s as [|c s IH]; intros prev m H; simpl in H.
  - destruct (RegExp.matchHere r prev "") as [[rest cap]|] eqn:M;
      [|discriminate].
    injection H as <-. now exists prev, "".
  - destruct (RegExp.matchHere r prev (String c s)) as [[rest cap]|] eqn:M.
    + injection H as <-. now exists prev, (String c s).
    + destruct (RegExp.execFrom r (Some c) s) as [m'|] eqn:E; [|discriminate].
      injection H as <-. destruct (IH _ _ E) as (prev' & s0 & -> & M' & T).
      now exists prev', s0.
Qed.

Lemma take_append_exact (a b : string) :
  Js.take (String.length (a ++ b) - String.length b) (a ++ b) = a.
Proof.
  rewrite length_append.
  replace (String.length a + String.length b - String.length b)%nat
    with (String.length a) by lia.
  apply take_append.
Qed.

(** The size class of a page, when there is one, is a run of code units
    that are not white space, followed by "Portrait" or "Landscape". *)
Lemma getPageSizeClass_shape (page : Dom.attrs) :
  getPageSizeClass page = ""
  \/ exists pre word,
       getPageSizeClass page = pre ++ word
       /\ allChars RegExp.nonSpace pre = true
       /\ (word = "Portrait" \/ word = "Landscape").
Proof.
  unfold getPageSizeClass, RegExp.exec.
  destruct (RegExp.execFrom sizeClassPattern None (Dom.className page))
    as [m|] eqn:E; [right | now left].
  destruct (execFrom_inv _ _ _ _ E) as (prev' & s0 & S & M & T).
  destruct (sizeClassPattern_matchHere _ _ _ _ M) as (pre & word & -> & A & W).
  exists pre, word. split; [|now split].
  rewrite T, <- append_assoc. apply take_append_exact.
Qed.

Lemma noWhiteSpace_nonSpace (s : string) :
  allChars RegExp.nonSpace s = true -> Dom.noWhiteSpace s = true.
Proof.
  induction s as [|c s IH]; [reflexivity|]. simpl. intros H.
  apply andb_prop in H as [H1 H2]. rewrite IH by assumption.
  rewrite andb_true_r. unfold RegExp.nonSpace, Js.isWhiteSpace in H1.
  unfold Dom.isAsciiWhiteSpace.
  destruct (nat_of_ascii c) as [|[|[|[|[|[|[|[|[|[|[|[|[|[|n]]]]]]]]]]]]]];
    try reflexivity; try discriminate.
  assert ((S (S (S (S (S (S (S (S (S (S (S (S (S (S n))))))))))))) =? 32)%nat
          = (n =? 18)%nat) as E32 by reflexivity.
  cbn [Nat.eqb orb negb] in *.
  destruct (n =? 18)%nat eqn:E; [|reflexivity].
  apply Nat.eqb_eq in E. subst. discriminate.
Qed.

(** The size class of a page is a token that [classList] accepts. *)
Lemma getPageSizeClass_valid (page : Dom.attrs) :
  getPageSizeClass page <> "" ->
  Dom.validToken (getPageSizeClass page) = true.
Proof.
  intros N. destruct (getPageSizeClass_shape page) as [E|(pre & word & E & A & W)];
    [contradiction|].
  unfold Dom.validToken. rewrite E in *.
  apply andb_true_intro. split.
  - now apply negb_true_iff, String.eqb_neq.
  - rewrite noWhiteSpace_append, (noWhiteSpace_nonSpace pre A).
    destruct W as [-> | ->]; reflexivity.
Qed.

(** C5, as amended.  For a page that carries a size class (what
    [getPageSizeClass] finds), and an original page class that is a class
    name when the original page size is asked for: [setPageSizeClass]
    returns [landscape], which is [showLandscape] when the book can rotate
    and otherwise whether the size class ends in "Landscape".  The class
    wanted is Device16x9Landscape or Device16x9Portrait, or, for the
    original page size, the original class with its first "Portrait"
    replaced by "Landscape" when landscape and its first "Landscape" by
    "Portrait" otherwise: that swaps the suffix of a class that holds the
    word only at its end, and keeps a class that lacks it.  A page that
    has another size class loses it and gets the class wanted; its other
    classes stay.  A page with class Device16x9Portrait, asked for
    landscape in a book that can rotate, ends with class
    Device16x9Landscape, and true is returned. *)
Theorem setPageSizeClass_replaces :
  (forall (page : Dom.attrs) (bookCanRotate showLandscape useOriginalPageSize : bool)
          (originalPageClass : string),
     getPageSizeClass page <> "" ->
     (useOriginalPageSize = true -> Dom.validToken originalPageClass = true) ->
     let sizeClass := getPageSizeClass page in
     let landscape :=
       if bookCanRotate then showLandscape
       else Js.endsWith sizeClass "Landscape" in
     let desired :=
       if useOriginalPageSize then
         if landscape then Js.replace originalPageClass "Portrait" "Landscape"
         else Js.replace originalPageClass "Landscape" "Portrait"
       else if landscape then "Device16x9Landscape" else "Device16x9Portrait" in
     exists page',
       setPageSizeClass page bookCanRotate showLandscape useOriginalPageSize
         originalPageClass = Ok (page', landscape)
       /\ (sizeClass = desired -> page' = page)
       /\ (sizeClass <> desired ->
           Dom.contains desired page' = true
           /\ Dom.contains sizeClass page' = false
           /\ forall t, t <> sizeClass -> t <> desired ->
                Dom.contains t page' = Dom.contains t page))
  /\ (forall base : string,
        (Js.hasSub "Portrait" base = false ->
         Js.replace (base ++ "Portrait") "Portrait" "Landscape"
         = base ++ "Landscape")
        /\ (Js.hasSub "Landscape" base = false ->
            Js.replace (base ++ "Landscape") "Landscape" "Portrait"
            = base ++ "Portrait"))
  /\ (forall original : string,
        (Js.hasSub "Portrait" original = false ->
         Js.replace original "Portrait" "Landscape" = original)
        /\ (Js.hasSub "Landscape" original = false ->
            Js.replace original "Landscape" "Portrait" = original))
  /\ (forall originalPageClass : string,
        setPageSizeClass [("class", "Device16x9Portrait")] true true false
          originalPageClass
        = Ok ([("class", "Device16x9Landscape")], true)).
Proof.
  split; [|split; [|split]].
  - intros page b s u orig Hsize Horig sizeClass landscape desired.
    assert (Dom.validToken sizeClass = true) as Vs
      by now apply getPageSizeClass_valid.
    assert (Dom.validToken desired = true) as Vd.
    { unfold desired. destruct u.
      - destruct landscape; apply validToken_replace;
          (now apply Horig) || reflexivity.
      - now destruct landscape. }
    assert (desired = desiredClass landscape u orig) as Ed by reflexivity.
    unfold setPageSizeClass. fold sizeClass. fold landscape. rewrite <- Ed.
    destruct (String.eqb_spec sizeClass "") as [E|_]; [contradiction|].
    destruct (String.eqb_spec sizeClass desired) as [E|N].
    + exists page. split; [reflexivity|]. split; [reflexivity|]. contradiction.
    + unfold Dom.checked.
      unfold Dom.validToken in Vs, Vd.
      apply andb_prop in Vs as [Vs1 Vs2]. apply andb_prop in Vd as [Vd1 Vd2].
      apply negb_true_iff in Vs1, Vd1. rewrite Vs1, Vs2, Vd1, Vd2.
      eexists. split; [reflexivity|]. split; [contradiction|]. intros _.
      assert (Dom.validToken desired = true) as Vd
        by (unfold Dom.validToken; now rewrite Vd1, Vd2).
      repeat split.
      * rewrite contains_add by assumption. now rewrite String.eqb_refl.
      * rewrite contains_add, contains_remove by assumption.
        rewrite String.eqb_refl.
        destruct (String.eqb_spec sizeClass desired); [contradiction|].
        reflexivity.
      * intros t N1 N2. rewrite contains_add, contains_remove by assumption.
        destruct (String.eqb_spec t desired); [contradiction|].
        destruct (String.eqb_spec t sizeClass); [contradiction|].
        reflexivity.
  - intros base. split; intros H; apply replace_suffix;
      reflexivity || discriminate || assumption.
  - intros original. split; apply replace_absent.
  - intros orig. reflexivity.
Qed.

Lemma setPageSizeClass_replaces_witness :
  exists page',
    setPageSizeClass [("class", "bloom-page A5Portrait")] false true true
      "A4Landscape" = Ok (page', false)
    /\ Dom.contains "A4Portrait" page' = true
    /\ Dom.contains "A5Portrait" page' = false.
Proof.
  destruct (proj1 setPageSizeClass_replaces
              [("class", "bloom-page A5Portrait")] false true true
              "A4Landscape") as (page' & R & _ & H).
  - vm_compute. discriminate.
  - reflexivity.
  - exists page'. split; [exact R|].
    destruct H as (A & B & _); [vm_compute; discriminate|].
    split; [exact A | exact B].
Defined.

(** C5, as stated, fails for an original page class that holds
    "Portrait" before its end: the first occurrence is replaced, not the
    suffix, so the class wanted for landscape still ends in "Portrait". *)
Lemma setPageSizeClass_suffix_counterexample :
  setPageSizeClass [("class", "bloom-page A5Portrait")] true true true
    "PortraitCardPortrait"
  = Ok ([("class", "bloom-page LandscapeCardPortrait")], true)
  /\ spec_swapSuffix true "PortraitCardPortrait" = "PortraitCardLandscape".
Proof. split; vm_compute; reflexivity. Qed.

(** An empty original page class, as a book gets whose first page has no
    size class, makes [classList.add] throw; the amended claim leaves
    that case out. *)
Example setPageSizeClass_empty_original :
  setPageSizeClass [("class", "bloom-page A5Portrait")] true true true ""
  = Throw "SyntaxError".
Proof. reflexivity. Qed.

(** ** Walking the document *)

Lemma mapElements_compose (f g : string -> Dom.attrs -> Dom.attrs) (n : Node) :
  Dom.mapElements g (Dom.mapElements f n)
  = Dom.mapElements (fun tag a => g tag (f tag a)) n.
Proof.
  induction n as [d|tag a children IH] using Node_induction; [reflexivity|].
  simpl. f_equal. rewrite map_map. now apply map_ext_Forall.
Qed.

Lemma mapDescendants_compose (f g : string -> Dom.attrs -> Dom.attrs)
    (n : Node) :
  Dom.mapDescendants g (Dom.mapDescendants f n)
  = Dom.mapDescendants (fun tag a => g tag (f tag a)) n.
Proof.
  destruct n as [tag a children|d]; [|reflexivity].
  simpl. f_equal. rewrite map_map. apply map_ext. intros x.
  apply mapElements_compose.
Qed.

Lemma elements_mapElements (f : string -> Dom.attrs -> Dom.attrs) (n : Node) :
  Dom.elements (Dom.mapElements f n) = map (Dom.mapElements f) (Dom.elements n).
Proof.
  induction n as [d|tag a children IH] using Node_induction; [reflexivity|].
  cbn [Dom.mapElements Dom.elements map]. f_equal.
  induction IH as [|x children Hx _ IHc]; [reflexivity|].
  cbn [map flat_map]. now rewrite map_app, Hx, IHc.
Qed.

Lemma descendants_mapDescendants (f : string -> Dom.attrs -> Dom.attrs)
    (n : Node) :
  Dom.descendants (Dom.mapDescendants f n)
  = map (Dom.mapElements f) (Dom.descendants n).
Proof.
  destruct n as [tag a children|d]; [|reflexivity].
  cbn [Dom.mapDescendants Dom.descendants].
  induction children as [|x children IH]; [reflexivity|].
  cbn [map flat_map]. now rewrite map_app, elements_mapElements, IH.
Qed.

Lemma elements_are_elements (n e : Node) :
  In e (Dom.elements n) -> exists tag a children, e = Element tag a children.
Proof.
  induction n as [d|tag a children IH] using Node_induction; [intros []|].
  cbn [Dom.elements]. intros [<-|H]; [now do 3 eexists|].
  apply in_flat_map in H as (x & Hx & He).
  rewrite Forall_forall in IH. now apply (IH x).
Qed.

Lemma attributesOf_mapElements (f : string -> Dom.attrs -> Dom.attrs)
    (tag : string) (a : Dom.attrs) (children : list Node) :
  Dom.attributesOf (Dom.mapElements f (Element tag a children)) = f tag a.
Proof. reflexivity. Qed.

Lemma Forall2_map_r {A B : Type} (P : A -> B -> Prop) (f : A -> B)
    (l : list A) :
  (forall x, In x l -> P x (f x)) -> Forall2 P l (map f l).
Proof.
  induction l as [|x l IH]; intros H; simpl; constructor.
  - apply H. now left.
  - apply IH. intros y Hy. apply H. now right.
Qed.

(** What a rewriting of the elements below a node does to each of them,
    in document order. *)
Lemma mapDescendants_each (f : string -> Dom.attrs -> Dom.attrs)
    (P : Dom.attrs -> Dom.attrs -> Prop) (n : Node) :
  (forall tag a, P a (f tag a)) ->
  Forall2 (fun e e' => P (Dom.attributesOf e) (Dom.attributesOf e'))
    (Dom.descendants n) (Dom.descendants (Dom.mapDescendants f n)).
Proof.
  intros H. rewrite descendants_mapDescendants.
  apply Forall2_map_r. intros e He.
  assert (exists tag a children, e = Element tag a children) as (tag & a & ch & ->).
  { destruct n as [t b children|d]; [|destruct He].
    cbn [Dom.descendants] in He. apply in_flat_map in He as (x & _ & He).
    now apply (elements_are_elements x). }
  apply H.
Qed.

(** ** Background images *)

Lemma quote_dot (c : ascii) : RegExp.quote c = true -> RegExp.dot c = true.
Proof.
  unfold RegExp.quote. intros H. apply orb_prop in H as [H|H];
    apply Ascii.eqb_eq in H; subst; reflexivity.
Qed.




(** ** Resource URLs *)


Lemma getAttribute_fixSrc (name urlPrefix tag : string) (a : Dom.attrs) :
  name <> "src" ->
  Dom.getAttribute name (fixSrc urlPrefix tag a) = Dom.getAttribute name a.
Proof.
  intros N. unfold fixSrc. destruct (Dom.getAttribute "src" a); [|reflexivity].
  now apply getAttribute_setAttribute_other.
Qed.

Lemma contains_fixSrc (t urlPrefix tag : string) (a : Dom.attrs) :
  Dom.contains t (fixSrc urlPrefix tag a) = Dom.contains t a.
Proof.
  unfold Dom.contains, Dom.tokens, Dom.className.
  now rewrite getAttribute_fixSrc by discriminate.
Qed.








(** With a second quoted URL in the same style, the match runs to the last
    quote that a closing parenthesis follows. *)
Example fixBackground_greedy :
  fixBackground "https://host/Book" "div"
    [("style", "background-image:url('a.png');list-style-image:url('b.png')")]
  = [("style", "");
     ("data-background",
      "https://host/Book/a.png');list-style-image:url('b.png");
     ("class", "swiper-lazy")].
Proof. vm_compute. reflexivity. Qed.

(** ** Stylesheets *)

Lemma fold_left_append {A : Type} (f : A -> string) (l : list A)
    (init : string) :
  fold_left (fun acc x => acc ++ f x) l init = init ++ joinAll (map f l).
Proof.
  revert init; induction l as [|x l IH]; intros init; simpl.
  - now rewrite append_nil_r.
  - now rewrite IH, append_assoc.
Qed.

Lemma fold_left_addResult (results : list (option Response))
    (acc : string) (lang : list string) :
  fst (fold_left addResult results (acc, lang))
  = acc ++ joinAll (map dataOf results).
Proof.
  revert acc lang; induction results as [|r results IH]; intros acc lang.
  - simpl. now rewrite append_nil_r.
  - cbn [fold_left map joinAll fold_right].
    fold (joinAll (map dataOf results)).
    destruct r as [r|]; cbn [addResult dataOf].
    + destruct (String.eqb_spec (data r) "") as [E|_].
      * rewrite IH, E. reflexivity.
      * cbn [fst snd]. now rewrite IH, append_assoc.
    + now rewrite IH.
Qed.

Lemma joinAll_app (a b : list string) :
  joinAll (a ++ b) = joinAll a ++ joinAll b.
Proof.
  induction a as [|x a IH]; simpl; [reflexivity|].
  fold (joinAll (a ++ b)). fold (joinAll a). now rewrite IH, append_assoc.
Qed.

Lemma dataOf_httpget (fetch : string -> option string) (url : string) :
  dataOf (httpget fetch url) = fetchedOrEmpty fetch url.
Proof.
  unfold httpget, fetchedOrEmpty. now destruct (fetch (encodeHash url)).
Qed.

(** The first loop: the requests for all links but fonts.css, in document
    order, and the font stylesheet from the fonts.css links. *)
Lemma requestLinks_spec (urlPrefix : string) (fetch : string -> option string)
    (links : list Node) (promises : list (option Response))
    (font : option string) :
  let urls :=
    map (fun link =>
           fullUrl urlPrefix (Dom.getAttribute "href" (Dom.attributesOf link)))
        links in
  requestLinks urlPrefix fetch links promises font
  = ((promises
      ++ map (httpget fetch) (filter (fun h => negb (isFontsCss h)) urls))%list,
     fold_left (fun cur h => makeFontStylesheet fetch h cur)
       (filter isFontsCss urls) font).
Proof.
  revert promises font; induction links as [|link links IH];
    intros promises font; cbn zeta.
  - simpl. now rewrite app_nil_r.
  - cbn [requestLinks map filter]. unfold isFontsCss.
    destruct (Js.endsWith _ "/fonts.css"); cbn [negb]; rewrite IH.
    + reflexivity.
    + cbn [map]. now rewrite <- app_assoc.
Qed.

(** ** Analytics *)

(** The constant is the double nearest to one thousandth: it is within
    half a unit in the last place, 2^-63, of 1/1000. *)
Lemma thousandth_nearest :
  Number.thousandth = S754_finite false 4611686018427388 (-62)
  /\ Z.abs (1000 * 4611686018427388 - 2 ^ 62) <= 1000 / 2
  /\ 2 ^ 52 <= 4611686018427388 < 2 ^ 53.
Proof. repeat split; vm_compute; congruence. Qed.

Lemma totalVideo_storeVideoAnalytics (d : Number.number) (p : PagePlayer) :
  totalVideoDuration (bookInteraction (storeVideoAnalytics d p))
  = if Number.lt d Number.thousandth then totalVideoDuration (bookInteraction p)
    else Number.add (totalVideoDuration (bookInteraction p)) d.
Proof.
  unfold storeVideoAnalytics.
  destruct (Number.lt d Number.thousandth); [reflexivity|].
  cbn zeta. destruct (_ && _); reflexivity.
Qed.

Lemma totalAudio_storeAudioAnalytics (d : Number.number) (p : PagePlayer) :
  totalAudioDuration (bookInteraction (storeAudioAnalytics d p))
  = if Number.lt d Number.thousandth || Number.isNaN d
    then totalAudioDuration (bookInteraction p)
    else Number.add (totalAudioDuration (bookInteraction p)) d.
Proof.
  unfold storeAudioAnalytics.
  destruct (Number.lt d Number.thousandth || Number.isNaN d); [reflexivity|].
  cbn zeta. destruct (isXmatterPage _); [reflexivity|].
  destruct (negb _); reflexivity.
Qed.

(** C9 holds for audio and fails for video at a duration that is not a
    number: [storeAudioAnalytics] ignores it, [storeVideoAnalytics] adds
    it, after which the video total is not a number and is not greater
    than or equal to what it was. *)
Theorem storeVideoAnalytics_nan (player : PagePlayer) :
  storeAudioAnalytics S754_nan player = player
  /\ totalVideoDuration (bookInteraction (storeVideoAnalytics S754_nan player))
     = S754_nan
  /\ Number.ge
       (totalVideoDuration (bookInteraction (storeVideoAnalytics S754_nan player)))
       (totalVideoDuration (bookInteraction player)) = false.
Proof.
  split; [reflexivity|].
  assert (totalVideoDuration
            (bookInteraction (storeVideoAnalytics S754_nan player)) = S754_nan)
    as E.
  { rewrite totalVideo_storeVideoAnalytics.
    change (Number.lt S754_nan Number.thousandth) with false. cbv iota.
    unfold Number.add. now destruct (totalVideoDuration (bookInteraction player)). }
  split; [exact E|]. rewrite E. unfold Number.ge, SFleb.
  now destruct (totalVideoDuration (bookInteraction player)).
Qed.

(** ** The loading error *)

Lemma allChars_append (p : ascii -> bool) (a b : string) :
  allChars p (a ++ b) = allChars p a && allChars p b.
Proof.
  induction a as [|c a IH]; simpl; [reflexivity|].
  now rewrite IH, andb_assoc.
Qed.

(** What [htmlEncode] writes for one code unit holds no angle bracket and
    no code unit of the class. *)
Lemma encoded_char_safe (c : ascii) :
  allChars (fun c => negb ((160 <=? N_of_ascii c) && (N_of_ascii c <=? 39321))%N
                     && negb (Ascii.eqb c "<") && negb (Ascii.eqb c ">"))
    (if needsEncoding c then "&#" ++ decimal (nat_of_ascii c) ++ ";"
     else String c EmptyString) = true.
Proof.
  destruct c as [[|] [|] [|] [|] [|] [|] [|] [|]]; vm_compute; reflexivity.
Qed.

Lemma encodeChars_safe (s : string) :
  allChars (fun c => negb ((160 <=? N_of_ascii c) && (N_of_ascii c <=? 39321))%N
                     && negb (Ascii.eqb c "<") && negb (Ascii.eqb c ">"))
    (encodeChars s) = true.
Proof.
  induction s as [|c s IH]; [reflexivity|].
  cbn [encodeChars]. rewrite allChars_append, IH, andb_true_r.
  apply encoded_char_safe.
Qed.

Lemma allChars_weaken (p q : ascii -> bool) (s : string) :
  (forall c, p c = true -> q c = true) ->
  allChars p s = true -> allChars q s = true.
Proof.
  intros H. induction s as [|c s IH]; [reflexivity|].
  cbn [allChars]. intros A. apply andb_prop in A as [A1 A2].
  now rewrite (H c A1), (IH A2).
Qed.








(** ** The font stylesheet, rewritten *)

Lemma expand_plain_char (c : ascii) (t : string) (m : RegExp.found) :
  Ascii.eqb c "$" = false ->
  RegExp.expand (String c t) m = String c (RegExp.expand t m).
Proof.
  destruct c as [[|] [|] [|] [|] [|] [|] [|] [|]];
    try reflexivity; discriminate.
Qed.

Lemma expand_plain (p t : string) (m : RegExp.found) :
  allChars (fun c => negb (Ascii.eqb c "$")) p = true ->
  RegExp.expand (p ++ t) m = p ++ RegExp.expand t m.
Proof.
  induction p as [|c p IH]; [reflexivity|].
  cbn [allChars]. intros H. apply andb_prop in H as [H1 H2].
  apply negb_true_iff in H1.
  change (String c p ++ t) with (String c (p ++ t)).
  rewrite (expand_plain_char c _ m H1), (IH H2). reflexivity.
Qed.

Lemma allChars_take (p : ascii -> bool) (n : nat) (s : string) :
  allChars p s = true -> allChars p (Js.take n s) = true.
Proof.
  revert n; induction s as [|c s IH]; intros [|n] H; try reflexivity.
  cbn [allChars Js.take] in *. apply andb_prop in H as [H1 H2].
  now rewrite H1, (IH n H2).
Qed.

Lemma allChars_drop (p : ascii -> bool) (n : nat) (s : string) :
  allChars p s = true -> allChars p (Js.drop n s) = true.
Proof.
  revert n; induction s as [|c s IH]; intros [|n] H; try reflexivity;
    try exact H.
  cbn [allChars Js.drop] in *. apply andb_prop in H as [H1 H2].
  now apply IH.
Qed.

Lemma allChars_substring (p : ascii -> bool) (s : string) (a b : Z) :
  allChars p s = true -> allChars p (Js.substring s a b) = true.
Proof.
  intros H. unfold Js.substring. now apply allChars_take, allChars_drop.
Qed.

Lemma replaceAllFrom_ext (fuel : nat) (r : RegExp.regex)
    (f g : RegExp.found -> string) (consumed : string) (prev : option ascii)
    (s : string) :
  (forall m, f m = g m) ->
  RegExp.replaceAllFrom fuel r f consumed prev s
  = RegExp.replaceAllFrom fuel r g consumed prev s.
Proof.
  intros H. revert consumed prev s.
  induction fuel as [|fuel IH]; intros consumed prev s; [reflexivity|].
  cbn [RegExp.replaceAllFrom].
  destruct (RegExp.matchHere r prev s) as [[rest cap]|].
  - cbv zeta.
    destruct (Js.take (String.length s - String.length rest) s);
      rewrite H; [destruct s|]; now rewrite ?IH.
  - destruct s; now rewrite ?IH.
Qed.

(** ** The font pattern *)

Lemma literal_prefix (lit : string) (prev : option ascii) (s : string) :
  String.prefix lit s = false -> RegExp.literal lit prev s = None.
Proof.
  revert prev s; induction lit as [|c lit IH]; intros prev s H.
  - destruct s; discriminate.
  - destruct s as [|d s]; [reflexivity|].
    rewrite prefix_cons in H. cbn [RegExp.literal].
    destruct (Ascii.eqb c d); [|reflexivity]. now apply IH.
Qed.

Lemma matchHere_font_prefix (prev : option ascii) (s : string) :
  String.prefix "src:url(" s = false ->
  RegExp.matchHere fontSrcPattern prev s = None.
Proof.
  intros H. unfold RegExp.matchHere, fontSrcPattern. cbn [RegExp.run].
  now rewrite (literal_prefix _ prev s H).
Qed.

Lemma greedy_here (p : ascii -> bool)
    (k : option ascii -> string -> option RegExp.outcome) (a y : string)
    (r : RegExp.outcome) :
  allChars p a = true ->
  (forall pv, RegExp.greedy p pv y k = Some r) ->
  forall pv, RegExp.greedy p pv (a ++ y) k = Some r.
Proof.
  intros A H. induction a as [|c a IH]; intros pv; [apply H|].
  cbn [allChars] in A. apply andb_prop in A as [A1 A2].
  cbn [append RegExp.greedy]. now rewrite A1, (IH A2).
Qed.

Lemma greedy_stop (p : ascii -> bool)
    (k : option ascii -> string -> option RegExp.outcome) (t : string)
    (pv : option ascii) :
  match t with EmptyString => true | String c _ => negb (p c) end = true ->
  RegExp.greedy p pv t k = k pv t.
Proof.
  destruct t as [|c t]; [reflexivity|]. intros H.
  apply negb_true_iff in H. cbn [RegExp.greedy]. now rewrite H.
Qed.

Lemma greedy_none (p : ascii -> bool)
    (k : option ascii -> string -> option RegExp.outcome) (a t : string) :
  allChars p a = true ->
  match t with EmptyString => true | String c _ => negb (p c) end = true ->
  (forall pv i, k pv (Js.drop i a ++ t) = None) ->
  forall pv, RegExp.greedy p pv (a ++ t) k = None.
Proof.
  intros A T. induction a as [|c a IH]; intros H pv.
  - cbn [append]. rewrite (greedy_stop p k t pv T). apply (H pv 0%nat).
  - cbn [allChars] in A. apply andb_prop in A as [A1 A2].
    cbn [append RegExp.greedy]. rewrite A1.
    rewrite (IH A2 (fun pv i => H pv (S i))). apply (H pv 0%nat).
Qed.

Lemma run_lit (lit : string) (prev prev' : option ascii) (s s' : string)
    (cap : option string) (k : RegExp.cont) :
  RegExp.literal lit prev s = Some (prev', s') ->
  RegExp.run (RegExp.Lit lit) prev s cap k = k prev' s' cap.
Proof. intros H. cbn [RegExp.run]. now rewrite H. Qed.

Lemma run_lit_none (lit : string) (prev : option ascii) (s : string)
    (cap : option string) (k : RegExp.cont) :
  String.prefix lit s = false ->
  RegExp.run (RegExp.Lit lit) prev s cap k = None.
Proof. intros H. cbn [RegExp.run]. now rewrite (literal_prefix lit prev s H). Qed.

Lemma run_opt_take (p : ascii -> bool) (prev : option ascii) (c : ascii)
    (s : string) (cap : option string) (k : RegExp.cont)
    (r : RegExp.outcome) :
  p c = true -> k (Some c) s cap = Some r ->
  RegExp.run (RegExp.Opt p) prev (String c s) cap k = Some r.
Proof. intros P K. cbn [RegExp.run]. now rewrite P, K. Qed.

Lemma run_opt_skip (p : ascii -> bool) (prev : option ascii) (s : string)
    (cap : option string) (k : RegExp.cont) :
  match s with EmptyString => true | String c _ => negb (p c) end = true ->
  RegExp.run (RegExp.Opt p) prev s cap k = k prev s cap.
Proof.
  destruct s as [|c s]; [reflexivity|]. intros H.
  apply negb_true_iff in H. cbn [RegExp.run]. now rewrite H.
Qed.

(** No text without a dot at its start continues the capture. *)
Lemma drop_no_dot (a t : string) (i : nat) :
  allChars (fun c => RegExp.dot c && negb (Ascii.eqb c ".")) a = true ->
  FontSheet.atLineEnd t = true ->
  String.prefix "." (Js.drop i a ++ t) = false.
Proof.
  intros A T. revert i; induction a as [|c a IH]; intros i.
  - rewrite drop_nil. cbn [append]. destruct t as [|h t]; [reflexivity|].
    rewrite prefix_cons. cbn [FontSheet.atLineEnd] in T.
    destruct (Ascii.eqb_spec "." h) as [<-|]; [discriminate | reflexivity].
  - cbn [allChars] in A. apply andb_prop in A as [A1 A2].
    destruct i as [|i]; [|apply (IH A2)].
    cbn [Js.drop append]. rewrite prefix_cons.
    apply andb_prop in A1 as [_ A1]. apply negb_true_iff in A1.
    rewrite Ascii.eqb_sym, A1. reflexivity.
Qed.

Lemma quoteText_closing (q : option ascii) (after : string)
    (p : ascii -> bool) :
  FontSheet.isQuote q = true ->
  (forall c, RegExp.quote c = true -> p c = false) ->
  p ")"%char = false ->
  match FontSheet.quoteText q ++ ")" ++ after with
  | EmptyString => true
  | String c _ => negb (p c)
  end = true.
Proof.
  intros Q H P. destruct q as [c|]; cbn [FontSheet.quoteText append].
  - now rewrite (H c Q).
  - now rewrite P.
Qed.

(** The end of the pattern, from the optional closing quote on. *)
Lemma run_closing (q : option ascii) (after : string) (pv : option ascii)
    (cap : option string) :
  FontSheet.isQuote q = true ->
  RegExp.run (RegExp.Seq (RegExp.Opt RegExp.quote) (RegExp.Lit ")")) pv
    (FontSheet.quoteText q ++ ")" ++ after) cap
    (fun _ s' cap' => Some (s', cap'))
  = Some (after, cap).
Proof.
  intros Q. cbn [RegExp.run]. destruct q as [c|];
    cbn [FontSheet.quoteText append FontSheet.isQuote] in *.
  - rewrite Q. reflexivity.
  - reflexivity.
Qed.

(** The capture and what follows it, for a file name at the start. *)
Lemma run_capture (r : FontSheet.Reference) (after : string)
    (pv : option ascii) :
  FontSheet.wellFormed r = true -> FontSheet.atLineEnd after = true ->
  RegExp.run
    (RegExp.Seq
       (RegExp.Group
          (RegExp.Seq (RegExp.Star RegExp.dot)
             (RegExp.Seq (RegExp.Lit ".")
                (RegExp.Star RegExp.notParenQuote))))
       (RegExp.Seq (RegExp.Opt RegExp.quote) (RegExp.Lit ")")))
    pv
    (FontSheet.fileName r ++ FontSheet.quoteText (FontSheet.closeQuote r)
     ++ ")" ++ FontSheet.lineEnd r ++ after)
    None (fun _ s' cap => Some (s', cap))
  = Some (FontSheet.lineEnd r ++ after, Some (FontSheet.fileName r)).
Proof.
  intros W T. unfold FontSheet.wellFormed in W.
  repeat (apply andb_prop in W as [W ?]).
  rename H into Hend, H0 into Hline, H1 into Hext, H2 into Hbase,
    H3 into Hclose, H4 into Hopen.
  set (y := FontSheet.quoteText (FontSheet.closeQuote r) ++ ")"
            ++ FontSheet.lineEnd r ++ after).
  set (s0 := FontSheet.fileName r ++ y).
  cbn [RegExp.run].
  set (kD := fun (prev' : option ascii) (s' : string) =>
               match RegExp.literal "." prev' s' with
               | Some (prev'0, s'0) => _
               | None => None
               end).
  assert (forall p1 s1, String.prefix "." s1 = false -> kD p1 s1 = None)
    as kD_none.
  { intros p1 s1 H. unfold kD. now rewrite (literal_prefix "." p1 s1 H). }
  assert (forall p1,
            kD p1 ("." ++ FontSheet.extension r ++ y)
            = Some (FontSheet.lineEnd r ++ after,
                    Some (Js.take (String.length s0 - String.length y) s0)))
    as kD_some.
  { intros p1. unfold kD. cbn [append RegExp.literal Ascii.eqb Bool.eqb andb].
    cbv iota.
    apply greedy_here.
    - revert Hext. apply allChars_weaken. intros c H.
      apply andb_prop in H as [H _]. now apply andb_prop in H as [_ H].
    - intros p2. rewrite greedy_stop.
      + destruct (FontSheet.closeQuote r) as [c|] eqn:Q;
          cbn [FontSheet.isQuote] in Hclose; unfold y; rewrite ?Q;
          cbn [FontSheet.quoteText append].
        * rewrite Hclose. reflexivity.
        * reflexivity.
      + unfold y. apply quoteText_closing; [exact Hclose| |reflexivity].
        intros c Hc. unfold RegExp.notParenQuote. rewrite Hc.
        now rewrite orb_true_r. }
  unfold s0 at 1. unfold FontSheet.fileName at 1.
  rewrite append_assoc.
  rewrite (greedy_here RegExp.dot kD (FontSheet.base r)
             ("." ++ FontSheet.extension r ++ y)
             (FontSheet.lineEnd r ++ after,
              Some (Js.take (String.length s0 - String.length y) s0))).
  - unfold s0. now rewrite take_append_exact.
  - revert Hbase. apply allChars_weaken. intros c H.
    now apply andb_prop in H as [H _].
  - intros p1. cbn [append RegExp.greedy].
    change (RegExp.dot "."%char) with true. cbv iota.
    assert (RegExp.greedy RegExp.dot (Some "."%char)
              (FontSheet.extension r ++ y) kD = None) as ->.
    { unfold y. rewrite <- !append_assoc.
      rewrite !append_assoc.
      replace (FontSheet.extension r
               ++ FontSheet.quoteText (FontSheet.closeQuote r) ++ ")"
               ++ FontSheet.lineEnd r ++ after)
        with ((FontSheet.extension r
               ++ FontSheet.quoteText (FontSheet.closeQuote r) ++ ")"
               ++ FontSheet.lineEnd r) ++ after)
        by now rewrite !append_assoc.
      assert (allChars (fun c => RegExp.dot c && negb (Ascii.eqb c "."))
                (FontSheet.extension r
                 ++ FontSheet.quoteText (FontSheet.closeQuote r) ++ ")"
                 ++ FontSheet.lineEnd r) = true) as A.
      { rewrite !allChars_append, Hline.
        assert (allChars (fun c => RegExp.dot c && negb (Ascii.eqb c "."))
                  (FontSheet.extension r) = true) as ->.
        { revert Hext. apply allChars_weaken. intros c H.
          apply andb_prop in H as [H H2]. apply andb_prop in H as [H _].
          now rewrite H, H2. }
        destruct (FontSheet.closeQuote r) as [c|];
          cbn [FontSheet.isQuote FontSheet.quoteText allChars] in *;
          [|reflexivity].
        rewrite (quote_dot c Hclose).
        unfold RegExp.quote in Hclose. apply orb_prop in Hclose as [E|E];
          apply Ascii.eqb_eq in E; subst c; reflexivity. }
      apply greedy_none.
      - revert A. apply allChars_weaken. intros c H.
        now apply andb_prop in H as [H _].
      - exact T.
      - intros pv' i. apply kD_none. now apply drop_no_dot. }
    apply kD_some.
Qed.

(** One attempt at a well-formed reference matches it up to its closing
    parenthesis and captures the file name. *)
Lemma matchHere_reference (r : FontSheet.Reference) (after : string)
    (prev : option ascii) :
  FontSheet.wellFormed r = true -> FontSheet.atLineEnd after = true ->
  RegExp.matchHere fontSrcPattern prev
    ("src:url(" ++ FontSheet.quoteText (FontSheet.openQuote r)
     ++ FontSheet.fileName r ++ FontSheet.quoteText (FontSheet.closeQuote r)
     ++ ")" ++ FontSheet.lineEnd r ++ after)
  = Some (FontSheet.lineEnd r ++ after, Some (FontSheet.fileName r)).
Proof.
  intros W T. pose proof W as W'. unfold FontSheet.wellFormed in W'.
  repeat (apply andb_prop in W' as [W' ?]).
  rename H2 into Hbase, H4 into Hopen.
  unfold RegExp.matchHere, fontSrcPattern.
  change (RegExp.run (RegExp.Seq ?a ?b) ?p ?s ?c ?k)
    with (RegExp.run a p s c (fun p' s' c' => RegExp.run b p' s' c' k)).
  destruct (literal_append "src:url(" prev
              (FontSheet.quoteText (FontSheet.openQuote r)
               ++ FontSheet.fileName r
               ++ FontSheet.quoteText (FontSheet.closeQuote r)
               ++ ")" ++ FontSheet.lineEnd r ++ after)) as [prev' L].
  rewrite (run_lit _ _ _ _ _ _ _ L).
  change (RegExp.run (RegExp.Seq ?a ?b) ?p ?s ?c ?k)
    with (RegExp.run a p s c (fun p' s' c' => RegExp.run b p' s' c' k)).
  destruct (FontSheet.openQuote r) as [c|];
    cbn [FontSheet.quoteText FontSheet.isQuote append] in *.
  - apply run_opt_take; [exact Hopen|]. now apply run_capture.
  - rewrite run_opt_skip; [now apply run_capture|].
    unfold FontSheet.fileName.
    destruct (FontSheet.base r) as [|b base]; [reflexivity|].
    cbn [allChars] in Hbase. apply andb_prop in Hbase as [Hb _].
    apply andb_prop in Hb as [_ Hb]. exact Hb.
Qed.

(** The text [src:url(] does not overlap itself: it cannot begin in a text
    that does not start with it and end in a text that starts with the
    letter s, or that is at the end of a line. *)
Lemma no_overlap (x X : string) :
  x <> "" -> String.prefix "src:url(" x = false ->
  match X with
  | EmptyString => true
  | String h _ => negb (Js.hasSub (String h "") "rc:url(")
  end = true ->
  String.prefix "src:url(" (x ++ X) = false.
Proof.
  intros N P HX.
  assert (forall c p, Js.hasSub (String c "") "rc:url(" = true ->
            String.prefix (String c p) X = false) as F.
  { intros c p Hc. destruct X as [|h X']; [reflexivity|].
    rewrite prefix_cons. destruct (Ascii.eqb_spec c h) as [<-|]; [|reflexivity].
    rewrite Hc in HX. discriminate. }
  destruct x as [|c1 [|c2 [|c3 [|c4 [|c5 [|c6 [|c7 [|c8 x]]]]]]]];
    [now elim N| | | | | | | |];
    cbn [append]; rewrite !prefix_cons;
    try (rewrite F by reflexivity; now rewrite ?andb_false_r).
  rewrite !prefix_cons in P.
  assert (forall s, String.prefix "" s = true) as E by now intros [|? ?].
  rewrite E in *. exact P.
Qed.

Lemma hasSub_drop (p s : string) (i : nat) :
  Js.hasSub p s = false -> Js.hasSub p (Js.drop i s) = false.
Proof.
  revert i; induction s as [|c s IH]; intros i H.
  - now rewrite drop_nil.
  - destruct i as [|i]; [exact H|]. cbn [Js.drop]. apply IH.
    rewrite hasSub_eq in H. now apply orb_false_iff in H as [_ H].
Qed.

Lemma drop_nonempty (s : string) (i : nat) :
  (i < String.length s)%nat -> Js.drop i s <> "".
Proof.
  revert i; induction s as [|c s IH]; intros i H; [simpl in H; lia|].
  destruct i as [|i]; [discriminate|]. cbn [Js.drop]. apply IH.
  simpl in H. lia.
Qed.

(** No match begins in a text without [src:url(] that such a text
    follows. *)
Lemma no_match_before (a X : string) :
  Js.hasSub "src:url(" a = false ->
  match X with
  | EmptyString => true
  | String h _ => negb (Js.hasSub (String h "") "rc:url(")
  end = true ->
  forall i, (i < String.length a)%nat ->
    String.prefix "src:url(" (Js.drop i a ++ X) = false.
Proof.
  intros H HX i Hi. apply no_overlap; [now apply drop_nonempty| |exact HX].
  pose proof (hasSub_drop _ _ i H) as D. rewrite hasSub_eq in D.
  now apply orb_false_iff in D as [D _].
Qed.

Lemma atLineEnd_no_overlap (X : string) :
  FontSheet.atLineEnd X = true ->
  match X with
  | EmptyString => true
  | String h _ => negb (Js.hasSub (String h "") "rc:url(")
  end = true.
Proof.
  destruct X as [|h X]; [reflexivity|]. cbn [FontSheet.atLineEnd].
  intros H. apply negb_true_iff in H. apply negb_true_iff.
  destruct (Js.hasSub (String h "") "rc:url(") eqn:E; [|reflexivity].
  assert (RegExp.dot h = true); [|congruence].
  cbn in E.
  repeat match type of E with
         | context [ascii_dec h ?c] =>
             destruct (ascii_dec h c) as [->|_]; [reflexivity|]
         end.
  discriminate.
Qed.

(** The search passes over a text in which no match begins. *)
Lemma replaceAllFrom_skip (f : RegExp.found -> string) (a X : string) :
  (forall i, (i < String.length a)%nat ->
     String.prefix "src:url(" (Js.drop i a ++ X) = false) ->
  forall fuel consumed prev, (String.length a <= fuel)%nat ->
    exists consumed' prev',
      RegExp.replaceAllFrom fuel fontSrcPattern f consumed prev (a ++ X)
      = a ++ RegExp.replaceAllFrom (fuel - String.length a) fontSrcPattern f
               consumed' prev' X.
Proof.
  induction a as [|c a IH]; intros H fuel consumed prev Hf.
  - exists consumed, prev. cbn [append String.length]. now rewrite Nat.sub_0_r.
  - destruct fuel as [|fuel]; [simpl in Hf; lia|].
    cbn [append RegExp.replaceAllFrom].
    rewrite (matchHere_font_prefix prev (String c (a ++ X)))
      by (apply (H 0%nat); simpl; lia).
    destruct (IH (fun i Hi => H (S i) (proj1 (Nat.succ_lt_mono _ _) Hi))
                fuel (consumed ++ String c "") (Some c))
      as (consumed' & prev' & E); [simpl in Hf; lia|].
    exists consumed', prev'. rewrite E. reflexivity.
Qed.

Lemma length_text_reference (r : FontSheet.Reference) (T : string) :
  String.length (FontSheet.referenceText r ++ T)
  = (String.length (FontSheet.textBefore r)
     + String.length ("src:url(" ++ FontSheet.quoteText (FontSheet.openQuote r)
                      ++ FontSheet.fileName r
                      ++ FontSheet.quoteText (FontSheet.closeQuote r) ++ ")")
     + String.length (FontSheet.lineEnd r) + String.length T)%nat.
Proof.
  unfold FontSheet.referenceText.
  repeat (rewrite length_append || cbn [String.length append]). lia.
Qed.

(** The replacement of all matches in a well-formed font stylesheet makes
    every reference absolute. *)
Lemma replaceAllFrom_sheet (folder : string)
    (references : list FontSheet.Reference) (rest : string) :
  FontSheet.wellFormedSheet references rest = true ->
  forall fuel consumed prev,
    (String.length (FontSheet.text references rest) < fuel)%nat ->
    RegExp.replaceAllFrom fuel fontSrcPattern
      (fun m => "src:url('" ++ folder ++ "/"
                ++ match RegExp.capture m with Some c => c | None => "" end
                ++ "')")
      consumed prev (FontSheet.text references rest)
    = FontSheet.absolute folder references rest.
Proof.
  set (f := fun m : RegExp.found => _).
  induction references as [|r references IH];
    cbn [FontSheet.wellFormedSheet FontSheet.text FontSheet.absolute];
    intros W fuel consumed prev Hf.
  - apply negb_true_iff in W.
    destruct (replaceAllFrom_skip f rest ""
                (no_match_before rest "" W eq_refl) fuel consumed prev)
      as (consumed' & prev' & E); [lia|].
    rewrite append_nil_r in E. rewrite E.
    destruct (fuel - String.length rest)%nat; cbn; apply append_nil_r.
  - apply andb_prop in W as [W Ws]. apply andb_prop in W as [Wr Wl].
    pose proof Wr as Wr'. unfold FontSheet.wellFormed in Wr'.
    repeat (apply andb_prop in Wr' as [Wr' ?]).
    apply negb_true_iff in Wr'. rename H into Hend.
    apply negb_true_iff in Hend.
    set (T := FontSheet.text references rest) in *.
    pose proof (length_text_reference r T) as Len.
    set (D := "src:url(" ++ FontSheet.quoteText (FontSheet.openQuote r)
              ++ FontSheet.fileName r
              ++ FontSheet.quoteText (FontSheet.closeQuote r) ++ ")") in *.
    assert (FontSheet.referenceText r ++ T
            = FontSheet.textBefore r ++ D ++ FontSheet.lineEnd r ++ T) as S.
    { unfold FontSheet.referenceText, D. now rewrite !append_assoc. }
    rewrite S.
    destruct (replaceAllFrom_skip f (FontSheet.textBefore r)
                (D ++ FontSheet.lineEnd r ++ T)
                (no_match_before (FontSheet.textBefore r)
                   (D ++ FontSheet.lineEnd r ++ T) Wr' eq_refl)
                fuel consumed prev)
      as (c1 & p1 & E1); [lia|].
    rewrite E1. clear E1.
    assert (1 <= String.length D)%nat as LD by (unfold D; simpl; lia).
    destruct (fuel - String.length (FontSheet.textBefore r))%nat
      as [|fuel1] eqn:F1; [lia|].
    cbn [RegExp.replaceAllFrom].
    assert (D ++ FontSheet.lineEnd r ++ T
            = "src:url(" ++ FontSheet.quoteText (FontSheet.openQuote r)
              ++ FontSheet.fileName r
              ++ FontSheet.quoteText (FontSheet.closeQuote r) ++ ")"
              ++ FontSheet.lineEnd r ++ T) as SD.
    { unfold D. now rewrite !append_assoc. }
    pose proof (matchHere_reference r T p1 Wr Wl) as M.
    rewrite <- SD in M. rewrite M. cbv zeta.
    assert (Js.take (String.length (D ++ FontSheet.lineEnd r ++ T)
                     - String.length (FontSheet.lineEnd r ++ T))
              (D ++ FontSheet.lineEnd r ++ T) = D) as ->
      by apply take_append_exact.
    assert (exists d D', D = String d D') as (d & D' & ED)
      by (unfold D; cbn [append]; now do 2 eexists).
    clearbody D. subst D. cbv iota.
    destruct (replaceAllFrom_skip f (FontSheet.lineEnd r) T
                (no_match_before _ _ Hend (atLineEnd_no_overlap T Wl))
                fuel1 (c1 ++ String d D') (Js.lastChar (String d D')))
      as (c2 & p2 & E2); [lia|].
    rewrite E2.
    rewrite (IH Ws) by lia.
    unfold f at 1. cbn [RegExp.capture].
    unfold FontSheet.absoluteText. now rewrite !append_assoc.
Qed.

(** C4, as amended.  The combined stylesheet is the text of the embedded
    style elements in document order, followed by the contents of the
    linked stylesheets in document order, followed by the legacy quiz
    stylesheet when the legacy question handler supplies one.  A link whose
    resolved URL ends in "/fonts.css" is not requested for the
    concatenation; its content, once fetched, becomes the text of the font
    style element, its font references made absolute against the folder
    of the stylesheet: for a folder without a dollar sign and a stylesheet
    of well-formed references, every [src:url(name)], quoted or not,
    becomes [src:url('folder/name')] and the text around the references
    stays.  A stylesheet whose fetch fails adds nothing, and the component
    ends not loading, with no failure recorded.  With a link to fonts.css
    and one to custom.css, the combined stylesheet is the content of
    custom.css, and the content of fonts.css goes to the font style
    element. *)
Theorem assembleStyleSheets_combined (urlPrefix : string)
    (fetch : string -> option string) :
  (forall (quizCss : option (option Response)) (font : option string)
          (doc : Node) (state : IState),
     let r := assembleStyleSheets urlPrefix fetch quizCss font doc state in
     styleRules (assembledState r)
     = embeddedStyles doc ++ linkedStyles urlPrefix fetch doc
       ++ quizStyles quizCss
     /\ isLoading (assembledState r) = false
     /\ loadFailed (assembledState r) = loadFailed state
     /\ fontStyleSheet r
        = fold_left (fun cur h => makeFontStylesheet fetch h cur)
            (filter isFontsCss (styleLinkUrls urlPrefix doc)) font)
  /\ (forall (folder : string) (references : list FontSheet.Reference)
             (rest : string) (font : option string),
        allChars (fun c => negb (Ascii.eqb c "$")) folder = true ->
        FontSheet.wellFormedSheet references rest = true ->
        fetch (encodeHash (folder ++ "/fonts.css"))
        = Some (FontSheet.text references rest) ->
        makeFontStylesheet fetch (folder ++ "/fonts.css") font
        = Some (FontSheet.absolute folder references rest))
  /\ (forall (url : string) (font : option string),
        fetch (encodeHash url) = None ->
        fetchedOrEmpty fetch url = ""
        /\ makeFontStylesheet fetch url font = font)
  /\ (forall (font : option string) (state : IState),
        let doc :=
          Element "html" []
            [Element "head" []
               [Element "link" [("href", "fonts.css"); ("type", "text/css")] [];
                Element "link" [("href", "custom.css"); ("type", "text/css")] []]] in
        let r := assembleStyleSheets urlPrefix fetch None font doc state in
        styleRules (assembledState r)
        = fetchedOrEmpty fetch (urlPrefix ++ "/custom.css")
        /\ fontStyleSheet r
           = makeFontStylesheet fetch (urlPrefix ++ "/fonts.css") font).
Proof.
  assert (forall (quizCss : option (option Response)) (font : option string)
          (doc : Node) (state : IState),
     let r := assembleStyleSheets urlPrefix fetch quizCss font doc state in
     styleRules (assembledState r)
     = embeddedStyles doc ++ linkedStyles urlPrefix fetch doc
       ++ quizStyles quizCss
     /\ isLoading (assembledState r) = false
     /\ loadFailed (assembledState r) = loadFailed state
     /\ fontStyleSheet r
        = fold_left (fun cur h => makeFontStylesheet fetch h cur)
            (filter isFontsCss (styleLinkUrls urlPrefix doc)) font) as General.
  { intros quizCss font doc state r. unfold r, assembleStyleSheets.
    rewrite requestLinks_spec. cbn [app].
    fold (styleLinkUrls urlPrefix doc).
    rewrite fold_left_append. cbn [append].
    fold (embeddedStyles doc).
    set (results := match quizCss with
                    | Some p => (_ ++ [p])%list
                    | None => _
                    end).
    pose proof (fold_left_addResult results (embeddedStyles doc) []) as F.
    destruct (fold_left addResult results (embeddedStyles doc, []))
      as [combined language].
    cbn [fst] in F. cbn [assembledState styleRules isLoading loadFailed fontStyleSheet].
    repeat split. rewrite F. f_equal. unfold results, linkedStyles.
    assert (forall l, map dataOf (map (httpget fetch) l)
                      = map (fetchedOrEmpty fetch) l) as D
      by (intros l; rewrite map_map; apply map_ext, dataOf_httpget).
    destruct quizCss as [[q|]|]; rewrite ?map_app, ?joinAll_app, D;
      cbn [map dataOf joinAll fold_right quizStyles];
      rewrite ?append_nil_r; reflexivity. }
  split; [exact General|]. split; [|split].
  - intros folder references rest font Hd W H.
    unfold makeFontStylesheet, httpget. rewrite H. cbn [data]. f_equal.
    rewrite len_append.
    replace (Js.len folder + Js.len "/fonts.css" - Js.len "/fonts.css")
      with (Js.len folder) by lia.
    rewrite substring_prefix. unfold RegExp.replaceAll.
    rewrite (replaceAllFrom_ext _ _ _
               (fun m => "src:url('" ++ folder ++ "/"
                         ++ match RegExp.capture m with
                            | Some c => c | None => "" end
                         ++ "')")).
    + apply replaceAllFrom_sheet; [exact W | lia].
    + intros m.
      change ("src:url('" ++ folder ++ "/$1')")
        with ("src:url('" ++ (folder ++ "/$1')")).
      rewrite (expand_plain "src:url('") by reflexivity.
      now rewrite (expand_plain folder) by exact Hd.
  - intros url font H. unfold fetchedOrEmpty, makeFontStylesheet, httpget.
    now rewrite H.
  - intros font state doc r.
    destruct (General None font doc state) as (S & _ & _ & Fo). fold r in S, Fo.
    assert (styleLinkUrls urlPrefix doc
            = [urlPrefix ++ "/fonts.css"; urlPrefix ++ "/custom.css"]) as U
      by reflexivity.
    assert (isFontsCss (urlPrefix ++ "/fonts.css") = true) as F1
      by apply endsWith_append.
    assert (isFontsCss (urlPrefix ++ "/custom.css") = false) as F2
      by (unfold isFontsCss; rewrite endsWith_append_long;
          [reflexivity | simpl; lia]).
    split.
    + rewrite S. unfold linkedStyles. rewrite U. cbn [filter].
      rewrite F1, F2. cbn [negb map joinAll fold_right quizStyles].
      change (embeddedStyles doc) with "". cbn [append].
      now rewrite !append_nil_r.
    + rewrite Fo, U. cbn [filter]. rewrite F1, F2. reflexivity.
Qed.

Lemma assembleStyleSheets_combined_witness :
  makeFontStylesheet
    (fun url =>
       if String.eqb url "https://host/Book/fonts.css"
       then Some ("@font-face {font-family:'Andika'; src:url('Andika-R.ttf') format('opentype');}"
                  ++ String "010"
                       "@font-face {font-family:'Andika'; font-weight:bold; src:url(Andika-B.ttf)}")
       else None)
    ("https://host/Book" ++ "/fonts.css") None
  = Some ("@font-face {font-family:'Andika'; src:url('https://host/Book/Andika-R.ttf') format('opentype');}"
          ++ String "010"
               "@font-face {font-family:'Andika'; font-weight:bold; src:url('https://host/Book/Andika-B.ttf')}").
Proof.
  destruct (assembleStyleSheets_combined "https://host/Book"
    (fun url =>
       if String.eqb url "https://host/Book/fonts.css"
       then Some ("@font-face {font-family:'Andika'; src:url('Andika-R.ttf') format('opentype');}"
                  ++ String "010"
                       "@font-face {font-family:'Andika'; font-weight:bold; src:url(Andika-B.ttf)}")
       else None))
    as (_ & H & _).
  exact (H "https://host/Book"
           [ {| FontSheet.textBefore := "@font-face {font-family:'Andika'; ";
                FontSheet.openQuote := Some "'"%char;
                FontSheet.base := "Andika-R";
                FontSheet.extension := "ttf";
                FontSheet.closeQuote := Some "'"%char;
                FontSheet.lineEnd := " format('opentype');}" |};
             {| FontSheet.textBefore :=
                  String "010"
                    "@font-face {font-family:'Andika'; font-weight:bold; ";
                FontSheet.openQuote := None;
                FontSheet.base := "Andika-B";
                FontSheet.extension := "ttf";
                FontSheet.closeQuote := None;
                FontSheet.lineEnd := "}" |} ]
           "" None eq_refl eq_refl eq_refl).
Defined.

(** C4, as stated, fails when the legacy question handler supplies a quiz
    stylesheet: its content follows the linked stylesheets in the combined
    string; and for a font stylesheet in a folder of its own, whose
    references are made absolute against that folder, not against the
    book prefix. *)
Lemma assembleStyleSheets_quiz_counterexample :
  (styleRules
     (assembledState
        (assembleStyleSheets "https://host/Book"
           (fun url => if String.eqb url "https://host/Book/custom.css"
                       then Some ".custom{}" else None)
           (Some (Some {| data := ".quiz{}";
                          responseUrl := "legacyQuizHandling/Special.css" |}))
           None
           (Element "html" []
              [Element "head" []
                 [Element "style" [("type", "text/css")] [Text ".embedded{}"];
                  Element "link" [("href", "custom.css"); ("type", "text/css")] []]])
           initialState))
   = ".embedded{}.custom{}.quiz{}"
   /\ ".embedded{}.custom{}.quiz{}" <> ".embedded{}" ++ ".custom{}")
  /\ (fontStyleSheet
        (assembleStyleSheets "https://host/Book"
           (fun url => if String.eqb url "https://host/Book/css/fonts.css"
                       then Some "@font-face{src:url(Andika.ttf)}" else None)
           None None
           (Element "html" []
              [Element "head" []
                 [Element "link" [("href", "css/fonts.css"); ("type", "text/css")] []]])
           initialState)
      = Some "@font-face{src:url('https://host/Book/css/Andika.ttf')}"
      /\ Some "@font-face{src:url('https://host/Book/css/Andika.ttf')}"
         <> Some "@font-face{src:url('https://host/Book/Andika.ttf')}").
Proof.
  split; (split; [vm_compute; reflexivity | discriminate]).
Qed.

(** What the amended claim leaves out.  A dollar sign in the address of
    the stylesheet is read as part of the replacement pattern: [$&]
    brings in the text of the match. *)
Example makeFontStylesheet_dollar :
  makeFontStylesheet
    (fun url => if String.eqb url "https://host/B$&k/fonts.css"
                then Some "@font-face{src:url(a.ttf)}" else None)
    "https://host/B$&k/fonts.css" None
  = Some "@font-face{src:url('https://host/Bsrc:url(a.ttf)k/a.ttf')}".
Proof. vm_compute. reflexivity. Qed.

(** Two references on one line are taken for one: the capture runs to
    the last dot of the line. *)
Example makeFontStylesheet_same_line :
  makeFontStylesheet
    (fun url => if String.eqb url "P/fonts.css"
                then Some "@font-face{src:url(a.ttf)}@font-face{src:url(b.ttf)}"
                else None)
    "P/fonts.css" None
  = Some "@font-face{src:url('P/a.ttf)}@font-face{src:url(b.ttf')}".
Proof. vm_compute. reflexivity. Qed.

(** The font stylesheet of a book, rewritten. *)
Example makeFontStylesheet_example :
  makeFontStylesheet
    (fun url => if String.eqb url "https://host/Book/fonts.css"
                then Some "@font-face {font-family:'Andika'; src:url('Andika-R.ttf') format('opentype');}"
                else None)
    "https://host/Book/fonts.css" None
  = Some "@font-face {font-family:'Andika'; src:url('https://host/Book/Andika-R.ttf') format('opentype');}".
Proof. vm_compute. reflexivity. Qed.

(** * Further properties of the code *)

(** ** The url property *)

Lemma allWhiteSpace_append (a b : string) :
  Js.allWhiteSpace (a ++ b) = Js.allWhiteSpace a && Js.allWhiteSpace b.
Proof.
  induction a as [|c a IH]; simpl; [reflexivity|].
  now rewrite IH, andb_assoc.
Qed.

Lemma trim_blank (u : string) :
  String.eqb "" (Js.trim u) = Js.allWhiteSpace u.
Proof.
  destruct (Js.allWhiteSpace u) eqn:E.
  - apply trim_empty in E. now rewrite E.
  - apply String.eqb_neq. intros H. symmetry in H.
    apply trim_empty in H. congruence.
Qed.

(** X1: [preprocessUrl] throws, with its one message, exactly when the url
    property is undefined or consists of white space only; every other
    value gives a source URL. *)
Theorem preprocessUrl_throws (url : option string) :
  (preprocessUrl url
   = Throw "The url parameter was empty. It should point to the url of a book."
   <-> url = None \/ exists u, url = Some u /\ Js.allWhiteSpace u = true)
  /\ ((exists r, preprocessUrl url = Ok r)
      <-> exists u, url = Some u /\ Js.allWhiteSpace u = false).
Proof.
  destruct url as [u|]; unfold preprocessUrl.
  - rewrite trim_blank. destruct (Js.allWhiteSpace u) eqn:E.
    + split; split.
      * intros _. right. now exists u.
      * reflexivity.
      * intros [r H]. discriminate.
      * intros [u' [H1 H2]]. injection H1 as <-. congruence.
    + split; split.
      * destruct (String.eqb u "working"); discriminate.
      * intros [H|[u' [H1 H2]]]; [discriminate|].
        injection H1 as <-. congruence.
      * intros _. now exists u.
      * intros _. destruct (String.eqb u "working"); eexists; reflexivity.
  - split; split.
    + intros _. now left.
    + reflexivity.
    + intros [r H]. discriminate.
    + intros [u [H _]]. discriminate.
Qed.

(** X2: the source URL is the empty string, for which [componentDidUpdate]
    requests nothing, for four values of the url property only: the
    word [working] and the three that consist of separators. *)
Theorem preprocessUrl_empty (u : string) :
  preprocessUrl (Some u) = Ok ""
  <-> u = "working" \/ u = "/" \/ u = "%2f" \/ u = "%2f/".
Proof.
  split.
  - intros H. destruct (String.eqb_spec u "working") as [->|N]; [now left|].
    right. destruct (preprocessUrl_strips u "" H N) as [a [b [Ha [Hb E]]]].
    simpl in E.
    destruct Ha as [->| ->], Hb as [->| ->]; simpl in E; subst u; auto.
    vm_compute in H. discriminate.
  - intros [->|[->|[->| ->]]]; vm_compute; reflexivity.
Qed.

Lemma substring_init (a b : string) (n : Z) :
  n = Js.len a -> Js.substring (a ++ b) 0 n = a.
Proof. intros ->. apply substring_prefix. Qed.

(** X3: a slash added to the url property does not change the book: the
    source URL is the same, so that no new book is loaded. *)
Theorem preprocessUrl_trailing_slash (u : string) :
  Js.allWhiteSpace u = false -> u <> "working" -> Js.endsWith u "/" = false ->
  preprocessUrl (Some (u ++ "/")) = preprocessUrl (Some u).
Proof.
  intros Hw Hn He. unfold preprocessUrl.
  rewrite !trim_blank, allWhiteSpace_append, Hw. cbn [andb].
  assert (String.eqb (u ++ "/") "working" = false) as ->.
  { apply String.eqb_neq. intros E.
    assert (Js.lastChar (u ++ "/") = Js.lastChar "working") by now rewrite E.
    rewrite lastChar_append in H by discriminate. discriminate. }
  assert (String.eqb u "working" = false) as -> by now apply String.eqb_neq.
  rewrite endsWith_append, He.
  rewrite (substring_init u "/") by (rewrite len_append; change (Js.len "/") with 1; lia).
  reflexivity.
Qed.

Lemma preprocessUrl_trailing_slash_witness :
  preprocessUrl (Some ("https://host/Book%2f" ++ "/"))
  = preprocessUrl (Some "https://host/Book%2f").
Proof.
  apply (preprocessUrl_trailing_slash "https://host/Book%2f");
    [reflexivity | discriminate | reflexivity].
Defined.

Lemma prefix_take (n : nat) (s : string) : String.prefix (Js.take n s) s = true.
Proof.
  revert n; induction s as [|c s IH]; intros [|n]; simpl; try reflexivity.
  destruct (ascii_dec c c) as [_|N]; [apply IH | now elim N].
Qed.

Lemma substring_from_start (s : string) (b : Z) :
  String.prefix (Js.substring s 0 b) s = true.
Proof.
  pose proof (len_nonneg s) as L.
  unfold Js.substring, Js.clamp.
  replace (Z.min (Z.min (Z.max 0 0) (Js.len s)) (Z.min (Z.max b 0) (Js.len s)))
    with 0 by lia.
  apply prefix_take.
Qed.

(** X4: whatever the source URL, the markup file requested has a name in
    [.htm] and lies under the URL prefix, and the prefix is an initial
    part of the source URL. *)
Theorem bookUrls_markup_under_prefix (sourceUrl : string) :
  Js.endsWith (urlOfBookHtmlFile (bookUrls sourceUrl)) ".htm" = true
  /\ Js.startsWith (urlOfBookHtmlFile (bookUrls sourceUrl))
       (urlPrefix (bookUrls sourceUrl)) = true
  /\ Js.startsWith sourceUrl (urlPrefix (bookUrls sourceUrl)) = true.
Proof.
  unfold bookUrls, Js.startsWith.
  destruct (haveFullPath sourceUrl) eqn:H; cbn [urlOfBookHtmlFile urlPrefix].
  - split; [|split; apply substring_from_start].
    unfold haveFullPath in H. apply endsWith_iff in H as [t' E].
    destruct (filename_suffix sourceUrl) as [t Et].
    rewrite Et, E, <- append_assoc. apply endsWith_append.
  - split; [|split].
    + change (sourceUrl ++ "/" ++ filename sourceUrl ++ ".htm")
        with (sourceUrl ++ ("/" ++ (filename sourceUrl ++ ".htm"))).
      rewrite <- !append_assoc. apply endsWith_append.
    + apply prefix_append.
    + rewrite <- (append_nil_r sourceUrl) at 2. apply prefix_append.
Qed.

(** ** Requests and error texts *)

Lemma encodeHash_no_hash (url : string) :
  allChars (fun c => negb (Ascii.eqb c "#")) (encodeHash url) = true.
Proof.
  induction url as [|c s IH]; [reflexivity|].
  cbn [encodeHash]. rewrite allChars_append, IH, andb_true_r.
  destruct (Ascii.eqb c "#") eqn:E; [reflexivity|].
  cbn [allChars]. now rewrite E.
Qed.

Lemma encodeHash_id (url : string) :
  allChars (fun c => negb (Ascii.eqb c "#")) url = true -> encodeHash url = url.
Proof.
  induction url as [|c s IH]; [reflexivity|].
  cbn [allChars encodeHash]. intros H. apply andb_prop in H as [H1 H2].
  apply negb_true_iff in H1. rewrite H1, (IH H2). reflexivity.
Qed.

(** X5: [httpget] never requests a URL with a hash in it: the URL of every
    response is free of hashes and is the one that was fetched; a URL
    without hashes is requested as it is. *)
Theorem httpget_hash_free (fetch : string -> option string) (url : string) :
  (forall r, httpget fetch url = Some r ->
     allChars (fun c => negb (Ascii.eqb c "#")) (responseUrl r) = true
     /\ fetch (responseUrl r) = Some (data r))
  /\ (allChars (fun c => negb (Ascii.eqb c "#")) url = true ->
      httpget fetch url
      = match fetch url with
        | Some d => Some {| data := d; responseUrl := url |}
        | None => None
        end).
Proof.
  unfold httpget. split.
  - intros r H. destruct (fetch (encodeHash url)) as [d|] eqn:F; [|discriminate].
    injection H as <-. cbn [responseUrl data]. split; [apply encodeHash_no_hash | exact F].
  - intros H. now rewrite (encodeHash_id url H).
Qed.

(** X6: the text that [htmlEncode] returns holds no angle bracket and no
    code unit from U+00A0 to U+9999, whatever its argument: it cannot
    open or close a tag in the error page. *)
Theorem htmlEncode_no_markup (str : string) :
  allChars (fun c => negb ((160 <=? N_of_ascii c) && (N_of_ascii c <=? 39321))%N
                     && negb (Ascii.eqb c "<") && negb (Ascii.eqb c ">"))
    (htmlEncode str) = true.
Proof.
  unfold htmlEncode. apply encodeChars_safe.
Qed.

(** ** Rendering *)

Lemma shown_from (props : RenderProps) (state : IState) (l : list string)
    (i : Z) :
  Z.of_nat (List.length
              (flat_map (fun s => match slideContent s with
                                  | PageContent _ _ html => [html]
                                  | EmptyContent => []
                                  end)
                 (mapi_from (renderSlide props state) i l)))
  <= Z.max 0 (Z.min 3 (currentSwiperIndex state + 2 - i)).
Proof.
  revert i; induction l as [|x l IH]; intros i; [simpl; lia|].
  cbn [mapi_from flat_map]. rewrite length_app.
  specialize (IH (i + 1)).
  unfold renderSlide at 1. cbn [slideContent].
  destruct (Z.abs (i - currentSwiperIndex state) <? 2) eqn:E.
  - apply Z.ltb_lt in E. cbn [List.length]. lia.
  - apply Z.ltb_ge in E. cbn [List.length]. lia.
Qed.

(** X7: whatever the book and the current index, a rendering holds the
    markup of at most three pages. *)
Theorem render_at_most_three_pages (props : RenderProps) (state : IState) :
  (List.length (shownMarkup (render props state)) <= 3)%nat.
Proof.
  unfold render.
  destruct (isLoading state); [simpl; lia|].
  destruct (loadFailed state); [simpl; lia|].
  cbn [shownMarkup]. unfold mapi.
  pose proof (shown_from props state (pages state) 0). lia.
Qed.

(** ** Page size classes *)

(** X8: the size class that [getPageSizeClass] finds is empty or a piece of
    the class attribute that ends in one of the two orientation words,
    holds no white space, and is thereby a token that [classList]
    accepts. *)
Theorem getPageSizeClass_found (page : Dom.attrs) :
  getPageSizeClass page = ""
  \/ (Dom.validToken (getPageSizeClass page) = true
      /\ (Js.endsWith (getPageSizeClass page) "Portrait" = true
          \/ Js.endsWith (getPageSizeClass page) "Landscape" = true)
      /\ exists a b, Dom.className page = a ++ getPageSizeClass page ++ b).
Proof.
  destruct (String.eqb_spec (getPageSizeClass page) "") as [E|N]; [now left|].
  right. split; [now apply getPageSizeClass_valid|].
  revert N. unfold getPageSizeClass, RegExp.exec.
  destruct (RegExp.execFrom sizeClassPattern None (Dom.className page))
    as [m|] eqn:E; [|now intros []].
  intros _.
  destruct (execFrom_inv _ _ _ _ E) as (prev' & s0 & S & M & T).
  destruct (sizeClassPattern_matchHere _ _ _ _ M) as (pre & word & -> & A & W).
  assert (RegExp.matched m = pre ++ word) as ->.
  { rewrite T, <- append_assoc. apply take_append_exact. }
  split.
  - destruct W as [-> | ->]; [left | right]; apply endsWith_append.
  - exists (RegExp.before m), (RegExp.after m).
    rewrite S. now rewrite append_assoc.
Qed.

(** ** Attributes that a pass over the document leaves alone *)

Lemma getAttribute_removeAttribute (name : string) (a : Dom.attrs) :
  Dom.getAttribute name (Dom.removeAttribute name a) = None.
Proof.
  induction a as [|[n v] a IH]; [reflexivity|].
  unfold Dom.removeAttribute in *. cbn [filter fst].
  destruct (String.eqb n name) eqn:E; cbn [negb]; [exact IH|].
  cbn [Dom.getAttribute]. now rewrite E.
Qed.

Lemma getAttribute_removeAttribute_other (name other : string)
    (a : Dom.attrs) :
  other <> name ->
  Dom.getAttribute other (Dom.removeAttribute name a)
  = Dom.getAttribute other a.
Proof.
  intros N. induction a as [|[n v] a IH]; [reflexivity|].
  unfold Dom.removeAttribute in *. cbn [filter fst].
  destruct (String.eqb n name) eqn:E; cbn [negb Dom.getAttribute].
  - apply String.eqb_eq in E. subst n.
    assert (String.eqb name other = false) as ->
      by (apply String.eqb_neq; congruence).
    exact IH.
  - now rewrite IH.
Qed.

Lemma removeAttribute_idem (name : string) (a : Dom.attrs) :
  Dom.removeAttribute name (Dom.removeAttribute name a)
  = Dom.removeAttribute name a.
Proof.
  unfold Dom.removeAttribute. induction a as [|[n v] a IH]; [reflexivity|].
  cbn [filter fst]. destruct (String.eqb n name) eqn:E; cbn [negb]; [exact IH|].
  cbn [filter fst]. rewrite E. cbn [negb]. now rewrite IH.
Qed.

Lemma otherAttributes_removeAttribute (names : list string) (name : string)
    (a : Dom.attrs) :
  existsb (String.eqb name) names = true ->
  Dom.otherAttributes names (Dom.removeAttribute name a)
  = Dom.otherAttributes names a.
Proof.
  intros H. unfold Dom.otherAttributes, Dom.removeAttribute.
  induction a as [|[n v] a IH]; [reflexivity|].
  cbn [filter fst]. destruct (String.eqb n name) eqn:E; cbn [negb].
  - apply String.eqb_eq in E. subst n. rewrite H. cbn [negb]. exact IH.
  - cbn [filter fst]. now rewrite IH.
Qed.

Lemma otherAttributes_setAttribute (names : list string) (name value : string)
    (a : Dom.attrs) :
  existsb (String.eqb name) names = true ->
  Dom.otherAttributes names (Dom.setAttribute name value a)
  = Dom.otherAttributes names a.
Proof.
  intros H. unfold Dom.otherAttributes.
  induction a as [|[n v] a IH]; cbn [Dom.setAttribute filter fst].
  - now rewrite H.
  - destruct (String.eqb n name) eqn:E; cbn [filter fst].
    + apply String.eqb_eq in E. subst n. now rewrite H.
    + now rewrite IH.
Qed.

Lemma otherAttributes_update (names ts : list string) (a : Dom.attrs) :
  existsb (String.eqb "class") names = true ->
  Dom.otherAttributes names (Dom.update ts a) = Dom.otherAttributes names a.
Proof.
  intros H. unfold Dom.update.
  destruct (Dom.getAttribute "class" a), ts;
    try reflexivity; now apply otherAttributes_setAttribute.
Qed.

Lemma otherAttributes_add (names : list string) (t : string) (a : Dom.attrs) :
  existsb (String.eqb "class") names = true ->
  Dom.otherAttributes names (Dom.add t a) = Dom.otherAttributes names a.
Proof. intros H. now apply otherAttributes_update. Qed.

Lemma otherAttributes_remove (names : list string) (t : string)
    (a : Dom.attrs) :
  existsb (String.eqb "class") names = true ->
  Dom.otherAttributes names (Dom.remove t a) = Dom.otherAttributes names a.
Proof. intros H. now apply otherAttributes_update. Qed.

Lemma mapElements_ext (f g : string -> Dom.attrs -> Dom.attrs) (n : Node) :
  (forall tag a, f tag a = g tag a) ->
  Dom.mapElements f n = Dom.mapElements g n.
Proof.
  intros H. induction n as [d|tag a children IH] using Node_induction;
    [reflexivity|].
  cbn [Dom.mapElements]. rewrite H. f_equal. now apply map_ext_Forall.
Qed.

Lemma mapDescendants_ext (f g : string -> Dom.attrs -> Dom.attrs) (n : Node) :
  (forall tag a, f tag a = g tag a) ->
  Dom.mapDescendants f n = Dom.mapDescendants g n.
Proof.
  intros H. destruct n as [tag a children|d]; [|reflexivity].
  cbn [Dom.mapDescendants]. f_equal. apply map_ext. intros x.
  now apply mapElements_ext.
Qed.

Lemma without_mapElements (names : list string)
    (f : string -> Dom.attrs -> Dom.attrs) (n : Node) :
  (forall tag a, Dom.otherAttributes names (f tag a)
                 = Dom.otherAttributes names a) ->
  Dom.without names (Dom.mapElements f n) = Dom.without names n.
Proof.
  intros H. unfold Dom.without. rewrite mapElements_compose.
  apply mapElements_ext. intros tag a. apply H.
Qed.

Lemma without_mapDescendants (names : list string)
    (f : string -> Dom.attrs -> Dom.attrs) (n : Node) :
  (forall tag a, Dom.otherAttributes names (f tag a)
                 = Dom.otherAttributes names a) ->
  Dom.without names (Dom.mapDescendants f n) = Dom.without names n.
Proof.
  intros H. destruct n as [tag a children|d]; [|reflexivity].
  unfold Dom.without. cbn [Dom.mapDescendants Dom.mapElements]. f_equal.
  rewrite map_map. apply map_ext. intros x.
  apply (without_mapElements names f x H).
Qed.

Lemma mapDescendants_all (f : string -> Dom.attrs -> Dom.attrs)
    (Q : Dom.attrs -> Prop) (n : Node) :
  (forall tag a, Q (f tag a)) ->
  Forall (fun e => Q (Dom.attributesOf e))
    (Dom.descendants (Dom.mapDescendants f n)).
Proof.
  intros H. rewrite descendants_mapDescendants.
  apply Forall_forall. intros e' He'.
  apply in_map_iff in He' as (e & <- & He).
  assert (exists tag a children, e = Element tag a children)
    as (tag & a & ch & ->).
  { destruct n as [t b children|d]; [|destruct He].
    cbn [Dom.descendants] in He. apply in_flat_map in He as (x & _ & He).
    now apply (elements_are_elements x). }
  apply H.
Qed.

(** X9: after [makeNonEditable] no element below the body has a
    [contenteditable] attribute; nothing else in the document changes, the
    body element keeps its own attributes, and a second call changes
    nothing. *)
Theorem makeNonEditable_clears (body : Node) :
  Forall (fun e => Dom.hasAttribute "contenteditable" (Dom.attributesOf e)
                   = false)
    (Dom.descendants (makeNonEditable body))
  /\ Dom.without ["contenteditable"] (makeNonEditable body)
     = Dom.without ["contenteditable"] body
  /\ Dom.attributesOf (makeNonEditable body) = Dom.attributesOf body
  /\ makeNonEditable (makeNonEditable body) = makeNonEditable body.
Proof.
  unfold makeNonEditable. split; [|split; [|split]].
  - apply (mapDescendants_all _
             (fun a => Dom.hasAttribute "contenteditable" a = false)).
    intros tag a. unfold Dom.hasAttribute.
    now rewrite getAttribute_removeAttribute.
  - apply without_mapDescendants. intros tag a.
    now apply otherAttributes_removeAttribute.
  - now destruct body.
  - rewrite mapDescendants_compose. apply mapDescendants_ext.
    intros tag a. apply removeAttribute_idem.
Qed.

(** X10: [fixRelativeUrls] changes nothing but the attributes [src],
    [style], [data-background] and [class] of elements below the page, and
    an element with neither [src] nor [style] keeps all its attributes. *)
Theorem fixRelativeUrls_only_urls (urlPrefix : string) (page : Node) :
  Dom.without ["src"; "style"; "data-background"; "class"]
    (fixRelativeUrls urlPrefix page)
  = Dom.without ["src"; "style"; "data-background"; "class"] page
  /\ Forall2
       (fun e e' =>
          Dom.getAttribute "src" (Dom.attributesOf e) = None ->
          Dom.getAttribute "style" (Dom.attributesOf e) = None ->
          Dom.attributesOf e' = Dom.attributesOf e)
       (Dom.descendants page)
       (Dom.descendants (fixRelativeUrls urlPrefix page)).
Proof.
  unfold fixRelativeUrls. split.
  - rewrite !without_mapDescendants; [reflexivity| |].
    + intros tag a. unfold fixSrc.
      destruct (Dom.getAttribute "src" a); [|reflexivity].
      now apply otherAttributes_setAttribute.
    + intros tag a. unfold fixBackground.
      destruct (Dom.getAttribute "style" a) as [style|]; [|reflexivity].
      destruct (RegExp.exec backgroundImagePattern style); [|reflexivity].
      cbv zeta. rewrite otherAttributes_add by reflexivity.
      now rewrite !otherAttributes_setAttribute by reflexivity.
  - rewrite mapDescendants_compose.
    apply (mapDescendants_each _
             (fun a a' => Dom.getAttribute "src" a = None ->
                          Dom.getAttribute "style" a = None -> a' = a)).
    intros tag a Hsrc Hstyle. unfold fixSrc. rewrite Hsrc.
    unfold fixBackground. now rewrite Hstyle.
Qed.

(** ** Language visibility over the document *)

Lemma otherAttributes_updateEditableAttrs (names D : list string)
    (c : string) (a : Dom.attrs) :
  existsb (String.eqb "class") names = true ->
  Dom.otherAttributes names (updateEditableAttrs D c a)
  = Dom.otherAttributes names a.
Proof.
  intros H. unfold updateEditableAttrs. cbv zeta.
  destruct (Dom.getAttribute "lang" a) as [l|];
    [destruct (String.eqb l c)|];
    destruct (shouldNormallyShowEditable _ _ _ _);
    repeat ((rewrite otherAttributes_add by exact H)
            || (rewrite otherAttributes_remove by exact H));
    reflexivity.
Qed.

Lemma without_updateEditable (names D : list string) (c : string) (n : Node) :
  existsb (String.eqb "class") names = true ->
  Dom.without names (updateEditable D c n) = Dom.without names n.
Proof.
  intros H. destruct n as [tag a children|d]; [|reflexivity].
  unfold updateEditable. destruct (Dom.contains "bloom-editable" a);
    [|reflexivity].
  unfold Dom.without. cbn [Dom.mapElements].
  now rewrite otherAttributes_updateEditableAttrs.
Qed.

Lemma without_updateGroups (names : list string) (c : string) (n : Node) :
  existsb (String.eqb "class") names = true ->
  Dom.without names (updateGroups c n) = Dom.without names n.
Proof.
  intros H. induction n as [d|tag a children IH] using Node_induction;
    [reflexivity|].
  unfold Dom.without in *. cbn [updateGroups Dom.mapElements]. f_equal.
  assert (map (Dom.mapElements (fun _ a => Dom.otherAttributes names a))
            (map (updateGroups c) children)
          = map (Dom.mapElements (fun _ a => Dom.otherAttributes names a))
              children) as E.
  { rewrite map_map. now apply map_ext_Forall. }
  destruct (isTranslationGroup tag a); [|exact E].
  rewrite <- E, map_map. apply map_ext. intros x.
  apply (without_updateEditable names _ c x H).
Qed.

(** X11: [updateDivVisibilityByLangCode] changes class attributes only:
    without them, the document is the same before and after, for every
    language code. *)
Theorem updateDivVisibilityByLangCode_only_classes
    (activeLanguageCode : string) (htmlElement : option Node) :
  option_map (Dom.without ["class"])
    (updateDivVisibilityByLangCode activeLanguageCode htmlElement)
  = option_map (Dom.without ["class"]) htmlElement.
Proof.
  unfold updateDivVisibilityByLangCode.
  destruct htmlElement as [root|]; [|reflexivity].
  destruct (String.eqb activeLanguageCode ""); [reflexivity|].
  destruct root as [tag a children|d]; [|reflexivity].
  cbn [option_map]. f_equal. unfold Dom.without. cbn [Dom.mapElements].
  f_equal. rewrite map_map. apply map_ext. intros x.
  now apply without_updateGroups.
Qed.

Lemma updateGroups_element (c tag : string) (a : Dom.attrs)
    (children : list Node) :
  exists children', updateGroups c (Element tag a children)
                    = Element tag a children'.
Proof. cbn [updateGroups]. now eexists. Qed.

Lemma editableChildren_updateGroups (D : list string) (c : string)
    (children : list Node) :
  editableChildren D (map (updateGroups c) children)
  = editableChildren D children.
Proof.
  unfold editableChildren. induction children as [|x children IH];
    [reflexivity|].
  cbn [map flat_map]. rewrite IH. f_equal.
  destruct x as [tag a ch|d]; [|reflexivity].
  destruct (updateGroups_element c tag a ch) as [ch' ->]. reflexivity.
Qed.

Lemma editableChildren_updateEditable (D : list string) (c : string)
    (children : list Node) :
  editableChildren D (map (updateEditable D c) children)
  = map (fun da => (fst da, updateEditableAttrs (fst da) c (snd da)))
      (editableChildren D children).
Proof.
  unfold editableChildren. induction children as [|x children IH];
    [reflexivity|].
  cbn [map flat_map]. rewrite IH, map_app. f_equal.
  destruct x as [tag a ch|d]; [|reflexivity].
  unfold updateEditable.
  destruct (Dom.contains "bloom-editable" a) eqn:E.
  - rewrite contains_updateEditableAttrs by now apply (contains_has_class _ _ E).
    simpl (String.eqb _ _). cbv iota. rewrite E. reflexivity.
  - rewrite E. reflexivity.
Qed.

Lemma editablesOf_updateEditable (D : list string) (c : string) (n : Node) :
  editablesOf (updateEditable D c n) = editablesOf n.
Proof.
  destruct n as [tag a ch|d]; [|reflexivity].
  unfold updateEditable.
  destruct (Dom.contains "bloom-editable" a) eqn:E; [|reflexivity].
  pose proof (contains_has_class _ _ E) as Hc.
  cbn [editablesOf].
  now rewrite isTranslationGroup_updateEditableAttrs,
    dataDefaultLangsOf_updateEditableAttrs.
Qed.

Lemma flat_map_map_after {A B C : Type} (f : A -> list B) (g : B -> C)
    (l : list A) :
  flat_map (fun x => map g (f x)) l = map g (flat_map f l).
Proof.
  induction l as [|x l IH]; [reflexivity|].
  cbn [flat_map]. now rewrite map_app, IH.
Qed.

Lemma flat_map_map_before {A B C : Type} (f : B -> list C) (g : A -> B)
    (l : list A) :
  flat_map f (map g l) = flat_map (fun x => f (g x)) l.
Proof.
  induction l as [|x l IH]; [reflexivity|].
  cbn [map flat_map]. now rewrite IH.
Qed.

Lemma flat_map_ext_Forall {A B : Type} (f g : A -> list B) (l : list A) :
  Forall (fun x => f x = g x) l -> flat_map f l = flat_map g l.
Proof.
  induction 1 as [|x l Hx _ IH]; [reflexivity|].
  cbn [flat_map]. now rewrite Hx, IH.
Qed.

Lemma editablesOf_updateGroups (c : string) (n : Node) :
  editablesOf (updateGroups c n)
  = map (fun da => (fst da, updateEditableAttrs (fst da) c (snd da)))
      (editablesOf n).
Proof.
  induction n as [d|tag a children IH] using Node_induction; [reflexivity|].
  cbn [updateGroups editablesOf]. rewrite map_app.
  assert (flat_map editablesOf (map (updateGroups c) children)
          = map (fun da => (fst da, updateEditableAttrs (fst da) c (snd da)))
              (flat_map editablesOf children)) as E.
  { rewrite flat_map_map_before, <- flat_map_map_after.
    now apply flat_map_ext_Forall. }
  destruct (isTranslationGroup tag a).
  - rewrite editableChildren_updateEditable, editableChildren_updateGroups.
    f_equal. rewrite flat_map_map_before.
    rewrite (flat_map_ext _ _ (editablesOf_updateEditable _ c)).
    exact E.
  - cbn [map app]. exact E.
Qed.

Lemma editableChildren_editable (D : list string) (children : list Node) :
  Forall (fun da => Dom.contains "bloom-editable" (snd da) = true)
    (editableChildren D children).
Proof.
  unfold editableChildren. induction children as [|x children IH];
    [constructor|].
  cbn [flat_map]. apply Forall_app. split; [|exact IH].
  destruct x as [tag a ch|d]; [|constructor].
  destruct (Dom.contains "bloom-editable" a) eqn:E; constructor;
    [exact E | constructor].
Qed.

Lemma editablesOf_editable (n : Node) :
  Forall (fun da => Dom.contains "bloom-editable" (snd da) = true)
    (editablesOf n).
Proof.
  induction n as [d|tag a children IH] using Node_induction; [constructor|].
  cbn [editablesOf]. apply Forall_app. split.
  - destruct (isTranslationGroup tag a); [|constructor].
    apply editableChildren_editable.
  - induction IH as [|x l Hx _ IHl]; [constructor|].
    cbn [flat_map]. apply Forall_app. now split.
Qed.

Lemma editables_updateDivVisibilityByLangCode (c : string) (root root' : Node) :
  c <> "" ->
  updateDivVisibilityByLangCode c (Some root) = Some root' ->
  editables root'
  = map (fun da => (fst da, updateEditableAttrs (fst da) c (snd da)))
      (editables root)
  /\ Forall (fun da => Dom.contains "bloom-editable" (snd da) = true)
       (editables root).
Proof.
  intros Hc. unfold updateDivVisibilityByLangCode.
  apply String.eqb_neq in Hc. rewrite Hc.
  destruct root as [tag a children|d]; intros H; injection H as <-;
    [|split; [reflexivity | constructor]].
  cbn [editables]. split.
  - rewrite flat_map_map_before, <- flat_map_map_after.
    apply flat_map_ext. intros x. apply editablesOf_updateGroups.
  - induction children as [|x l IHl]; [constructor|].
    cbn [flat_map]. apply Forall_app. split; [apply editablesOf_editable|exact IHl].
Qed.

(** X12: after [updateDivVisibilityByLangCode] with a language code, every
    editable child of a translation group is marked consistently: it has
    the class [bloom-visibility-code-on] exactly when
    [shouldNormallyShowEditable] shows it for its group's default
    languages, never together with [bloom-visibility-code-off], and it has
    [bloom-content1] exactly when its language is the active one. *)
Theorem updateDivVisibilityByLangCode_marks (activeLanguageCode : string)
    (root root' : Node) :
  activeLanguageCode <> "" ->
  updateDivVisibilityByLangCode activeLanguageCode (Some root) = Some root' ->
  Forall
    (fun da =>
       Dom.contains "bloom-visibility-code-on" (snd da)
       = shouldNormallyShowEditable
           (match Dom.getAttribute "lang" (snd da) with
            | Some l => l | None => "" end)
           (Some (fst da)) activeLanguageCode (snd da)
       /\ Dom.contains "bloom-visibility-code-on" (snd da)
          && Dom.contains "bloom-visibility-code-off" (snd da) = false
       /\ Dom.contains "bloom-content1" (snd da)
          = match Dom.getAttribute "lang" (snd da) with
            | Some l => String.eqb l activeLanguageCode
            | None => false
            end)
    (editables root').
Proof.
  intros Hc H.
  destruct (editables_updateDivVisibilityByLangCode _ _ _ Hc H) as [-> E].
  apply Forall_map. revert E. apply Forall_impl. intros [D a] Ha.
  cbn [fst snd] in *. pose proof (contains_has_class _ _ Ha) as Hcl.
  fold (shownFor D activeLanguageCode
          (updateEditableAttrs D activeLanguageCode a)).
  fold (primaryFor activeLanguageCode
          (updateEditableAttrs D activeLanguageCode a)).
  rewrite shownFor_updateEditableAttrs, primaryFor_updateEditableAttrs
    by exact Hcl.
  rewrite !contains_updateEditableAttrs by exact Hcl.
  simpl (String.eqb _ _). cbv iota.
  split; [reflexivity|]. split; [|reflexivity].
  destruct (shownFor D activeLanguageCode a); reflexivity.
Qed.

Lemma updateDivVisibilityByLangCode_marks_witness :
  Forall
    (fun da =>
       Dom.contains "bloom-visibility-code-on" (snd da)
       = shouldNormallyShowEditable
           (match Dom.getAttribute "lang" (snd da) with
            | Some l => l | None => "" end)
           (Some (fst da)) "fr" (snd da)
       /\ Dom.contains "bloom-visibility-code-on" (snd da)
          && Dom.contains "bloom-visibility-code-off" (snd da) = false
       /\ Dom.contains "bloom-content1" (snd da)
          = match Dom.getAttribute "lang" (snd da) with
            | Some l => String.eqb l "fr"
            | None => false
            end)
    (editables
       (Element "html" []
          [Element "body" []
             [Element "div"
                [("class", "bloom-translationGroup");
                 ("data-default-languages", "N1")]
                [Element "div"
                   [("class", "bloom-editable bloom-content1");
                    ("lang", "fr")] [Text "Bonjour"];
                 Element "div"
                   [("class", "bloom-editable bloom-contentNational1 bloom-visibility-code-on");
                    ("lang", "en")] [Text "Hello"]]]])).
Proof.
  apply (updateDivVisibilityByLangCode_marks "fr"
           (Element "html" []
              [Element "body" []
                 [Element "div"
                    [("class", "bloom-translationGroup");
                     ("data-default-languages", "N1")]
                    [Element "div"
                       [("class", "bloom-editable bloom-visibility-code-on bloom-content1");
                        ("lang", "fr")] [Text "Bonjour"];
                     Element "div"
                       [("class", "bloom-editable bloom-contentNational1 bloom-visibility-code-off");
                        ("lang", "en")] [Text "Hello"]]]]));
    [discriminate | vm_compute; reflexivity].
Defined.

(** X13: with context pages shown, the slides that [getSlideClass] marks
    as context pages are the one at the current index and the one two
    further; the first carries the markup of its page, the second is
    always rendered empty. *)
Theorem render_context_pages (props : RenderProps) (state : IState) :
  isLoading state = false -> loadFailed state = false ->
  showContextPages props = true ->
  exists cls slides p n,
    render props state = Player cls slides p n
    /\ forall i markup, nth_error (pages state) i = Some markup ->
         exists s, nth_error slides i = Some s
           /\ (slideClass s = "page-preview-slide contextPage"
               <-> Z.of_nat i = currentSwiperIndex state
                   \/ Z.of_nat i = currentSwiperIndex state + 2)
           /\ (Z.of_nat i = currentSwiperIndex state ->
               slideContent s
               = PageContent (styleRules state)
                   ("bloomPlayer-page " ++ importedBodyClasses state) markup)
           /\ (Z.of_nat i = currentSwiperIndex state + 2 ->
               slideContent s = EmptyContent).
Proof.
  intros L F C. unfold render. rewrite L, F.
  do 4 eexists. split; [reflexivity|].
  intros i markup H. eexists. split.
  - unfold mapi. apply mapi_from_nth. exact H.
  - unfold renderSlide, getSlideClass. cbn [slideClass slideContent].
    rewrite C. cbn [negb]. rewrite Z.add_0_l.
    split; [|split].
    + destruct (Z.eqb_spec (Z.of_nat i) (currentSwiperIndex state)) as [E|N1];
        cbn [orb].
      { split; auto. }
      destruct (Z.eqb_spec (Z.of_nat i) (currentSwiperIndex state + 2))
        as [E|N2].
      { split; auto. }
      split; [discriminate | intros [E|E]; contradiction].
    + intros E. rewrite E, Z.sub_diag. reflexivity.
    + intros E.
      replace (Z.of_nat i - currentSwiperIndex state) with 2 by lia.
      reflexivity.
Qed.

Lemma render_context_pages_witness :
  exists cls slides p n,
    render {| showContextPages := true; outsideButtonPageClass := "";
              hideNextPrevButtons := false; absorbsDragging := false |}
      {| pages := [""; "<div>1</div>"; "<div>2</div>"; ""];
         styleRules := ""; importedBodyClasses := "";
         currentSwiperIndex := 0; isLoading := false; loadFailed := false;
         loadErrorHtml := ""; ignorePhonyClick := false;
         isFinishUpForNewBookComplete := true |}
    = Player cls slides p n
    /\ nth_error slides 2
       = Some {| slideClass := "page-preview-slide contextPage";
                 slideContent := EmptyContent |}.
Proof.
  destruct (render_context_pages
              {| showContextPages := true; outsideButtonPageClass := "";
                 hideNextPrevButtons := false; absorbsDragging := false |}
              {| pages := [""; "<div>1</div>"; "<div>2</div>"; ""];
                 styleRules := ""; importedBodyClasses := "";
                 currentSwiperIndex := 0; isLoading := false;
                 loadFailed := false; loadErrorHtml := "";
                 ignorePhonyClick := false;
                 isFinishUpForNewBookComplete := true |}
              eq_refl eq_refl eq_refl)
    as (cls & slides & p & n & E & _).
  exists cls, slides, p, n. split; [exact E|].
  vm_compute in E. injection E as _ <- _ _. reflexivity.
Defined.

(** ** The controls *)

Lemma handle_keeps_resumable_paused (s : Controls.State) (e : Controls.Event) :
  (Controls.canExternallyResume s = true -> Controls.paused s = true) ->
  Controls.canExternallyResume (Controls.handle s e) = true ->
  Controls.paused (Controls.handle s e) = true.
Proof.
  destruct s as [[|] [|]]; destruct e as [[[|] [|] [|]]|];
    vm_compute; auto.
Qed.

(** X14: pausing from outside.  Whatever happens to the controls, the
    player can be resumed from outside only while it is paused; messages
    from outside other than [play] never restart a player that was paused
    by its own button; and a pause from outside followed by a resume
    brings a playing player back to playing. *)
Theorem externalControl_resumes_own_pause :
  (forall events : list Controls.Event,
     Controls.canExternallyResume
       (fold_left Controls.handle events Controls.initial) = true ->
     Controls.paused (fold_left Controls.handle events Controls.initial) = true)
  /\ (forall (s : Controls.State) (messages : list Controls.Message),
        Controls.paused s = true -> Controls.canExternallyResume s = false ->
        Forall (fun data => Controls.play data = false) messages ->
        fold_left (fun s data => Controls.externalControl data s) messages s
        = s)
  /\ (forall s : Controls.State,
        Controls.paused s = false -> Controls.canExternallyResume s = false ->
        Controls.externalControl
          {| Controls.pause := false; Controls.resume := true;
             Controls.play := false |}
          (Controls.externalControl
             {| Controls.pause := true; Controls.resume := false;
                Controls.play := false |} s)
        = s).
Proof.
  split; [|split].
  - intros events.
    assert (forall s,
              (Controls.canExternallyResume s = true -> Controls.paused s = true) ->
              Controls.canExternallyResume (fold_left Controls.handle events s) = true ->
              Controls.paused (fold_left Controls.handle events s) = true) as G.
    { induction events as [|e events IH]; intros s Hs; [exact Hs|].
      cbn [fold_left]. apply IH. now apply handle_keeps_resumable_paused. }
    apply G. discriminate.
  - intros s messages Hp Hc H. induction H as [|data messages Hd _ IH];
      [reflexivity|].
    cbn [fold_left].
    assert (Controls.externalControl data s = s) as ->; [|exact IH].
    destruct s as [p c]; cbn in Hp, Hc; subst p c.
    destruct data as [[|] [|] pl]; cbn in Hd; subst pl; reflexivity.
  - intros [p c] Hp Hc; cbn in Hp, Hc; subst p c. reflexivity.
Qed.

Lemma includes_In (a : list string) (x : string) :
  Js.includes a x = true -> In x a.
Proof.
  unfold Js.includes. intros H. apply existsb_exists in H as (y & Hy & E).
  apply String.eqb_eq in E. now subst.
Qed.

(** X15: the language that the controls make active when a book opens is
    one of the language codes of the book, unless the book has no
    language: then it is the empty code, for which
    [updateDivVisibilityByLangCode] leaves the document as it is.  A
    language asked for from the start is taken when the book has it. *)
Theorem updateLanguagesDataWhenOpeningNewBook_code
    (initialLanguageCode : option string) (bookLanguages : list string) :
  (In (Controls.updateLanguagesDataWhenOpeningNewBook initialLanguageCode
         bookLanguages) bookLanguages
   \/ bookLanguages = []
      /\ Controls.updateLanguagesDataWhenOpeningNewBook initialLanguageCode
           bookLanguages = "")
  /\ (bookLanguages = [] ->
      forall htmlElement,
        updateDivVisibilityByLangCode
          (Controls.updateLanguagesDataWhenOpeningNewBook initialLanguageCode
             bookLanguages) htmlElement = htmlElement)
  /\ (forall code, initialLanguageCode = Some code -> code <> "" ->
        In code bookLanguages ->
        Controls.updateLanguagesDataWhenOpeningNewBook initialLanguageCode
          bookLanguages = code).
Proof.
  unfold Controls.updateLanguagesDataWhenOpeningNewBook.
  split; [|split].
  - destruct initialLanguageCode as [code|].
    + destruct (negb (String.eqb code "") && Js.includes bookLanguages code)
        eqn:E.
      * left. apply andb_prop in E as [_ E]. now apply includes_In.
      * destruct bookLanguages; [right; now split | left; now left].
    + destruct bookLanguages; [right; now split | left; now left].
  - intros -> htmlElement.
    assert ((match initialLanguageCode with
             | Some code =>
                 if negb (String.eqb code "") && Js.includes [] code
                 then code else ""
             | None => ""
             end) = "") as ->.
    { destruct initialLanguageCode as [code|]; [|reflexivity].
      unfold Js.includes. cbn [existsb]. now rewrite andb_false_r. }
    unfold updateDivVisibilityByLangCode.
    destruct htmlElement; reflexivity.
  - intros code -> N H.
    assert (Js.includes bookLanguages code = true) as ->.
    { unfold Js.includes. apply existsb_exists. exists code.
      split; [exact H | apply String.eqb_refl]. }
    apply String.eqb_neq in N. now rewrite N.
Qed.

(** ** The font stylesheet *)

(** X16: for a stylesheet address without a dollar sign,
    [makeFontStylesheet] replaces every font source by the quoted address
    made of the folder of the stylesheet, a slash and the captured file
    name. *)
Theorem makeFontStylesheet_replacement (fetch : string -> option string)
    (href : string) (fontCssStyleSheet : option string) :
  allChars (fun c => negb (Ascii.eqb c "$")) href = true ->
  makeFontStylesheet fetch href fontCssStyleSheet
  = match httpget fetch href with
    | Some result =>
        Some (RegExp.replaceAll fontSrcPattern
                (fun m =>
                   "src:url('"
                   ++ Js.substring href 0 (Js.len href - Js.len "/fonts.css")
                   ++ "/"
                   ++ match RegExp.capture m with Some c => c | None => "" end
                   ++ "')")
                (data result))
    | None => fontCssStyleSheet
    end.
Proof.
  intros H. unfold makeFontStylesheet.
  destruct (httpget fetch href) as [result|]; [|reflexivity].
  cbv zeta. f_equal. unfold RegExp.replaceAll.
  apply replaceAllFrom_ext. intros m.
  change ("src:url('"
          ++ Js.substring href 0 (Js.len href - Js.len "/fonts.css")
          ++ "/$1')")
    with ("src:url('"
          ++ (Js.substring href 0 (Js.len href - Js.len "/fonts.css")
              ++ "/$1')")).
  rewrite (expand_plain "src:url('") by reflexivity.
  rewrite expand_plain by now apply allChars_substring.
  reflexivity.
Qed.

Lemma makeFontStylesheet_replacement_witness :
  makeFontStylesheet
    (fun url => if String.eqb url "https://host/Book/fonts.css"
                then Some "@font-face {src:url(Andika.ttf)}" else None)
    "https://host/Book/fonts.css" None
  = Some "@font-face {src:url('https://host/Book/Andika.ttf')}".
Proof.
  rewrite (makeFontStylesheet_replacement _ "https://host/Book/fonts.css" None)
    by reflexivity.
  vm_compute. reflexivity.
Defined.

(** ** Analytics over a page *)

Lemma isXmatterPage_page (p q : PagePlayer) :
  currentPage q = currentPage p -> isXmatterPage q = isXmatterPage p.
Proof. unfold isXmatterPage. now intros ->. Qed.

(** One call of [storeAudioAnalytics]: what it sends and what it keeps. *)
Lemma storeAudioAnalytics_step (d : Number.number) (p : PagePlayer) :
  currentPage (storeAudioAnalytics d p) = currentPage p
  /\ currentPageIndex (storeAudioAnalytics d p) = currentPageIndex p
  /\ totalVideoDuration (bookInteraction (storeAudioAnalytics d p))
     = totalVideoDuration (bookInteraction p)
  /\ reportedVideoOnCurrentPage (bookInteraction (storeAudioAnalytics d p))
     = reportedVideoOnCurrentPage (bookInteraction p)
  /\ exists sent,
       reports (storeAudioAnalytics d p) = (reports p ++ sent)%list
       /\ (List.length (filter isAudioPageShown sent)
           + (if reportedAudioOnCurrentPage
                   (bookInteraction (storeAudioAnalytics d p))
              then 0 else 1)
           <= if reportedAudioOnCurrentPage (bookInteraction p)
              then 0 else 1)%nat
       /\ Forall (fun r => r = AudioPageShown (currentPageIndex p)
                           \/ r = BookProgressReport) sent
       /\ (isXmatterPage p = true -> sent = []).
Proof.
  unfold storeAudioAnalytics.
  destruct (Number.lt d Number.thousandth || Number.isNaN d).
  { repeat (split; [reflexivity|]). exists []. rewrite app_nil_r.
    repeat split; auto. }
  cbv zeta.
  rewrite (isXmatterPage_page p (withInteraction _ p)) by reflexivity.
  destruct (isXmatterPage p) eqn:X.
  { repeat (split; [reflexivity|]). exists []. rewrite app_nil_r.
    repeat split; auto. }
  cbn [bookInteraction withInteraction reportedAudioOnCurrentPage
       totalAudioDuration totalVideoDuration reportedVideoOnCurrentPage].
  destruct (reportedAudioOnCurrentPage (bookInteraction p)) eqn:R;
    cbn [negb].
  - repeat (split; [reflexivity|]). exists [BookProgressReport].
    cbn. rewrite ?R. repeat split; auto. discriminate.
  - repeat (split; [reflexivity|]).
    exists [AudioPageShown (currentPageIndex p); BookProgressReport].
    cbn. rewrite <- app_assoc. repeat split; auto. discriminate.
Qed.

(** X17: however many durations [storeAudioAnalytics] receives for a page,
    it reports the page as an audio page at most once, and not at all
    when it was reported before or is an x-matter page; on an x-matter
    page it sends nothing; the reports name the current page; the video
    figures stay as they are. *)
Theorem storeAudioAnalytics_reports_once (durations : list Number.number)
    (player : PagePlayer) :
  exists sent,
    reports (fold_left (fun p d => storeAudioAnalytics d p) durations player)
    = (reports player ++ sent)%list
    /\ (List.length (filter isAudioPageShown sent)
        <= if reportedAudioOnCurrentPage (bookInteraction player)
           then 0 else 1)%nat
    /\ Forall (fun r => r = AudioPageShown (currentPageIndex player)
                        \/ r = BookProgressReport) sent
    /\ (isXmatterPage player = true -> sent = [])
    /\ totalVideoDuration
         (bookInteraction
            (fold_left (fun p d => storeAudioAnalytics d p) durations player))
       = totalVideoDuration (bookInteraction player)
    /\ reportedVideoOnCurrentPage
         (bookInteraction
            (fold_left (fun p d => storeAudioAnalytics d p) durations player))
       = reportedVideoOnCurrentPage (bookInteraction player).
Proof.
  revert player. induction durations as [|d durations IH]; intros player.
  - exists []. cbn [fold_left]. rewrite app_nil_r. repeat split; auto.
    cbn. destruct (reportedAudioOnCurrentPage _); lia.
  - cbn [fold_left].
    destruct (storeAudioAnalytics_step d player)
      as (Hp & Hi & Hv & Hr & sent1 & E1 & B1 & F1 & X1).
    destruct (IH (storeAudioAnalytics d player))
      as (sent2 & E2 & B2 & F2 & X2 & V2 & R2).
    exists (sent1 ++ sent2)%list.
    split; [rewrite E2, E1; now rewrite app_assoc|].
    split; [rewrite filter_app, length_app; lia|].
    split; [apply Forall_app; split; [exact F1 | now rewrite <- Hi]|].
    split.
    { intros X. rewrite (X1 X), X2; [reflexivity|].
      now rewrite (isXmatterPage_page player). }
    split; congruence.
Qed.

(** One call of [storeVideoAnalytics]. *)
Lemma storeVideoAnalytics_step (d : Number.number) (p : PagePlayer) :
  currentPage (storeVideoAnalytics d p) = currentPage p
  /\ currentPageIndex (storeVideoAnalytics d p) = currentPageIndex p
  /\ totalAudioDuration (bookInteraction (storeVideoAnalytics d p))
     = totalAudioDuration (bookInteraction p)
  /\ reportedAudioOnCurrentPage (bookInteraction (storeVideoAnalytics d p))
     = reportedAudioOnCurrentPage (bookInteraction p)
  /\ exists sent,
       reports (storeVideoAnalytics d p) = (reports p ++ sent)%list
       /\ (List.length (filter isVideoPageShown sent)
           + (if reportedVideoOnCurrentPage
                   (bookInteraction (storeVideoAnalytics d p))
              then 0 else 1)
           <= if reportedVideoOnCurrentPage (bookInteraction p)
              then 0 else 1)%nat
       /\ Forall (fun r => r = VideoPageShown (currentPageIndex p)
                           \/ r = BookProgressReport) sent
       /\ (isXmatterPage p = true -> Forall (eq BookProgressReport) sent).
Proof.
  unfold storeVideoAnalytics.
  destruct (Number.lt d Number.thousandth).
  { repeat (split; [reflexivity|]). exists []. rewrite app_nil_r.
    repeat split; auto. }
  cbv zeta.
  rewrite (isXmatterPage_page p (withInteraction _ p)) by reflexivity.
  cbn [bookInteraction withInteraction reportedAudioOnCurrentPage
       totalAudioDuration totalVideoDuration reportedVideoOnCurrentPage].
  destruct (reportedVideoOnCurrentPage (bookInteraction p)) eqn:R;
    cbn [negb andb].
  - repeat (split; [reflexivity|]). exists [BookProgressReport].
    cbn. rewrite ?R. repeat split; auto.
  - destruct (isXmatterPage p) eqn:X; cbn [negb].
    + repeat (split; [reflexivity|]). exists [BookProgressReport].
      cbn. rewrite ?R. repeat split; auto.
    + repeat (split; [reflexivity|]).
      exists [VideoPageShown (currentPageIndex p); BookProgressReport].
      cbn. rewrite <- app_assoc. repeat split; auto. discriminate.
Qed.

(** X18: however many durations [storeVideoAnalytics] receives for a page,
    it reports the page as a video page at most once, and not at all when
    it was reported before; on an x-matter page it sends progress reports
    only; the reports name the current page; the audio figures stay as
    they are. *)
Theorem storeVideoAnalytics_reports_once (durations : list Number.number)
    (player : PagePlayer) :
  exists sent,
    reports (fold_left (fun p d => storeVideoAnalytics d p) durations player)
    = (reports player ++ sent)%list
    /\ (List.length (filter isVideoPageShown sent)
        <= if reportedVideoOnCurrentPage (bookInteraction player)
           then 0 else 1)%nat
    /\ Forall (fun r => r = VideoPageShown (currentPageIndex player)
                        \/ r = BookProgressReport) sent
    /\ (isXmatterPage player = true -> Forall (eq BookProgressReport) sent)
    /\ totalAudioDuration
         (bookInteraction
            (fold_left (fun p d => storeVideoAnalytics d p) durations player))
       = totalAudioDuration (bookInteraction player)
    /\ reportedAudioOnCurrentPage
         (bookInteraction
            (fold_left (fun p d => storeVideoAnalytics d p) durations player))
       = reportedAudioOnCurrentPage (bookInteraction player).
Proof.
  revert player. induction durations as [|d durations IH]; intros player.
  - exists []. cbn [fold_left]. rewrite app_nil_r. repeat split; auto.
    cbn. destruct (reportedVideoOnCurrentPage _); lia.
  - cbn [fold_left].
    destruct (storeVideoAnalytics_step d player)
      as (Hp & Hi & Hv & Hr & sent1 & E1 & B1 & F1 & X1).
    destruct (IH (storeVideoAnalytics d player))
      as (sent2 & E2 & B2 & F2 & X2 & V2 & R2).
    exists (sent1 ++ sent2)%list.
    split; [rewrite E2, E1; now rewrite app_assoc|].
    split; [rewrite filter_app, length_app; lia|].
    split; [apply Forall_app; split; [exact F1 | now rewrite <- Hi]|].
    split.
    { intros X. apply Forall_app. split; [now apply X1|].
      apply X2. now rewrite (isXmatterPage_page player). }
    split; congruence.
Qed.

Lemma hasSub_refl (t : string) : Js.hasSub t t = true.
Proof.
  rewrite hasSub_eq.
  rewrite <- (append_nil_r t) at 2. now rewrite prefix_append.
Qed.

Lemma existsb_false_forall {A : Type} (f : A -> bool) (l : list A) :
  existsb f l = false <-> forall x, In x l -> f x = false.
Proof.
  split.
  - intros H x Hx. destruct (f x) eqn:E; [|reflexivity].
    assert (existsb f l = true) by (apply existsb_exists; now exists x).
    congruence.
  - intros H. destruct (existsb f l) eqn:E; [|reflexivity].
    apply existsb_exists in E as (x & Hx & Fx). rewrite (H x Hx) in Fx.
    discriminate.
Qed.

(** X19: in terms of the class tokens of the current page, [isXmatterPage]
    lets a page count for analytics exactly when some token contains
    [bloom-page], no token contains [bloom-backMatter] or
    [bloom-frontMatter], and the page has no [data-xmatter-page]
    attribute. *)
Theorem isXmatterPage_tokens (player : PagePlayer) (page : Dom.attrs) :
  currentPage player = Some page ->
  (isXmatterPage player = false
   <-> (exists t, In t (Dom.tokens page) /\ Js.hasSub "bloom-page" t = true)
       /\ (forall t, In t (Dom.tokens page) ->
             Js.hasSub "bloom-backMatter" t = false
             /\ Js.hasSub "bloom-frontMatter" t = false)
       /\ Dom.hasAttribute "data-xmatter-page" page = false).
Proof.
  intros Hp. unfold isXmatterPage. rewrite Hp.
  pose proof (contains_className "bloom-page" page eq_refl) as C1.
  pose proof (contains_className "bloom-backMatter" page eq_refl) as C2.
  pose proof (contains_className "bloom-frontMatter" page eq_refl) as C3.
  unfold Dom.className, Js.contains in C1, C2, C3.
  destruct (Dom.getAttribute "class" page) as [classAttr|] eqn:G.
  - rewrite !Z.geb_leb, C2, C3.
    replace (Js.indexOf classAttr "bloom-page" <? 0)
      with (negb (0 <=? Js.indexOf classAttr "bloom-page"))
      by (rewrite Z.leb_antisym; now rewrite negb_involutive).
    rewrite C1.
    destruct (String.eqb_spec classAttr "") as [->|N].
    + cbn [orb]. split; [discriminate|].
      intros [[t [Ht _]] _]. unfold Dom.tokens, Dom.className in Ht.
      rewrite G in Ht. destruct Ht.
    + cbn [orb].
      destruct (existsb (Js.hasSub "bloom-page") (Dom.tokens page)) eqn:E1;
        cbn [negb].
      * destruct (existsb (Js.hasSub "bloom-backMatter") (Dom.tokens page))
          eqn:E2; cbn [orb].
        { split; [discriminate|]. intros [_ [H _]].
          apply existsb_exists in E2 as (t & Ht & F).
          destruct (H t Ht) as [F' _]. congruence. }
        destruct (existsb (Js.hasSub "bloom-frontMatter") (Dom.tokens page))
          eqn:E3.
        { split; [discriminate|]. intros [_ [H _]].
          apply existsb_exists in E3 as (t & Ht & F).
          destruct (H t Ht) as [_ F']. congruence. }
        split.
        { intros H. split; [now apply existsb_exists in E1|].
          split; [|exact H]. intros t Ht. split.
          - now apply (proj1 (existsb_false_forall _ _) E2).
          - now apply (proj1 (existsb_false_forall _ _) E3). }
        { now intros [_ [_ H]]. }
      * split; [discriminate|]. intros [[t [Ht F]] _].
        rewrite (proj1 (existsb_false_forall _ _) E1 t Ht) in F.
        discriminate.
  - split; [discriminate|].
    intros [[t [Ht _]] _]. unfold Dom.tokens, Dom.className in Ht.
    rewrite G in Ht. destruct Ht.
Qed.

Lemma isXmatterPage_tokens_witness :
  isXmatterPage
    {| bookInteraction :=
         {| totalAudioDuration := Number.zero;
            totalVideoDuration := Number.zero;
            reportedAudioOnCurrentPage := false;
            reportedVideoOnCurrentPage := false |};
       currentPage := Some [("class", "bloom-page numberedPage A5Portrait")];
       currentPageIndex := 3;
       reports := [] |} = false.
Proof.
  apply (isXmatterPage_tokens
           {| bookInteraction :=
                {| totalAudioDuration := Number.zero;
                   totalVideoDuration := Number.zero;
                   reportedAudioOnCurrentPage := false;
                   reportedVideoOnCurrentPage := false |};
              currentPage :=
                Some [("class", "bloom-page numberedPage A5Portrait")];
              currentPageIndex := 3;
              reports := [] |}
           [("class", "bloom-page numberedPage A5Portrait")] eq_refl).
  split; [exists "bloom-page"; split; [now left | reflexivity]|].
  split; [|reflexivity].
  intros t [<-|[<-|[<-|[]]]]; split; reflexivity.
Defined.

(** ** The address on the error page *)

Lemma encodeHash_cons (c : ascii) (s : string) :
  Ascii.eqb c "#" = false -> encodeHash (String c s) = String c (encodeHash s).
Proof. intros H. cbn [encodeHash]. now rewrite H. Qed.

Lemma encodeHash_hash (s : string) :
  encodeHash (String "#" s) = "%23" ++ encodeHash s.
Proof. reflexivity. Qed.

Lemma encoded_hash_not_before (a b : string) :
  a <> "" ->
  allChars (fun c => negb (Ascii.eqb c "#")) a = true ->
  String.prefix "%23" a = false ->
  String.prefix "%23" (encodeHash (a ++ "#" ++ b)) = false.
Proof.
  intros Ha H P.
  destruct a as [|c1 a]; [now elim Ha|].
  cbn [allChars] in H. apply andb_prop in H as [H1 H].
  apply negb_true_iff in H1.
  change (String c1 a ++ "#" ++ b) with (String c1 (a ++ "#" ++ b)).
  rewrite (encodeHash_cons c1 _ H1), prefix_cons.
  destruct (Ascii.eqb "%" c1) eqn:E1; [|reflexivity]. cbn [andb].
  destruct a as [|c2 a]; [reflexivity|].
  cbn [allChars] in H. apply andb_prop in H as [H2 H].
  apply negb_true_iff in H2.
  change (String c2 a ++ "#" ++ b) with (String c2 (a ++ "#" ++ b)).
  rewrite (encodeHash_cons c2 _ H2), prefix_cons.
  destruct (Ascii.eqb "2" c2) eqn:E2; [|reflexivity]. cbn [andb].
  destruct a as [|c3 a]; [reflexivity|].
  cbn [allChars] in H. apply andb_prop in H as [H3 H].
  apply negb_true_iff in H3.
  change (String c3 a ++ "#" ++ b) with (String c3 (a ++ "#" ++ b)).
  rewrite (encodeHash_cons c3 _ H3), prefix_cons.
  rewrite !prefix_cons, E1, E2 in P. cbn [andb] in P.
  destruct (Ascii.eqb "3" c3); [|reflexivity].
  cbn [andb] in *. destruct a; simpl in P; discriminate.
Qed.

Lemma replace_encodeHash (a b : string) :
  allChars (fun c => negb (Ascii.eqb c "#")) a = true ->
  Js.hasSub "%23" a = false ->
  Js.replace (encodeHash (a ++ "#" ++ b)) "%23" "#" = a ++ "#" ++ encodeHash b.
Proof.
  induction a as [|c a IH]; intros H S.
  - change ("" ++ "#" ++ b) with (String "#" b).
    rewrite encodeHash_hash, replace_eq. simpl. now destruct (encodeHash b).
  - rewrite replace_eq.
    rewrite hasSub_eq in S. apply orb_false_iff in S as [P S].
    rewrite (encoded_hash_not_before (String c a) b) by (auto; discriminate).
    cbn [allChars] in H. apply andb_prop in H as [H1 H].
    apply negb_true_iff in H1.
    change (String c a ++ "#" ++ b) with (String c (a ++ "#" ++ b)).
    rewrite (encodeHash_cons c _ H1). now rewrite (IH H S).
Qed.

(** X20: the address that [httpget] requests comes back on the error page
    with its first hash restored: for an address with a hash after a part
    free of hashes and of the text [%23], [htmlEncode] of the requested
    address encodes the address as it was up to and with that hash; the
    hashes after it stay percent-encoded, and an address with one hash
    is shown as it was given. *)
Theorem htmlEncode_restores_first_hash (a b : string) :
  allChars (fun c => negb (Ascii.eqb c "#")) a = true ->
  Js.hasSub "%23" a = false ->
  htmlEncode (encodeHash (a ++ "#" ++ b))
  = encodeChars (a ++ "#" ++ encodeHash b)
  /\ (allChars (fun c => negb (Ascii.eqb c "#")) b = true ->
      htmlEncode (encodeHash (a ++ "#" ++ b)) = encodeChars (a ++ "#" ++ b)).
Proof.
  intros H S. unfold htmlEncode. rewrite (replace_encodeHash a b H S).
  split; [reflexivity|]. intros Hb. now rewrite (encodeHash_id b Hb).
Qed.

Lemma htmlEncode_restores_first_hash_witness :
  htmlEncode (encodeHash ("file:///books/Guitar " ++ "#" ++ "1/Guitar #1.htm"))
  = "file:///books/Guitar #1/Guitar %231.htm".
Proof.
  rewrite (proj1 (htmlEncode_restores_first_hash "file:///books/Guitar "
                    "1/Guitar #1.htm" eq_refl eq_refl)).
  vm_compute. reflexivity.
Defined.

(** ** The control bar *)

(** X21: a button of the control bar that has a class is the language
    button of a book with two languages or more, and its class is
    [button]: the class [button disabled] is never rendered.  A click
    changes the pause only when the callback [pausedChanged] is given:
    then exactly one button does so, asking for the opposite of the
    current pause state, also when its icon is not shown; without the
    callback no button does. *)
Theorem toolbar_buttons (props : ControlBar.Props)
    (browser : ControlBar.Browser) (languageMenuOpen : bool) :
  (forall b cls,
     In (ControlBar.Button b)
       (ControlBar.toolbar props browser languageMenuOpen) ->
     ControlBar.className b = Some cls ->
     cls = "button" /\ ControlBar.content b = Some ControlBar.Language
     /\ (2 <= List.length (ControlBar.bookLanguages props))%nat)
  /\ (forall b value,
        In (ControlBar.Button b)
          (ControlBar.toolbar props browser languageMenuOpen) ->
        ControlBar.onClick b = Some (ControlBar.PausedChanged value) ->
        value = negb (ControlBar.paused props)
        /\ ControlBar.pausedChanged props = true)
  /\ List.length
       (filter (fun item =>
                  match item with
                  | ControlBar.Button
                      {| ControlBar.onClick :=
                           Some (ControlBar.PausedChanged _) |} => true
                  | _ => false
                  end)
          (ControlBar.toolbar props browser languageMenuOpen))
     = (if ControlBar.pausedChanged props then 1 else 0)%nat.
Proof.
  unfold ControlBar.toolbar. split; [|split].
  - intros b cls H C.
    repeat (apply in_app_or in H as [H|H]).
    + destruct (ControlBar.canGoBack props); [|destruct H].
      destruct H as [H|[]]. injection H as <-. discriminate.
    + destruct H as [H|[]]. discriminate.
    + destruct (1 <? List.length (ControlBar.bookLanguages props))%nat eqn:E;
        [|destruct H].
      destruct H as [H|[]]. injection H as <-.
      cbn [ControlBar.className] in C. injection C as <-.
      apply Nat.ltb_lt in E. unfold ControlBar.controlButtonClass.
      assert ((List.length (ControlBar.bookLanguages props) <? 2)%nat = false)
        as -> by (apply Nat.ltb_ge; lia).
      repeat split; try reflexivity; lia.
    + destruct languageMenuOpen; [|destruct H].
      destruct H as [H|[]]. discriminate.
    + destruct H as [H|[]]. injection H as <-. discriminate.
    + destruct (ControlBar.extraButtons props) as [ebs|]; [|destruct H].
      apply in_map_iff in H as (eb & H & _). injection H as <-. discriminate.
    + destruct (ControlBar.fullscreenEnabled browser
                && ControlBar.canShowFullScreen props); [|destruct H].
      destruct H as [H|[]]. injection H as <-. discriminate.
  - intros b value H C.
    repeat (apply in_app_or in H as [H|H]).
    + destruct (ControlBar.canGoBack props); [|destruct H].
      destruct H as [H|[]]. injection H as <-.
      cbn [ControlBar.onClick] in C.
      destruct (ControlBar.backClicked props); discriminate.
    + destruct H as [H|[]]. discriminate.
    + destruct (1 <? List.length (ControlBar.bookLanguages props))%nat;
        [|destruct H].
      destruct H as [H|[]]. injection H as <-. discriminate.
    + destruct languageMenuOpen; [|destruct H].
      destruct H as [H|[]]. discriminate.
    + destruct H as [H|[]]. injection H as <-.
      cbn [ControlBar.onClick] in C.
      destruct (ControlBar.pausedChanged props); [|discriminate].
      injection C as <-. now split.
    + destruct (ControlBar.extraButtons props) as [ebs|]; [|destruct H].
      apply in_map_iff in H as (eb & H & _). injection H as <-. discriminate.
    + destruct (ControlBar.fullscreenEnabled browser
                && ControlBar.canShowFullScreen props); [|destruct H].
      destruct H as [H|[]]. injection H as <-. discriminate.
  - rewrite !filter_app, !length_app.
    assert (forall ebs,
              List.length
                (filter (fun item =>
                   match item with
                   | ControlBar.Button
                       {| ControlBar.onClick :=
                            Some (ControlBar.PausedChanged _) |} => true
                   | _ => false
                   end)
                   (map (fun eb =>
                      ControlBar.Button
                        {| ControlBar.className := None;
                           ControlBar.title := ControlBar.description eb;
                           ControlBar.content :=
                             Some (ControlBar.Img (ControlBar.iconUrl eb));
                           ControlBar.onClick :=
                             Some (ControlBar.SendMessageToHost
                                     (ControlBar.id eb)) |})
                      ebs)) = 0%nat) as X.
    { induction ebs as [|eb ebs IH]; [reflexivity | exact IH]. }
    destruct (ControlBar.canGoBack props),
      (ControlBar.backClicked props),
      (ControlBar.pausedChanged props),
      (1 <? List.length (ControlBar.bookLanguages props))%nat,
      languageMenuOpen,
      (ControlBar.fullscreenEnabled browser
       && ControlBar.canShowFullScreen props),
      (ControlBar.extraButtons props) as [ebs|];
      cbn [filter List.length ControlBar.onClick];
      rewrite ?X; reflexivity.
Qed.

(** ** The orientation of a page, for the player and for the controls *)

Lemma hasSub_append_l (p a s : string) :
  Js.hasSub p s = true -> Js.hasSub p (a ++ s) = true.
Proof.
  intros H. induction a as [|c a IH]; [exact H|].
  change (String c a ++ s) with (String c (a ++ s)).
  rewrite hasSub_eq, IH. apply orb_true_r.
Qed.

Lemma hasSub_middle (p a s b : string) :
  Js.hasSub p s = true -> Js.hasSub p (a ++ s ++ b) = true.
Proof.
  intros H. apply hasSub_append_l.
  rewrite <- contains_hasSub. apply contains_append.
  now rewrite contains_hasSub.
Qed.

Lemma getPageSizeClass_occurs (page : Dom.attrs) :
  getPageSizeClass page <> "" ->
  exists classAttr a b,
    Dom.getAttribute "class" page = Some classAttr
    /\ classAttr = a ++ getPageSizeClass page ++ b.
Proof.
  unfold getPageSizeClass, RegExp.exec.
  destruct (RegExp.execFrom sizeClassPattern None (Dom.className page))
    as [m|] eqn:E; [|now intros []].
  intros N.
  destruct (execFrom_inv _ _ _ _ E) as (prev' & s0 & S & M & T).
  destruct (sizeClassPattern_matchHere _ _ _ _ M) as (pre & word & -> & A & W).
  assert (RegExp.matched m = pre ++ word) as R.
  { rewrite T, <- append_assoc. apply take_append_exact. }
  unfold Dom.className in S.
  destruct (Dom.getAttribute "class" page) as [classAttr|].
  - exists classAttr, (RegExp.before m), (RegExp.after m).
    split; [reflexivity|]. rewrite S, R. now rewrite append_assoc.
  - destruct (RegExp.before m); [|discriminate].
    destruct pre; [|discriminate].
    destruct W as [-> | ->]; discriminate.
Qed.

(** X22: when [setPageSizeClass] chooses a device size and reports
    landscape, the test by which the controls tell the orientation of the
    page finds it landscape as well. *)
Theorem setPageSizeClass_landscape_agrees (page page' : Dom.attrs)
    (bookCanRotate showLandscape : bool) (originalPageClass : string) :
  setPageSizeClass page bookCanRotate showLandscape false originalPageClass
  = Ok (page', true) ->
  scalePageToWindow_landscape page' = Ok true.
Proof.
  unfold setPageSizeClass.
  destruct (String.eqb_spec (getPageSizeClass page) "") as [E|N];
    [discriminate|].
  cbv zeta. unfold desiredClass.
  set (landscape := if bookCanRotate then showLandscape
                    else Js.endsWith (getPageSizeClass page) "Landscape").
  destruct landscape eqn:L.
  - destruct (String.eqb_spec (getPageSizeClass page) "Device16x9Landscape")
      as [E|N'].
    + intros H. injection H as <-.
      destruct (getPageSizeClass_occurs page N) as (c & a & b & G & Hc).
      unfold scalePageToWindow_landscape. rewrite G. do 2 f_equal.
      rewrite Z.geb_leb. fold (Js.contains c "Landscape").
      rewrite contains_hasSub, Hc, E. now apply hasSub_middle.
    + pose proof (getPageSizeClass_valid page N) as V.
      unfold Dom.checked. unfold Dom.validToken in V.
      apply andb_prop in V as [V1 V2]. apply negb_true_iff in V1.
      rewrite V1, V2. cbn [String.eqb Dom.noWhiteSpace].
      change (Dom.noWhiteSpace "Device16x9Landscape") with true. cbv iota.
      intros H. injection H as <-.
      assert (Dom.contains "Device16x9Landscape"
                (Dom.add "Device16x9Landscape"
                   (Dom.remove (getPageSizeClass page) page)) = true) as C.
      { rewrite contains_add by reflexivity. now rewrite String.eqb_refl. }
      pose proof (contains_has_class _ _ C) as Hc.
      pose proof (contains_className "Landscape"
                    (Dom.add "Device16x9Landscape"
                       (Dom.remove (getPageSizeClass page) page)) eq_refl)
        as K.
      unfold scalePageToWindow_landscape. unfold Dom.className in K.
      destruct (Dom.getAttribute "class"
                  (Dom.add "Device16x9Landscape"
                     (Dom.remove (getPageSizeClass page) page)))
        as [c|]; [|now elim Hc].
      do 2 f_equal. rewrite Z.geb_leb. fold (Js.contains c "Landscape").
      rewrite K. apply existsb_exists. exists "Device16x9Landscape".
      split; [|reflexivity]. now apply mem_In.
  - destruct (String.eqb (getPageSizeClass page) "Device16x9Portrait").
    + discriminate.
    + unfold Dom.checked.
      destruct (String.eqb (getPageSizeClass page) ""); [discriminate|].
      destruct (Dom.noWhiteSpace (getPageSizeClass page)); [|discriminate].
      cbn. discriminate.
Qed.

Lemma setPageSizeClass_landscape_agrees_witness :
  scalePageToWindow_landscape
    [("class", "bloom-page numberedPage Device16x9Landscape")] = Ok true.
Proof.
  apply (setPageSizeClass_landscape_agrees
           [("class", "bloom-page A5Portrait numberedPage")]
           [("class", "bloom-page numberedPage Device16x9Landscape")]
           true true "A5Portrait").
  vm_compute. reflexivity.
Defined.
